(** * Generic Webhook Action: a shallow embedding of the JavaScript action

    The development follows the sources of the action:
    - [src/script.mjs], first document (and [dist/index.js], which differs
      from it only in the names ADDRESS / BASE_URL and BEARER_AUTH_TOKEN /
      AUTH_TOKEN): the original action, with the URL composed inline and a
      bearer token as the only automatic authentication ([Legacy] below);
    - the bundled action with the authentication utilities inlined:
      [getClientCredentialsToken], [getAuthorizationHeader], [getBaseURL],
      and an [invoke] that adds a User-Agent and fails on a status that is
      not accepted ([Bundle] below);
    - [makeWebhookRequest], [error] and [halt], which are the same text in
      every version.
    - [src/script.mjs], second document: the action that imports the
      utilities; its URL and authorization blocks are the bundle's word for
      word, it resolves templates in the parameters first, adds no
      User-Agent and returns the success flag instead of failing
      ([Templated] below).  The template resolver belongs to the utilities
      package and is not among the sources: it is a parameter.

    JavaScript values are modelled with an explicit heap, so that an object
    handed in by the caller and the [headers] variable of [invoke] can be the
    same object.  The runtime (JSON, fetch, the clock, the wording of the
    engine's own TypeErrors) is a [Platform] record the program is
    parameterised by.

    Modelling choices: strings are sequences of Latin-1 code units; numbers
    are integers (status codes are); objects are ordinary extensible objects
    with own data properties only, so that built-in methods are the ones of
    the prototypes; [toUpperCase] acts on ASCII letters, which is all a
    method name has. *)

From Stdlib Require Import ZArith String Ascii List Bool Lia DecimalString.
From stdpp Require Import base option list gmap strings.

Local Open Scope string_scope.
Local Open Scope list_scope.
Local Open Scope Z_scope.

(** ** Strings *)

(** JavaScript strings are modelled as sequences of Latin-1 code units. *)

Module Str.

(** [s.startsWith(p)] *)
Fixpoint startsWith (s p : string) {struct p} : bool :=
  match p, s with
  | EmptyString, _ => true
  | String _ _, EmptyString => false
  | String c p', String d s' => Ascii.eqb c d && startsWith s' p'
  end.

(** [s.endsWith(p)] *)
Fixpoint endsWith (s p : string) : bool :=
  String.eqb s p ||
  match s with
  | EmptyString => false
  | String _ s' => endsWith s' p
  end.

(** [s.includes(p)] *)
Fixpoint includes (s p : string) : bool :=
  startsWith s p ||
  match s with
  | EmptyString => false
  | String _ s' => includes s' p
  end.

(** [s.substring(1)] *)
Definition substring1 (s : string) : string :=
  match s with
  | EmptyString => EmptyString
  | String _ s' => s'
  end.

(** [s.slice(0, -1)] *)
Fixpoint slice_0_m1 (s : string) : string :=
  match s with
  | EmptyString => EmptyString
  | String _ EmptyString => EmptyString
  | String c s' => String c (slice_0_m1 s')
  end.

Definition upper_ascii (c : ascii) : ascii :=
  let n := nat_of_ascii c in
  if (Nat.leb 97 n && Nat.leb n 122)%bool then ascii_of_nat (n - 32) else c.

(** [s.toUpperCase()], on ASCII letters. *)
Fixpoint toUpperCase (s : string) : string :=
  match s with
  | EmptyString => EmptyString
  | String c s' => String (upper_ascii c) (toUpperCase s')
  end.

(** A string is truthy when it is not empty. *)
Definition nonempty (s : string) : bool :=
  match s with
  | EmptyString => false
  | String _ _ => true
  end.

End Str.

(** ** Base64 ([btoa]) *)

Module Base64.

Definition alphabet : string :=
  "ABCDEFGHIJKLMNOPQRSTUVWXYZabcdefghijklmnopqrstuvwxyz0123456789+/".

Definition digit (n : N) : ascii :=
  match String.get (N.to_nat n) alphabet with
  | Some c => c
  | None => "="%char
  end.

Fixpoint encode (l : list N) : string :=
  match l with
  | [] => ""
  | [a] =>
      String (digit (a / 4))
        (String (digit ((a mod 4) * 16)) "==")
  | [a; b] =>
      String (digit (a / 4))
        (String (digit ((a mod 4) * 16 + b / 16))
           (String (digit ((b mod 16) * 4)) "="))
  | a :: b :: c :: rest =>
      String (digit (a / 4))
        (String (digit ((a mod 4) * 16 + b / 16))
           (String (digit ((b mod 16) * 4 + c / 64))
              (String (digit (c mod 64)) (encode rest))))
  end%N.

Definition btoa (s : string) : string :=
  encode (map N_of_ascii (list_ascii_of_string s)).

End Base64.

(** ** Values, objects and the heap *)

Abbreviation loc := nat.

Inductive value :=
| VUndefined
| VNull
| VBool (b : bool)
| VNum (n : Z)
| VStr (s : string)
| VRef (l : loc).

Inductive oclass := Plain | Array.

(** An object: its class, its indexed elements (arrays) and its named own
    properties. *)
Record object := Obj {
  o_class : oclass;
  o_elems : list value;
  o_props : gmap string value }.

Abbreviation heap := (list object).

Definition value_eqb (a b : value) : bool :=
  match a, b with
  | VUndefined, VUndefined => true
  | VNull, VNull => true
  | VBool x, VBool y => Bool.eqb x y
  | VNum x, VNum y => Z.eqb x y
  | VStr x, VStr y => String.eqb x y
  | VRef x, VRef y => Nat.eqb x y
  | _, _ => false
  end.

(** ToBoolean *)
Definition truthy (v : value) : bool :=
  match v with
  | VUndefined | VNull => false
  | VBool b => b
  | VNum n => negb (n =? 0)
  | VStr s => Str.nonempty s
  | VRef _ => true
  end.

Definition typeof (v : value) : string :=
  match v with
  | VUndefined => "undefined"
  | VNull => "object"
  | VBool _ => "boolean"
  | VNum _ => "number"
  | VStr _ => "string"
  | VRef _ => "object"
  end.

Definition isArray (h : heap) (v : value) : bool :=
  match v with
  | VRef l =>
      match h !! l with
      | Some (Obj Array _ _) => true
      | _ => false
      end
  | _ => false
  end.

(** An optional string parameter ([undefined] when absent) as a value. *)
Definition of_opt (o : option string) : value :=
  match o with
  | Some s => VStr s
  | None => VUndefined
  end.

(** The string behind a truthy optional string. *)
Definition truthy_str (o : option string) : option string :=
  match o with
  | Some s => if Str.nonempty s then Some s else None
  | None => None
  end.

(** Own properties of the object a value refers to (none for a primitive). *)
Definition props_of (h : heap) (v : value) : gmap string value :=
  match v with
  | VRef l =>
      match h !! l with
      | Some o => o_props o
      | None => ∅
      end
  | _ => ∅
  end.

(** JSON documents, as [JSON.parse] produces them. *)
#[warnings="-register-all"]
Inductive json :=
| JNull
| JBool (b : bool)
| JNum (n : Z)
| JStr (s : string)
| JArr (items : list json)
| JObj (fields : list (string * json)).

(** Materialise a parsed document as fresh objects at the end of the heap.
    A repeated key keeps its last value. *)
Fixpoint alloc_json (j : json) (h : heap) : value * heap :=
  match j with
  | JNull => (VNull, h)
  | JBool b => (VBool b, h)
  | JNum n => (VNum n, h)
  | JStr s => (VStr s, h)
  | JArr items =>
      let '(vs, h') :=
        (fix go (js : list json) (h : heap) : list value * heap :=
           match js with
           | [] => ([], h)
           | j :: js' =>
               let '(v, h1) := alloc_json j h in
               let '(vs, h2) := go js' h1 in
               (v :: vs, h2)
           end) items h in
      (VRef (length h'), h' ++ [Obj Array vs ∅])
  | JObj fields =>
      let '(ps, h') :=
        (fix go (fs : list (string * json)) (h : heap)
           : gmap string value * heap :=
           match fs with
           | [] => (∅, h)
           | (k, j) :: fs' =>
               let '(v, h1) := alloc_json j h in
               let '(ps, h2) := go fs' h1 in
               (match ps !! k with Some _ => ps | None => <[k := v]> ps end, h2)
           end) fields h in
      (VRef (length h'), h' ++ [Obj Plain [] ps])
  end.

(** ** Errors, requests, responses *)

Record exn := mkExn { ename : string; message : string }.

(** [new Error(msg)] *)
Definition Error (msg : string) : exn := mkExn "Error" msg.

Inductive outcome (A : Type) :=
| Return (a : A)
| Throw (e : exn).
Arguments Return {A} a.
Arguments Throw {A} e.

(** What [fetch] is called with: the URL and the [options] object, with the
    own properties of [options.headers] as they are at the call. *)
Record request := mkRequest {
  req_url : string;
  req_method : string;
  req_headers : gmap string value;
  req_body : option value }.

(** A response: [text_after_json] is what [text()] gives once [json()] has
    failed. *)
Record response := mkResponse {
  status : Z;
  statusText : string;
  ok : bool;
  text : outcome string;
  json_body : outcome json;
  text_after_json : outcome string }.

(** The engine's own TypeErrors. *)
Inductive fault :=
| ReadOfNullish (v : value) (key : string)
| WriteOnPrimitive (v : value) (key : string)
| NotAFunction (v : value) (key : string).

Record Platform := mkPlatform {
  JSON_parse : string -> outcome json;
  JSON_stringify : heap -> value -> outcome string;
  ToString_other : heap -> value -> string;
  fetch_oracle : list request -> request -> outcome response;
  fault_message : fault -> string;
  form_urlencode : list (string * string) -> string;
  Date_toISOString : list request -> string }.

(** ** The state and error monad *)

Record state := mkState {
  st_heap : heap;
  st_log : list request }.

Definition M (A : Type) : Type := state -> outcome A * state.

Definition ret {A} (a : A) : M A := fun s => (Return a, s).

Definition throw {A} (e : exn) : M A := fun s => (Throw e, s).

Definition bind {A B} (m : M A) (k : A -> M B) : M B :=
  fun s =>
    match m s with
    | (Return a, s') => k a s'
    | (Throw e, s') => (Throw e, s')
    end.

(** [try { m } catch (e) { handler e }] *)
Definition try_catch {A} (m : M A) (handler : exn -> M A) : M A :=
  fun s =>
    match m s with
    | (Return a, s') => (Return a, s')
    | (Throw e, s') => handler e s'
    end.

Definition lift {A} (o : outcome A) : M A := fun s => (o, s).

Declare Scope js_scope.
Delimit Scope js_scope with js.
Notation "x <- m ;; k" := (bind m (fun x => k))
  (at level 100, m at next level, right associativity) : js_scope.
Notation "m ;;; k" := (bind m (fun _ => k))
  (at level 100, right associativity) : js_scope.
Local Open Scope js_scope.

Definition get_heap : M heap := fun s => (Return (st_heap s), s).

Definition get_log : M (list request) := fun s => (Return (st_log s), s).

(** A fresh object; its reference is the next free location. *)
Definition alloc (o : object) : M value :=
  fun s =>
    (Return (VRef (length (st_heap s))),
     mkState (st_heap s ++ [o]) (st_log s)).

Definition new_object : M value := alloc (Obj Plain [] ∅).
Definition new_array : M value := alloc (Obj Array [] ∅).

Definition materialise (j : json) : M value :=
  fun s =>
    let '(v, h) := alloc_json j (st_heap s) in
    (Return v, mkState h (st_log s)).

(** ** Parameters, context and results *)

(** [params]: [method], [address] and [addressSuffix] are strings when
    present; the three others come as a string or as a structured value. *)
Record Params := mkParams {
  method : option string;
  address : option string;
  addressSuffix : option string;
  requestBody : value;
  requestHeaders : value;
  acceptedStatusCodes : value }.

(** [context]: two optional mappings from names to strings. *)
Record context := mkContext {
  environment : option (gmap string string);
  secrets : option (gmap string string) }.

(** [o && o.k], and [(o || {}).k]: the truthy string under [k], if any. *)
Definition field (o : option (gmap string string)) (k : string)
  : option string :=
  match o with
  | Some m => truthy_str (m !! k)
  | None => None
  end.

(** The object [makeWebhookRequest] returns; [invoke] sets [executedAt]. *)
Record WebhookResult := mkResult {
  statusCode : Z;
  body : string;
  success : value;
  executedAt : option string }.

Record ActionResult := mkAction {
  action_status : string;
  data : option WebhookResult }.

(** Running a computation from a heap, with nothing sent yet. *)
Definition run {A} (m : M A) (h : heap) : outcome A * state :=
  m (mkState h []).

(** ** Error handler and halt (the same in every version) *)

(** [error: async (params, _context)], on [params.error]. *)
Definition error (e : exn) : outcome ActionResult :=
  let msg := message e in
  if Str.nonempty msg &&
     (Str.includes msg "ECONNREFUSED" ||
      Str.includes msg "ETIMEDOUT" ||
      Str.includes msg "ENOTFOUND" ||
      Str.includes msg "fetch failed" ||
      Str.includes msg "network")
  then Return (mkAction "retry_requested" None)
  else if Str.nonempty msg &&
     (Str.includes msg "is required" ||
      Str.includes msg "Failed to parse" ||
      Str.includes msg "No URL specified")
  then Throw e
  else Return (mkAction "retry_requested" None).

Definition halt : outcome ActionResult := Return (mkAction "halted" None).

Section Program.

Context (P : Platform).

Definition TypeError (f : fault) : exn :=
  mkExn "TypeError" (fault_message P f).

(** Template-literal conversion [`${v}`]. *)
Definition ToString (h : heap) (v : value) : string :=
  match v with
  | VStr s => s
  | _ => ToString_other P h v
  end.

(** [v.k] and [v[k]]: an own property of an object, [undefined] on a
    primitive, a TypeError on [null] and [undefined]. *)
Definition get_prop (v : value) (k : string) : M value :=
  match v with
  | VUndefined | VNull => throw (TypeError (ReadOfNullish v k))
  | VRef _ =>
      h <- get_heap ;;
      ret (default VUndefined (props_of h v !! k))
  | _ => ret VUndefined
  end.

Definition set_own (k : string) (x : value) (o : object) : object :=
  Obj (o_class o) (o_elems o) (<[k := x]> (o_props o)).

(** [v.k = x] in strict mode: updates the object in place; a TypeError on
    anything that is not an object. *)
Definition set_prop (v : value) (k : string) (x : value) : M unit :=
  match v with
  | VRef l =>
      fun s =>
        (Return tt, mkState (alter (set_own k x) l (st_heap s)) (st_log s))
  | _ => throw (TypeError (WriteOnPrimitive v k))
  end.

(** [a.includes(x)]: [Array.prototype.includes] (SameValueZero) on an
    array, [String.prototype.includes] on a string. *)
Definition includes_call (a x : value) : M value :=
  h <- get_heap ;;
  match a with
  | VUndefined | VNull => throw (TypeError (ReadOfNullish a "includes"))
  | VStr s => ret (VBool (Str.includes s (ToString h x)))
  | VRef l =>
      match h !! l with
      | Some (Obj Array elems _) => ret (VBool (existsb (value_eqb x) elems))
      | _ => throw (TypeError (NotAFunction a "includes"))
      end
  | _ => throw (TypeError (NotAFunction a "includes"))
  end.

(** [await fetch(url, { method, headers, body })]: the call is recorded,
    the platform decides the response. *)
Definition fetch (url method : string) (headers : value)
    (body : option value) : M response :=
  fun s =>
    let r := mkRequest url method (props_of (st_heap s) headers) body in
    (fetch_oracle P (st_log s) r, mkState (st_heap s) (st_log s ++ [r])).

(** ** makeWebhookRequest *)

Definition methodsWithBody : list string := ["POST"; "PUT"; "PATCH"; "DELETE"].

Definition is_2xx (s : Z) : bool := (200 <=? s) && (s <? 300).

Definition makeWebhookRequest (method url : string)
    (headers body acceptedStatusCodes : value) : M WebhookResult :=
  acceptedStatusCodes <-
    (match acceptedStatusCodes with
     | VUndefined => new_array
     | _ => ret acceptedStatusCodes
     end) ;;
  options_headers <- (if truthy headers then ret headers else new_object) ;;
  let options_method := Str.toUpperCase method in
  options_body <-
    (if existsb (String.eqb options_method) methodsWithBody && truthy body
     then
       (ct <- get_prop options_headers "Content-Type" ;;
        if truthy ct then ret tt else
          ct' <- get_prop options_headers "content-type" ;;
          if truthy ct' then ret tt else
            set_prop options_headers "Content-Type" (VStr "application/json")) ;;;
       ret (Some body)
     else ret None) ;;
  response <- fetch url options_method options_headers options_body ;;
  responseBody <- try_catch (lift (text response)) (fun _ => ret "") ;;
  isSuccess <-
    (if is_2xx (status response) then ret (VBool true)
     else if truthy acceptedStatusCodes
          then includes_call acceptedStatusCodes (VNum (status response))
          else ret acceptedStatusCodes) ;;
  ret (mkResult (status response) responseBody isSuccess None).

(** ** Request normalisation (the same text in every [invoke]) *)

(** [let headers = {}; if (params.requestHeaders) { try {...} catch ... }] *)
Definition parseRequestHeaders (requestHeaders : value) : M value :=
  headers <- new_object ;;
  if truthy requestHeaders then
    try_catch
      (match requestHeaders with
       | VStr s => (* typeof === 'string' *)
           j <- lift (JSON_parse P s) ;; materialise j
       | VRef _ => (* typeof === 'object' *)
           ret requestHeaders
       | _ => ret headers
       end)
      (fun e => throw (Error ("Failed to parse requestHeaders: " +:+ message e)))
  else ret headers.

(** [let body = params.requestBody; if (body && typeof body === 'object') ...] *)
Definition prepareBody (requestBody : value) : M value :=
  if truthy requestBody && String.eqb (typeof requestBody) "object" then
    h <- get_heap ;;
    s <- lift (JSON_stringify P h requestBody) ;;
    ret (VStr s)
  else ret requestBody.

(** [let acceptedStatusCodes = []; if (params.acceptedStatusCodes) {...}] *)
Definition parseAcceptedStatusCodes (codes : value) : M value :=
  acceptedStatusCodes <- new_array ;;
  if truthy codes then
    h <- get_heap ;;
    if isArray h codes then ret codes
    else
      match codes with
      | VStr s =>
          try_catch (j <- lift (JSON_parse P s) ;; materialise j)
            (fun e =>
               throw (Error ("Failed to parse acceptedStatusCodes: " +:+ message e)))
      | _ => ret acceptedStatusCodes
      end
  else ret acceptedStatusCodes.

(** "Add execution timestamp" and "Return successful response with the
    result" *)
Definition stamp (r : WebhookResult) : M ActionResult :=
  log <- get_log ;;
  ret (mkAction "success"
         (Some (mkResult (statusCode r) (body r) (success r)
                  (Some (Date_toISOString P log))))).

End Program.

Arguments TypeError P f : simpl never.

(** ** The original action ([src/script.mjs], first document) *)

Module Legacy.
Section WithPlatform.

Context (P : Platform).

(** The suffix block, which the source repeats for both base addresses. *)
Definition appendSuffix (url addressSuffix : string) : string :=
  if Str.endsWith url "/" && Str.startsWith addressSuffix "/" then
    url +:+ Str.substring1 addressSuffix
  else if negb (Str.endsWith url "/") && negb (Str.startsWith addressSuffix "/") then
    url +:+ "/" +:+ addressSuffix
  else
    url +:+ addressSuffix.

Definition withSuffix (url : string) (params : Params) : string :=
  match truthy_str (addressSuffix params) with
  | Some suffix => appendSuffix url suffix
  | None => url
  end.

(** "Determine the URL to use" *)
Definition resolveURL (params : Params) (ctx : context) : outcome string :=
  match truthy_str (address params) with
  | Some url => Return (withSuffix url params)
  | None =>
      match field (environment ctx) "ADDRESS" with
      | Some url => Return (withSuffix url params)
      | None =>
          match truthy_str (addressSuffix params) with
          | Some _ =>
              Throw (Error "addressSuffix provided but no base address available. Provide either address parameter or address environment variable")
          | None =>
              Throw (Error "No URL specified. Provide either address parameter or address environment variable")
          end
      end
  end.

(** "Add authentication if available in context" *)
Definition addAuthentication (ctx : context) (headers : value) : M unit :=
  match field (secrets ctx) "BEARER_AUTH_TOKEN" with
  | Some token =>
      a <- get_prop P headers "Authorization" ;;
      if truthy a then ret tt else
        a' <- get_prop P headers "authorization" ;;
        if truthy a' then ret tt else
          set_prop P headers "Authorization" (VStr ("Bearer " +:+ token))
  | None => ret tt
  end.

Definition invoke (params : Params) (ctx : context) : M ActionResult :=
  match truthy_str (method params) with
  | None => throw (Error "method is required")
  | Some method =>
      url <- lift (resolveURL params ctx) ;;
      headers <- parseRequestHeaders P (requestHeaders params) ;;
      addAuthentication ctx headers ;;;
      body' <- prepareBody P (requestBody params) ;;
      acceptedStatusCodes <-
        parseAcceptedStatusCodes P (acceptedStatusCodes params) ;;
      result <- makeWebhookRequest P method url headers body' acceptedStatusCodes ;;
      stamp P result
  end.

End WithPlatform.
End Legacy.

(** ** The bundled action, with the authentication utilities *)

Module Bundle.
Section WithPlatform.

Context (P : Platform).

Definition SGNL_USER_AGENT : string := "SGNL-CAEP-Hub/2.0".

Record TokenConfig := mkTokenConfig {
  tokenUrl : option string;
  clientId : option string;
  clientSecret : option string;
  scope : option string;
  audience : option string;
  authStyle : option string }.

(** [if (x) params.append(name, x)] *)
Definition append_if (name : string) (x : option string)
    (params : list (string * string)) : list (string * string) :=
  match truthy_str x with
  | Some v => params ++ [(name, v)]
  | None => params
  end.

Definition getClientCredentialsToken (config : TokenConfig) : M value :=
  match truthy_str (tokenUrl config), truthy_str (clientId config),
        truthy_str (clientSecret config) with
  | Some tokenUrl, Some clientId, Some clientSecret =>
      let params := [("grant_type", "client_credentials")] in
      let params := append_if "scope" (scope config) params in
      let params := append_if "audience" (audience config) params in
      headers <-
        alloc (Obj Plain []
                 (<["User-Agent" := VStr SGNL_USER_AGENT]>
                    (<["Accept" := VStr "application/json"]>
                       {["Content-Type" := VStr "application/x-www-form-urlencoded"]}))) ;;
      params <-
        (if bool_decide (authStyle config = Some "InParams") then
           ret (params ++ [("client_id", clientId); ("client_secret", clientSecret)])
         else
           let credentials := Base64.btoa (clientId +:+ ":" +:+ clientSecret) in
           set_prop P headers "Authorization" (VStr ("Basic " +:+ credentials)) ;;;
           ret params) ;;
      response <-
        fetch P tokenUrl "POST" headers (Some (VStr (form_urlencode P params))) ;;
      if negb (ok response) then
        errorText <-
          try_catch
            (errorData <- lift (json_body response) ;;
             errorData <- materialise errorData ;;
             h <- get_heap ;;
             lift (JSON_stringify P h errorData))
            (fun _ => lift (text_after_json response)) ;;
        h <- get_heap ;;
        throw (Error ("OAuth2 token request failed: "
                      +:+ ToString P h (VNum (status response)) +:+ " "
                      +:+ statusText response +:+ " - " +:+ errorText))
      else
        data <- lift (json_body response) ;;
        data <- materialise data ;;
        access_token <- get_prop P data "access_token" ;;
        if negb (truthy access_token) then
          throw (Error "No access_token in OAuth2 response")
        else ret access_token
  | _, _, _ =>
      throw (Error "OAuth2 Client Credentials flow requires tokenUrl, clientId, and clientSecret")
  end.

(** [token.startsWith('Bearer ') ? token : `Bearer ${token}`] *)
Definition bearer (token : string) : string :=
  if Str.startsWith token "Bearer " then token else "Bearer " +:+ token.

Definition getAuthorizationHeader (ctx : context) : M string :=
  let env := environment ctx in
  let secrets := secrets ctx in
  match field secrets "BEARER_AUTH_TOKEN" with
  | Some token => ret (bearer token)
  | None =>
  match field secrets "BASIC_PASSWORD", field secrets "BASIC_USERNAME" with
  | Some password, Some username =>
      let credentials := Base64.btoa (username +:+ ":" +:+ password) in
      ret ("Basic " +:+ credentials)
  | _, _ =>
  match field secrets "OAUTH2_AUTHORIZATION_CODE_ACCESS_TOKEN" with
  | Some token => ret (bearer token)
  | None =>
  match field secrets "OAUTH2_CLIENT_CREDENTIALS_CLIENT_SECRET" with
  | Some clientSecret =>
      match field env "OAUTH2_CLIENT_CREDENTIALS_TOKEN_URL",
            field env "OAUTH2_CLIENT_CREDENTIALS_CLIENT_ID" with
      | Some tokenUrl, Some clientId =>
          token <-
            getClientCredentialsToken
              (mkTokenConfig (Some tokenUrl) (Some clientId) (Some clientSecret)
                 (field env "OAUTH2_CLIENT_CREDENTIALS_SCOPE")
                 (field env "OAUTH2_CLIENT_CREDENTIALS_AUDIENCE")
                 (field env "OAUTH2_CLIENT_CREDENTIALS_AUTH_STYLE")) ;;
          h <- get_heap ;;
          ret ("Bearer " +:+ ToString P h token)
      | _, _ =>
          throw (Error "OAuth2 Client Credentials flow requires TOKEN_URL and CLIENT_ID in env")
      end
  | None =>
      throw (Error "No authentication configured. Provide one of: BEARER_AUTH_TOKEN, BASIC_USERNAME/BASIC_PASSWORD, OAUTH2_AUTHORIZATION_CODE_ACCESS_TOKEN, or OAUTH2_CLIENT_CREDENTIALS_*")
  end end end end.

Definition getBaseURL (params : Params) (ctx : context) : outcome string :=
  let address :=
    match truthy_str (address params) with
    | Some a => Some a
    | None => field (environment ctx) "ADDRESS"
    end in
  match address with
  | None =>
      Throw (Error "No URL specified. Provide address parameter or ADDRESS environment variable")
  | Some address =>
      Return (if Str.endsWith address "/" then Str.slice_0_m1 address else address)
  end.

(** "Build the URL using utility function" and "Append suffix if provided" *)
Definition resolveURL (params : Params) (ctx : context) : outcome string :=
  match getBaseURL params ctx with
  | Throw error =>
      match truthy_str (addressSuffix params) with
      | Some _ =>
          Throw (Error "addressSuffix provided but no base address available. Provide either address parameter or ADDRESS environment variable")
      | None => Throw error
      end
  | Return url =>
      match truthy_str (addressSuffix params) with
      | Some addressSuffix =>
          let suffix :=
            if Str.startsWith addressSuffix "/" then addressSuffix
            else "/" +:+ addressSuffix in
          Return (url +:+ suffix)
      | None => Return url
      end
  end.

(** "Add authentication if available in context and not already set in
    headers" *)
Definition addAuthentication (ctx : context) (headers : value) : M unit :=
  a <- get_prop P headers "Authorization" ;;
  if truthy a then ret tt else
    a' <- get_prop P headers "authorization" ;;
    if truthy a' then ret tt else
      try_catch
        (authHeader <- getAuthorizationHeader ctx ;;
         set_prop P headers "Authorization" (VStr authHeader))
        (fun error =>
           if negb (Str.includes (message error) "No authentication configured")
           then throw error
           else ret tt).

(** "Add User-Agent if not already set in custom headers" *)
Definition addUserAgent (headers : value) : M unit :=
  u <- get_prop P headers "User-Agent" ;;
  if truthy u then ret tt else
    u' <- get_prop P headers "user-agent" ;;
    if truthy u' then ret tt else
      set_prop P headers "User-Agent" (VStr SGNL_USER_AGENT).

Definition invoke (params : Params) (ctx : context) : M ActionResult :=
  match truthy_str (method params) with
  | None => throw (Error "method is required")
  | Some method =>
      url <- lift (resolveURL params ctx) ;;
      headers <- parseRequestHeaders P (requestHeaders params) ;;
      addAuthentication ctx headers ;;;
      addUserAgent headers ;;;
      body' <- prepareBody P (requestBody params) ;;
      acceptedStatusCodes <-
        parseAcceptedStatusCodes P (acceptedStatusCodes params) ;;
      result <- makeWebhookRequest P method url headers body' acceptedStatusCodes ;;
      if negb (truthy (success result)) then
        h <- get_heap ;;
        throw (Error ("Request failed with status code: "
                      +:+ ToString P h (VNum (statusCode result))
                      +:+ ". Response body: " +:+ body result +:+ "."))
      else stamp P result
  end.

End WithPlatform.
End Bundle.

(** ** The action on the utilities package ([src/script.mjs], second
    document) *)

Module Templated.
Section WithPlatform.

Context (P : Platform).

(** [resolveJSONPathTemplates(params, jobContext).result], where
    [jobContext] is [context.data || {}]; the errors it reports are only
    logged. *)
Context (resolveJSONPathTemplates : Params -> context -> Params).

Definition invoke (params : Params) (ctx : context) : M ActionResult :=
  let resolvedParams := resolveJSONPathTemplates params ctx in
  match truthy_str (method resolvedParams) with
  | None => throw (Error "method is required")
  | Some method =>
      url <- lift (Bundle.resolveURL resolvedParams ctx) ;;
      headers <- parseRequestHeaders P (requestHeaders resolvedParams) ;;
      Bundle.addAuthentication P ctx headers ;;;
      body' <- prepareBody P (requestBody resolvedParams) ;;
      acceptedStatusCodes <-
        parseAcceptedStatusCodes P (acceptedStatusCodes resolvedParams) ;;
      result <- makeWebhookRequest P method url headers body' acceptedStatusCodes ;;
      stamp P result
  end.

End WithPlatform.
End Templated.

(** ** Specification vocabulary *)

(** [sub] occurs somewhere in [s]. *)
Definition contains (s sub : string) : Prop :=
  exists pre post, s = pre +:+ sub +:+ post.

Definition has_prefix (s p : string) : Prop := exists t, s = p +:+ t.

Definition has_suffix (s p : string) : Prop := exists t, s = t +:+ p.

(** [b] is [base] with one trailing slash taken off, if it had one. *)
Definition strip_one_trailing (base b : string) : Prop :=
  base = b +:+ "/" \/ (b = base /\ ~ has_suffix base "/").

(** [t] is [suffix] with one leading slash taken off, if it had one. *)
Definition strip_one_leading (suffix t : string) : Prop :=
  suffix = "/" +:+ t \/ (t = suffix /\ ~ has_prefix suffix "/").

(** The two strippings, computed. *)
Definition strip_trailing (base : string) : string :=
  if Str.endsWith base "/" then Str.slice_0_m1 base else base.

Definition strip_leading (suffix : string) : string :=
  if Str.startsWith suffix "/" then Str.substring1 suffix else suffix.

(** The base address an invocation chooses: the explicit parameter when it
    is given, the environment's address otherwise. *)
Definition chosen_base (params : Params) (ctx : context) : option string :=
  match truthy_str (address params) with
  | Some a => Some a
  | None => field (environment ctx) "ADDRESS"
  end.

(** A join of base and suffix with one separator and no slash next to it. *)
Definition clean_join (base suffix url : string) : Prop :=
  exists b t,
    url = b +:+ "/" +:+ t /\
    strip_one_trailing base b /\ strip_one_leading suffix t /\
    ~ has_suffix b "/" /\ ~ has_prefix t "/".

Definition retry_words : list string :=
  ["ECONNREFUSED"; "ETIMEDOUT"; "ENOTFOUND"; "fetch failed"; "network"].

Definition fatal_words : list string :=
  ["is required"; "Failed to parse"; "No URL specified"].

Definition mentions (msg : string) (words : list string) : Prop :=
  exists w, In w words /\ contains msg w.

Definition retry_requested : ActionResult := mkAction "retry_requested" None.

(** ** A test double for the platform *)

Module Sample.

(** [JSON.parse] on the few texts the examples use; it refuses every other
    text, with the text in the message. *)
Definition parse (s : string) : outcome json :=
  if String.eqb s "{}" then Return (JObj [])
  else if String.eqb s "[]" then Return (JArr [])
  else if String.eqb s "[404, 410]" then Return (JArr [JNum 404; JNum 410])
  else if String.eqb s "null" then Return JNull
  else if String.eqb s "404" then Return (JNum 404)
  else Throw (mkExn "SyntaxError" ("Unexpected token in JSON: " +:+ s)).

Definition decimal (n : Z) : string := NilZero.string_of_int (Z.to_int n).

Definition to_string (h : heap) (v : value) : string :=
  match v with
  | VUndefined => "undefined"
  | VNull => "null"
  | VBool true => "true"
  | VBool false => "false"
  | VNum n => decimal n
  | VStr s => s
  | VRef _ => "[object Object]"
  end.

Definition describe (f : fault) : string :=
  match f with
  | ReadOfNullish _ k => "Cannot read properties of null (reading '" +:+ k +:+ "')"
  | WriteOnPrimitive _ k => "Cannot create property '" +:+ k +:+ "'"
  | NotAFunction _ k => k +:+ " is not a function"
  end.

Fixpoint urlencode (l : list (string * string)) : string :=
  match l with
  | [] => ""
  | [(k, v)] => k +:+ "=" +:+ v
  | (k, v) :: l' => k +:+ "=" +:+ v +:+ "&" +:+ urlencode l'
  end.

(** Every [fetch] is answered with [reply]. *)
Definition platform (reply : outcome response) : Platform :=
  mkPlatform parse (fun _ _ => Return "{}") to_string (fun _ _ => reply)
    describe urlencode (fun _ => "2024-01-15T10:30:00.000Z").

Definition replies (code : Z) (text : string) : outcome response :=
  Return (mkResponse code "" (is_2xx code) (Return text)
            (parse text) (Return text)).

Definition no_context : context := mkContext None None.

Definition bearer_context : context :=
  mkContext None (Some {["BEARER_AUTH_TOKEN" := "secret-token"]}).

End Sample.

(** ** Reasoning vocabulary *)

#[global] Instance value_eq_dec : EqDecision value.
Proof. solve_decision. Defined.

(** [post m s Q]: running [m] from [s] ends in an outcome and a state that
    satisfy [Q]. *)
Definition post {A} (m : M A) (s : state) (Q : outcome A -> state -> Prop) : Prop :=
  Q (m s).1 (m s).2.

(** An object as [{}] and [[]] create it. *)
Definition blank (ob : object) : Prop := o_props ob = ∅ /\ o_elems ob = [].

Section ExecutorAnatomy.

Context (P : Platform).

(** Whether [makeWebhookRequest] attaches the body. *)
Definition attaches (method : string) (body : value) : bool :=
  existsb (String.eqb (Str.toUpperCase method)) methodsWithBody && truthy body.

(** The Content-Type block of [makeWebhookRequest]. *)
Definition content_type_block (hv : value) : M unit :=
  ct <- get_prop P hv "Content-Type" ;;
  if truthy ct then ret tt else
    ct' <- get_prop P hv "content-type" ;;
    if truthy ct' then ret tt else
      set_prop P hv "Content-Type" (VStr "application/json").

(** What follows the two defaults of [makeWebhookRequest]. *)
Definition dispatch (method url : string) (hv body codes : value)
  : M WebhookResult :=
  options_body <-
    (if attaches method body
     then content_type_block hv ;;; ret (Some body)
     else ret None) ;;
  response <- fetch P url (Str.toUpperCase method) hv options_body ;;
  responseBody <- try_catch (lift (text response)) (fun _ => ret "") ;;
  isSuccess <-
    (if is_2xx (status response) then ret (VBool true)
     else if truthy codes
          then includes_call P codes (VNum (status response))
          else ret codes) ;;
  ret (mkResult (status response) responseBody isSuccess None).

Definition text_or_empty (r : response) : string :=
  match text r with
  | Return t => t
  | Throw _ => ""
  end.

(** The success flag, from the heap at the time of the response. *)
Definition classify (h : heap) (codes : value) (st : Z) : outcome value :=
  if is_2xx st then Return (VBool true)
  else if truthy codes then (includes_call P codes (VNum st) (mkState h [])).1
  else Return codes.

Definition settle (h : heap) (codes : value) (r : outcome response)
  : outcome WebhookResult :=
  match r with
  | Throw e => Throw e
  | Return resp =>
      match classify h codes (status resp) with
      | Return v => Return (mkResult (status resp) (text_or_empty resp) v None)
      | Throw e => Throw e
      end
  end.

(** The request [makeWebhookRequest] hands to [fetch]. *)
Definition sent (method url : string) (h : heap) (hv body : value) : request :=
  mkRequest url (Str.toUpperCase method) (props_of h hv)
    (if attaches method body then Some body else None).

End ExecutorAnatomy.

(** Objects stay where they are and keep their class and elements. *)
Definition grows (h h' : heap) : Prop :=
  forall l o, h !! l = Some o ->
    exists o', h' !! l = Some o' /\ o_class o' = o_class o /\ o_elems o' = o_elems o.

(** Nothing but fresh objects was added, and nothing was sent. *)
Definition allocates (s s' : state) : Prop :=
  st_log s' = st_log s /\ exists t, st_heap s' = st_heap s ++ t.

(** [steady m]: whatever [m] does, the objects of the heap stay in place
    with their class and elements. *)
Definition steady {A} (m : M A) : Prop :=
  forall s, post m s (fun _ s' => grows (st_heap s) (st_heap s')).

(** A header is given when the mapping holds a truthy value under the key. *)
Definition given (h : heap) (v : value) (k : string) : bool :=
  truthy (default VUndefined (props_of h v !! k)).

Definition no_auth : string := "No authentication configured".

Definition no_auth_message : string :=
  "No authentication configured. Provide one of: BEARER_AUTH_TOKEN, BASIC_USERNAME/BASIC_PASSWORD, OAUTH2_AUTHORIZATION_CODE_ACCESS_TOKEN, or OAUTH2_CLIENT_CREDENTIALS_*".


(** The fourth mechanism of [getAuthorizationHeader], for the client
    secret [cs]. *)
Definition client_credentials (P : Platform) (ctx : context) (cs : string)
  : M string :=
  let env := environment ctx in
  match field env "OAUTH2_CLIENT_CREDENTIALS_TOKEN_URL",
        field env "OAUTH2_CLIENT_CREDENTIALS_CLIENT_ID" with
  | Some tokenUrl, Some clientId =>
      token <-
        Bundle.getClientCredentialsToken P
          (Bundle.mkTokenConfig (Some tokenUrl) (Some clientId) (Some cs)
             (field env "OAUTH2_CLIENT_CREDENTIALS_SCOPE")
             (field env "OAUTH2_CLIENT_CREDENTIALS_AUDIENCE")
             (field env "OAUTH2_CLIENT_CREDENTIALS_AUTH_STYLE")) ;;
      h <- get_heap ;;
      ret ("Bearer " +:+ ToString P h token)
  | _, _ =>
      throw (Error "OAuth2 Client Credentials flow requires TOKEN_URL and CLIENT_ID in env")
  end.

(** The rule for bodies, on one request. *)
Definition body_rule (req : request) : Prop :=
  (is_Some (req_body req) -> In (req_method req) methodsWithBody) /\
  (In (req_method req) ["GET"; "HEAD"; "OPTIONS"] -> req_body req = None).

(** Everything sent between two states obeys [R]. *)
Definition sent_between (R : request -> Prop) (s s' : state) : Prop :=
  exists l, st_log s' = st_log s ++ l /\ Forall R l.

(** [sends R m]: every request [m] sends obeys [R]. *)
Definition sends {A} (R : request -> Prop) (m : M A) : Prop :=
  forall s, post m s (fun _ s' => sent_between R s s').

(** The parameters with [acceptedStatusCodes] left out. *)
Definition without_codes (params : Params) : Params :=
  mkParams (method params) (address params) (addressSuffix params)
    (requestBody params) (requestHeaders params) VUndefined.

(** ** Vocabulary for the further properties *)

(** [quiet m]: [m] sends nothing. *)
Definition quiet {A} (m : M A) : Prop :=
  forall s, post m s (fun _ s' => st_log s' = st_log s).

(** [sends_upto n m]: [m] sends at most [n] requests. *)
Definition sends_upto {A} (n : nat) (m : M A) : Prop :=
  forall s, post m s (fun _ s' =>
    exists l, st_log s' = st_log s ++ l /\ (length l <= n)%nat).

(** What [getClientCredentialsToken] does with the token endpoint's
    response. *)
Definition token_answer (P : Platform) (response : response) : M value :=
  if negb (ok response) then
    errorText <-
      try_catch
        (errorData <- lift (json_body response) ;;
         errorData <- materialise errorData ;;
         h <- get_heap ;;
         lift (JSON_stringify P h errorData))
        (fun _ => lift (text_after_json response)) ;;
    h <- get_heap ;;
    throw (Error ("OAuth2 token request failed: "
                  +:+ ToString P h (VNum (status response)) +:+ " "
                  +:+ statusText response +:+ " - " +:+ errorText))
  else
    data <- lift (json_body response) ;;
    data <- materialise data ;;
    access_token <- get_prop P data "access_token" ;;
    if negb (truthy access_token) then
      throw (Error "No access_token in OAuth2 response")
    else ret access_token.

Definition no_access_token : exn := Error "No access_token in OAuth2 response".

(** The member [k] of a JSON object: the last one, when the key is
    repeated. *)
Fixpoint json_field (k : string) (fields : list (string * json)) : option json :=
  match fields with
  | [] => None
  | (k', j) :: fields' =>
      match json_field k fields' with
      | Some j' => Some j'
      | None => if String.eqb k k' then Some j else None
      end
  end.

(** The configuration [getAuthorizationHeader] hands to
    [getClientCredentialsToken]. *)
Definition token_config (ctx : context) (tokenUrl clientId clientSecret : string)
  : Bundle.TokenConfig :=
  Bundle.mkTokenConfig (Some tokenUrl) (Some clientId) (Some clientSecret)
    (field (environment ctx) "OAUTH2_CLIENT_CREDENTIALS_SCOPE")
    (field (environment ctx) "OAUTH2_CLIENT_CREDENTIALS_AUDIENCE")
    (field (environment ctx) "OAUTH2_CLIENT_CREDENTIALS_AUTH_STYLE").

(** The headers an invocation computes. *)
Definition computed_headers : list string :=
  ["Authorization"; "User-Agent"; "Content-Type"].

(** [frame n lh h h']: the first [n] objects of [h] are in [h'] as they
    were, except the object [lh], which is as it was but for the computed
    headers. *)
Definition frame (n : nat) (lh : option loc) (h h' : heap) : Prop :=
  (length h <= length h')%nat /\
  forall l o, (l < n)%nat -> h !! l = Some o ->
    exists o', h' !! l = Some o' /\
      (Some l <> lh -> o' = o) /\
      o_class o' = o_class o /\ o_elems o' = o_elems o /\
      forall k, ~ In k computed_headers -> o_props o' !! k = o_props o !! k.

(** [framed n lh m]: from a heap with at least [n] objects, [m] keeps the
    frame. *)
Definition framed {A} (n : nat) (lh : option loc) (m : M A) : Prop :=
  forall s, (n <= length (st_heap s))%nat ->
    post m s (fun _ s' => frame n lh (st_heap s) (st_heap s')).

(** A value [invoke] may write to: the headers object [lh], or an object
    made during the invocation. *)
Definition target (n : nat) (lh : option loc) (v : value) : Prop :=
  forall l, v = VRef l -> Some l = lh \/ (n <= l)%nat.

(** The headers object the caller handed in, if any. *)
Definition headers_object (params : Params) : option loc :=
  match requestHeaders params with
  | VRef l => Some l
  | _ => None
  end.

(** The result of [invoke]: the executor's result with its timestamp. *)
Definition stamped (P : Platform) (log : list request) (r : WebhookResult)
  : ActionResult :=
  mkAction "success"
    (Some (mkResult (statusCode r) (body r) (success r)
             (Some (Date_toISOString P log)))).

(** [b] is what [invoke] makes of the request body [rb]: the value itself,
    or the text [JSON.stringify] gives for an object. *)
Definition prepared_as (P : Platform) (rb b : value) : Prop :=
  if truthy rb && String.eqb (typeof rb) "object"
  then exists h t, JSON_stringify P h rb = Return t /\ b = VStr t
  else b = rb.

(** A request to the token endpoint the environment names. *)
Definition token_request (ctx : context) (req : request) : Prop :=
  field (environment ctx) "OAUTH2_CLIENT_CREDENTIALS_TOKEN_URL" = Some (req_url req) /\
  req_method req = "POST".

(** Between [s] and [s']: objects kept their place, class and elements, and
    at most [n] requests were sent, each of them obeying [R]. *)
Definition within (R : request -> Prop) (n : nat) (s s' : state) : Prop :=
  grows (st_heap s) (st_heap s') /\
  exists l, st_log s' = st_log s ++ l /\ (length l <= n)%nat /\ Forall R l.

(** The failure of the bundled action on a result without success. *)
Definition request_failed (P : Platform) (h : heap) (r : WebhookResult) : exn :=
  Error ("Request failed with status code: "
         +:+ ToString P h (VNum (statusCode r))
         +:+ ". Response body: " +:+ body r +:+ ".").

(** [req] is the call [invoke] makes for the method [m] and the URL [url]:
    the method in upper case, the prepared body when the method takes one. *)
Definition webhook_call (P : Platform) (params : Params) (m url : string)
    (req : request) : Prop :=
  req_url req = url /\ req_method req = Str.toUpperCase m /\
  exists b, prepared_as P (requestBody params) b /\
    req_body req = (if attaches m b then Some b else None).

(** The action result [r] reports the response [resp], stamped with the
    clock's answer for [log]. *)
Definition reports (P : Platform) (r : ActionResult) (resp : response)
    (log : list request) : Prop :=
  action_status r = "success" /\
  exists res, data r = Some res /\
    statusCode res = status resp /\ body res = text_or_empty resp /\
    executedAt res = Some (Date_toISOString P log).

(** The status is a success: 2xx, or one of the accepted codes. *)
Definition accepted (elems : list value) (st : Z) : bool :=
  is_2xx st || bool_decide (VNum st ∈ elems).

(** The computed headers, each with the lower-case spelling that is looked
    at beside it. *)
Definition header_pairs : list (string * string) :=
  [("Authorization", "authorization"); ("User-Agent", "user-agent");
   ("Content-Type", "content-type")].

(** The header [q] of the mapping [l] is not to be computed: it is none of
    the computed headers, or the mapping gives it (in either spelling). *)
Definition guarded (h : heap) (l : loc) (q : string) : Prop :=
  forall k k', In (k, k') header_pairs -> q = k ->
    given h (VRef l) k || given h (VRef l) k' = true.

(** [keeps l h h']: the mapping [l] is still there, and its guarded headers
    are as they were. *)
Definition keeps (l : loc) (h h' : heap) : Prop :=
  is_Some (h' !! l) /\
  forall q, guarded h l q ->
    props_of h' (VRef l) !! q = props_of h (VRef l) !! q.

(** The parameters with the method written in upper case. *)
Definition upper_method (params : Params) : Params :=
  mkParams (option_map Str.toUpperCase (method params)) (address params)
    (addressSuffix params) (requestBody params) (requestHeaders params)
    (acceptedStatusCodes params).

(** * Properties *)

(** ** Strings *)

Section StringFacts.

Implicit Types s p t : string.

Lemma str_app_cons c s t : String c s +:+ t = String c (s +:+ t).
Proof. reflexivity. Qed.

Lemma str_app_nil_r s : s +:+ "" = s.
Proof. induction s as [|c s IH]; [reflexivity|]. by rewrite str_app_cons, IH. Qed.

Lemma str_app_assoc s p t : (s +:+ p) +:+ t = s +:+ (p +:+ t).
Proof. induction s as [|c s IH]; [reflexivity|]. by rewrite !str_app_cons, IH. Qed.

Lemma startsWith_spec s p : Str.startsWith s p = true <-> has_prefix s p.
Proof.
  revert s. induction p as [|c p IH]; intros s; simpl.
  - split; [intros _; by exists s | done].
  - destruct s as [|d s].
    + split; [done | intros [t Ht]; discriminate].
    + rewrite andb_true_iff, Ascii.eqb_eq, IH. split.
      * intros [-> [t ->]]. by exists t.
      * intros [t Ht]. rewrite str_app_cons in Ht. injection Ht as -> ->.
        split; [done | by exists t].
Qed.

Lemma endsWith_nil p : Str.endsWith "" p = (String.eqb "" p || false).
Proof. reflexivity. Qed.

Lemma endsWith_cons c s p :
  Str.endsWith (String c s) p = (String.eqb (String c s) p || Str.endsWith s p).
Proof. reflexivity. Qed.

Lemma includes_nil p : Str.includes "" p = (Str.startsWith "" p || false).
Proof. reflexivity. Qed.

Lemma includes_cons c s p :
  Str.includes (String c s) p = (Str.startsWith (String c s) p || Str.includes s p).
Proof. reflexivity. Qed.

Lemma endsWith_spec s p : Str.endsWith s p = true <-> has_suffix s p.
Proof.
  induction s as [|c s IH].
  - rewrite endsWith_nil, orb_false_r, String.eqb_eq. split.
    + intros <-. by exists "".
    + intros [[|d t] Ht]; [done | discriminate].
  - rewrite endsWith_cons, orb_true_iff, String.eqb_eq, IH. split.
    + intros [<- | [t ->]]; [by exists "" | by exists (String c t)].
    + intros [[|d t] Ht].
      * by left.
      * rewrite str_app_cons in Ht. injection Ht as -> ->. right. by exists t.
Qed.

Lemma includes_spec s p : Str.includes s p = true <-> contains s p.
Proof.
  induction s as [|c s IH].
  - rewrite includes_nil, orb_false_r, startsWith_spec. split.
    + intros [t Ht]. exists "", t. done.
    + intros [[|d pre] [post H]]; [by exists post | discriminate].
  - rewrite includes_cons, orb_true_iff, startsWith_spec, IH. split.
    + intros [[t Ht] | (pre & post & ->)].
      * by exists "", t.
      * by exists (String c pre), post.
    + intros [[|d pre] [post H]].
      * left. by exists post.
      * rewrite str_app_cons in H. injection H as -> ->. right. by exists pre, post.
Qed.

Lemma slice_snoc t c : Str.slice_0_m1 (t +:+ String c "") = t.
Proof.
  induction t as [|d t IH]; [reflexivity|].
  rewrite str_app_cons. simpl. rewrite IH.
  destruct t; reflexivity.
Qed.


Lemma endsWith_false_iff s p : Str.endsWith s p = false <-> ~ has_suffix s p.
Proof. rewrite <- endsWith_spec. by destruct (Str.endsWith s p). Qed.

Lemma startsWith_false_iff s p : Str.startsWith s p = false <-> ~ has_prefix s p.
Proof. rewrite <- startsWith_spec. by destruct (Str.startsWith s p). Qed.

Lemma truthy_str_Some o s : truthy_str o = Some s -> o = Some s /\ Str.nonempty s = true.
Proof.
  destruct o as [s'|]; simpl; [|done].
  destruct (Str.nonempty s') eqn:E; [|done]. by intros [= ->].
Qed.

End StringFacts.

(** ** The error handler *)

Section ErrorHandler.

Lemma includes_nonempty s c w :
  Str.includes s (String c w) = true -> Str.nonempty s = true.
Proof. destruct s; [discriminate | reflexivity]. Qed.

Lemma mentions_existsb msg words :
  mentions msg words <-> existsb (Str.includes msg) words = true.
Proof.
  unfold mentions. rewrite existsb_exists.
  split; intros (w & Hw & H); exists w; split; try done; by apply includes_spec.
Qed.

(** The handler as a decision list over the message. *)
Lemma error_decision e :
  error e =
    if existsb (Str.includes (message e)) retry_words then Return retry_requested
    else if existsb (Str.includes (message e)) fatal_words then Throw e
    else Return retry_requested.
Proof.
  unfold error, retry_words, fatal_words, retry_requested; simpl existsb.
  rewrite !orb_false_r.
  destruct (Str.nonempty (message e)) eqn:Hne;
    [repeat destruct (Str.includes _ _); reflexivity|].
  repeat match goal with
  | |- context [Str.includes (message e) ?w] =>
      let H := fresh in
      destruct (Str.includes (message e) w) eqn:H;
      [apply includes_nonempty in H; congruence|]
  end.
  reflexivity.
Qed.

End ErrorHandler.

(** C6, as stated, fails on a message that holds both a retryable and a
    fatal marker: the network check comes first, so the error is not
    rethrown. *)
Lemma error_network_marker_first :
  let e := Error "network interface name is required" in
  contains (message e) "is required" /\
  error e = Return retry_requested /\
  error e <> Throw e.
Proof.
  split; [|split].
  - apply includes_spec. vm_compute. reflexivity.
  - vm_compute. reflexivity.
  - vm_compute. discriminate.
Qed.

(** C6 (amended): the handler asks for a retry when the message holds one of
    ECONNREFUSED, ETIMEDOUT, ENOTFOUND, "fetch failed", "network"; it
    rethrows the error it was given, unchanged, when the message holds none
    of those and holds "is required", "Failed to parse" or "No URL
    specified"; for every other message it asks for a retry. *)
Theorem error_classifies (e : exn) :
  (mentions (message e) retry_words -> error e = Return retry_requested) /\
  (~ mentions (message e) retry_words -> mentions (message e) fatal_words ->
     error e = Throw e) /\
  (~ mentions (message e) retry_words -> ~ mentions (message e) fatal_words ->
     error e = Return retry_requested).
Proof.
  rewrite !mentions_existsb, error_decision.
  destruct (existsb _ retry_words), (existsb _ fatal_words); repeat split; congruence.
Qed.

Lemma error_classifies_witness :
  error (Error "fetch failed: ECONNREFUSED") = Return retry_requested /\
  error (Error "method is required") = Throw (Error "method is required") /\
  error (Error "Something unexpected happened") = Return retry_requested.
Proof.
  split; [|split].
  - apply (proj1 (error_classifies _)).
    apply mentions_existsb. vm_compute. reflexivity.
  - apply (proj1 (proj2 (error_classifies (Error "method is required")))).
    + rewrite mentions_existsb. vm_compute. discriminate.
    + apply mentions_existsb. vm_compute. reflexivity.
  - apply (proj2 (proj2 (error_classifies _))).
    + rewrite mentions_existsb. vm_compute. discriminate.
    + rewrite mentions_existsb. vm_compute. discriminate.
Defined.

(** ** URL composition *)

Section URL.

Lemma strip_trailing_spec base b :
  strip_one_trailing base b <-> b = strip_trailing base.
Proof.
  unfold strip_one_trailing, strip_trailing.
  destruct (Str.endsWith base "/") eqn:E.
  - apply endsWith_spec in E as Hs. destruct Hs as [t ->].
    rewrite slice_snoc. split.
    + intros [H | [_ H]]; [|by destruct H; exists t].
      assert (Hs := slice_snoc t "/"). rewrite H, slice_snoc in Hs. done.
    + intros ->. by left.
  - apply endsWith_false_iff in E. split.
    + intros [-> | [-> _]]; [|done]. destruct E. by exists b.
    + intros ->. by right.
Qed.

Lemma strip_leading_spec suffix t :
  strip_one_leading suffix t <-> t = strip_leading suffix.
Proof.
  unfold strip_one_leading, strip_leading.
  destruct (Str.startsWith suffix "/") eqn:E.
  - apply startsWith_spec in E as Hs. destruct Hs as [u ->]. simpl. split.
    + intros [H | [_ H]]; [|by destruct H; exists u]. by injection H.
    + intros ->. by left.
  - apply startsWith_false_iff in E. split.
    + intros [-> | [-> _]]; [|done]. destruct E. by exists t.
    + intros ->. by right.
Qed.

Lemma strip_trailing_app base :
  Str.endsWith base "/" = true -> base = strip_trailing base +:+ "/".
Proof.
  intros E. unfold strip_trailing. rewrite E.
  apply endsWith_spec in E as [t ->]. by rewrite slice_snoc.
Qed.

Lemma strip_leading_app suffix :
  Str.startsWith suffix "/" = true -> suffix = "/" +:+ strip_leading suffix.
Proof.
  intros E. unfold strip_leading. rewrite E.
  by apply startsWith_spec in E as [t ->].
Qed.

Lemma appendSuffix_join url suffix :
  Legacy.appendSuffix url suffix = strip_trailing url +:+ "/" +:+ strip_leading suffix.
Proof.
  unfold Legacy.appendSuffix.
  destruct (Str.endsWith url "/") eqn:E1, (Str.startsWith suffix "/") eqn:E2; simpl.
  - rewrite (strip_trailing_app url E1) at 1. rewrite str_app_assoc.
    by unfold strip_leading; rewrite E2.
  - rewrite (strip_trailing_app url E1) at 1. rewrite str_app_assoc.
    by unfold strip_leading; rewrite E2.
  - rewrite (strip_leading_app suffix E2) at 1.
    by unfold strip_trailing; rewrite E1.
  - by unfold strip_trailing, strip_leading; rewrite E1, E2.
Qed.

Lemma bundle_suffix_join suffix :
  (if Str.startsWith suffix "/" then suffix else "/" +:+ suffix)
  = "/" +:+ strip_leading suffix.
Proof.
  destruct (Str.startsWith suffix "/") eqn:E.
  - by apply strip_leading_app.
  - by unfold strip_leading; rewrite E.
Qed.

Lemma strip_trailing_clean base :
  ~ has_suffix base "//" -> ~ has_suffix (strip_trailing base) "/".
Proof.
  intros H [t Ht]. unfold strip_trailing in Ht.
  destruct (Str.endsWith base "/") eqn:E.
  - apply endsWith_spec in E as [u ->]. rewrite slice_snoc in Ht.
    apply H. exists t. by rewrite Ht, str_app_assoc.
  - apply endsWith_false_iff in E. apply E. by exists t.
Qed.

Lemma strip_leading_clean suffix :
  ~ has_prefix suffix "//" -> ~ has_prefix (strip_leading suffix) "/".
Proof.
  intros H [t Ht]. unfold strip_leading in Ht.
  destruct (Str.startsWith suffix "/") eqn:E.
  - apply startsWith_spec in E as [u ->].
    change (Str.substring1 ("/" +:+ u)) with u in Ht.
    apply H. exists t. by rewrite Ht.
  - apply startsWith_false_iff in E. apply E. by exists t.
Qed.

End URL.

(** C2, as stated, fails on a base address that ends in two slashes: one is
    stripped, the other stays next to the separator. *)
Lemma url_double_slash_at_join :
  let params :=
    mkParams (Some "GET") (Some "https://api.example.com//") (Some "items")
      VUndefined VUndefined VUndefined in
  chosen_base params Sample.no_context = Some "https://api.example.com//" /\
  Bundle.resolveURL params Sample.no_context = Return "https://api.example.com//items" /\
  Legacy.resolveURL params Sample.no_context = Return "https://api.example.com//items" /\
  ~ clean_join "https://api.example.com//" "items" "https://api.example.com//items".
Proof.
  repeat split; try (vm_compute; reflexivity).
  intros (b & t & _ & Hb & _ & Hnb & _).
  apply strip_trailing_spec in Hb. subst b. apply Hnb.
  apply endsWith_spec. vm_compute. reflexivity.
Qed.

(** C2 (amended): for the chosen base address (the explicit parameter before
    the environment's) and a non-empty suffix, both composers return the
    base without one trailing slash, one slash, and the suffix without one
    leading slash; the slash at the join is never missing, and no other
    slash is next to it when the base does not end in two slashes and the
    suffix does not start with two. *)
Theorem url_join (params : Params) (ctx : context) (base suffix : string) :
  chosen_base params ctx = Some base ->
  truthy_str (addressSuffix params) = Some suffix ->
  exists b t,
    strip_one_trailing base b /\ strip_one_leading suffix t /\
    Legacy.resolveURL params ctx = Return (b +:+ "/" +:+ t) /\
    Bundle.resolveURL params ctx = Return (b +:+ "/" +:+ t) /\
    (~ has_suffix base "//" -> ~ has_suffix b "/") /\
    (~ has_prefix suffix "//" -> ~ has_prefix t "/").
Proof.
  intros Hbase Hsuffix.
  exists (strip_trailing base), (strip_leading suffix).
  split; [by apply strip_trailing_spec|].
  split; [by apply strip_leading_spec|].
  split; [|split; [|split; [apply strip_trailing_clean | apply strip_leading_clean]]].
  - unfold Legacy.resolveURL, Legacy.withSuffix, chosen_base in *.
    destruct (truthy_str (address params)) as [a|].
    + injection Hbase as ->. rewrite Hsuffix. by rewrite appendSuffix_join.
    + rewrite Hbase, Hsuffix. by rewrite appendSuffix_join.
  - unfold Bundle.resolveURL, Bundle.getBaseURL, chosen_base in *.
    destruct (truthy_str (address params)) as [a|].
    + injection Hbase as ->. rewrite Hsuffix, bundle_suffix_join. done.
    + rewrite Hbase, Hsuffix, bundle_suffix_join. done.
Qed.

Lemma url_join_witness :
  let params :=
    mkParams (Some "GET") (Some "https://api.example.com/") (Some "/endpoint")
      VUndefined VUndefined VUndefined in
  (chosen_base params Sample.no_context = Some "https://api.example.com/" /\
   truthy_str (addressSuffix params) = Some "/endpoint") /\
  exists b t,
    strip_one_trailing "https://api.example.com/" b /\
    strip_one_leading "/endpoint" t /\
    Legacy.resolveURL params Sample.no_context = Return (b +:+ "/" +:+ t) /\
    Bundle.resolveURL params Sample.no_context = Return (b +:+ "/" +:+ t) /\
    (~ has_suffix "https://api.example.com/" "//" -> ~ has_suffix b "/") /\
    (~ has_prefix "/endpoint" "//" -> ~ has_prefix t "/").
Proof.
  intros params. split; [split; reflexivity|].
  apply (url_join params Sample.no_context "https://api.example.com/" "/endpoint");
    reflexivity.
Defined.

Example url_trailing_and_leading_slash :
  Bundle.resolveURL
    (mkParams (Some "GET") (Some "https://api.example.com/") (Some "/endpoint")
       VUndefined VUndefined VUndefined) Sample.no_context
  = Return "https://api.example.com/endpoint".
Proof. vm_compute. reflexivity. Qed.

Example url_no_slash_at_all :
  Legacy.resolveURL
    (mkParams (Some "POST") (Some "https://api.example.com") (Some "users")
       VUndefined VUndefined VUndefined) Sample.no_context
  = Return "https://api.example.com/users".
Proof. vm_compute. reflexivity. Qed.

Example url_from_environment :
  Bundle.resolveURL
    (mkParams (Some "DELETE") None (Some "/items/123")
       VUndefined VUndefined VUndefined)
    (mkContext (Some {["ADDRESS" := "https://api.example.com/v1"]}) None)
  = Return "https://api.example.com/v1/items/123".
Proof. vm_compute. reflexivity. Qed.

Example url_suffix_without_base :
  Bundle.resolveURL
    (mkParams (Some "GET") None (Some "/endpoint") VUndefined VUndefined VUndefined)
    Sample.no_context
  = Throw (Error "addressSuffix provided but no base address available. Provide either address parameter or ADDRESS environment variable").
Proof. vm_compute. reflexivity. Qed.

(** ** Postconditions *)

Lemma value_eqb_eq a b : value_eqb a b = true <-> a = b.
Proof.
destruct a, b; simpl; try (split; [discriminate | congruence]); try done.
- rewrite Bool.eqb_true_iff. split; congruence.
- rewrite Z.eqb_eq. split; congruence.
- rewrite String.eqb_eq. split; congruence.
- rewrite Nat.eqb_eq. split; congruence.
Qed.

Lemma existsb_value_eqb x l : existsb (value_eqb x) l = bool_decide (x ∈ l).
Proof.
apply eq_true_iff_eq. rewrite existsb_exists, bool_decide_eq_true, list_elem_of_In.
split.
- intros (y & Hy & E). apply value_eqb_eq in E. by subst.
- intros H. exists x. split; [done | by apply value_eqb_eq].
Qed.

Section Post.
Context {A : Type}.
Implicit Types (m : M A) (s : state) (Q : outcome A -> state -> Prop).

Lemma post_eq m s Q o s' : m s = (o, s') -> Q o s' -> post m s Q.
Proof. unfold post. by intros ->. Qed.

Lemma post_elim m s Q o s' : post m s Q -> m s = (o, s') -> Q o s'.
Proof. unfold post. intros H E. by rewrite E in H. Qed.

Lemma post_mono m s Q Q' :
  post m s Q -> (forall o s', Q o s' -> Q' o s') -> post m s Q'.
Proof. unfold post. auto. Qed.

Lemma post_ret a s Q : Q (Return a) s -> post (ret a) s Q.
Proof. done. Qed.

Lemma post_throw e s Q : Q (Throw e) s -> post (throw e) s Q.
Proof. done. Qed.

Lemma post_lift o s Q : Q o s -> post (lift o) s Q.
Proof. done. Qed.

Lemma post_try_catch m h s Q :
  post m s (fun o s1 =>
    match o with
    | Return a => Q (Return a) s1
    | Throw e => post (h e) s1 Q
    end) ->
  post (try_catch m h) s Q.
Proof. unfold post, try_catch. by destruct (m s) as [[a|e] s1]. Qed.
End Post.

Lemma post_bind {A B} (m : M A) (k : A -> M B) s (Q : outcome B -> state -> Prop) :
post m s (fun o s1 =>
  match o with
  | Return a => post (k a) s1 Q
  | Throw e => Q (Throw e) s1
  end) ->
post (bind m k) s Q.
Proof. unfold post, bind. by destruct (m s) as [[a|e] s1]. Qed.

Lemma post_bind_with {A B} (m : M A) (k : A -> M B) s
    (R : outcome A -> state -> Prop) (Q : outcome B -> state -> Prop) :
  post m s R ->
  (forall a s1, R (Return a) s1 -> post (k a) s1 Q) ->
  (forall e s1, R (Throw e) s1 -> Q (Throw e) s1) ->
  post (bind m k) s Q.
Proof.
  intros Hm Hk He. apply post_bind. unfold post in Hm |- * at 1.
  destruct (m s) as [[a|e] s1]; simpl in *; auto.
Qed.

Lemma bind_ext_post {A B} (m : M A) (k1 k2 : A -> M B) s :
  post m s (fun o s1 => forall a, o = Return a -> k1 a s1 = k2 a s1) ->
  bind m k1 s = bind m k2 s.
Proof.
  unfold post, bind. destruct (m s) as [[a|e] s1]; simpl; [|done].
  intros H. by apply H.
Qed.

(** ** The HTTP executor *)

Section Executor.
Context (P : Platform).

Lemma makeWebhookRequest_unfold method url headers body codes :
  makeWebhookRequest P method url headers body codes =
    (codes' <- (match codes with VUndefined => new_array | _ => ret codes end) ;;
     hv <- (if truthy headers then ret headers else new_object) ;;
     dispatch P method url hv body codes').
Proof. reflexivity. Qed.

Lemma content_type_block_spec hv s :
  post (content_type_block P hv) s (fun o s' =>
    st_log s' = st_log s /\
    ((o = Return tt /\
      (s' = s \/
       exists l, hv = VRef l /\
         st_heap s' = alter (set_own "Content-Type" (VStr "application/json")) l (st_heap s)))
     \/ (s' = s /\ exists f, o = Throw (TypeError P f)))).
Proof.
  unfold content_type_block.
  destruct hv as [| |b|n|t|l]; unfold post; simpl;
    try (split; [done|]; right; split; [done|]; eauto).
  unfold bind, get_prop, get_heap, ret, bind; simpl.
  repeat case_match; simpl; split; try done; left; split; eauto.
Qed.

Lemma includes_call_state a x s :
  includes_call P a x s = ((includes_call P a x (mkState (st_heap s) [])).1, s).
Proof.
  unfold includes_call, bind, get_heap, ret, throw; simpl.
  destruct a; try done. destruct (st_heap s !! l) as [[[] ? ?]|]; done.
Qed.

Lemma respond_eq url m hv ob codes s :
  (response <- fetch P url m hv ob ;;
   responseBody <- try_catch (lift (text response)) (fun _ => ret "") ;;
   isSuccess <-
     (if is_2xx (status response) then ret (VBool true)
      else if truthy codes
           then includes_call P codes (VNum (status response))
           else ret codes) ;;
   ret (mkResult (status response) responseBody isSuccess None)) s
  = (settle P (st_heap s) codes
       (fetch_oracle P (st_log s) (mkRequest url m (props_of (st_heap s) hv) ob)),
     mkState (st_heap s)
       (st_log s ++ [mkRequest url m (props_of (st_heap s) hv) ob])).
Proof.
  unfold bind at 1. unfold fetch at 1.
  destruct (fetch_oracle P _ _) as [resp|e]; [|reflexivity].
  unfold settle, classify, text_or_empty, bind, try_catch, lift, ret.
  destruct (text resp) as [t|e];
    (destruct (is_2xx (status resp)); [reflexivity|]);
    (destruct (truthy codes); [|reflexivity]);
    rewrite includes_call_state; cbn [fst snd st_heap];
    by destruct (includes_call P codes _ _).1.
Qed.

Lemma dispatch_spec method url hv body codes s :
  post (dispatch P method url hv body codes) s (fun o s' =>
    (st_heap s' = st_heap s \/
     exists l, hv = VRef l /\ attaches method body = true /\
       st_heap s' =
         alter (set_own "Content-Type" (VStr "application/json")) l (st_heap s)) /\
    ((st_log s' = st_log s /\ attaches method body = true /\
      exists f, o = Throw (TypeError P f)) \/
     (st_log s' = st_log s ++ [sent method url (st_heap s') hv body] /\
      o = settle P (st_heap s') codes
            (fetch_oracle P (st_log s) (sent method url (st_heap s') hv body))))).
Proof.
  unfold dispatch. apply post_bind.
  destruct (attaches method body) eqn:Hatt.
  - apply post_bind.
    eapply post_mono; [apply content_type_block_spec|].
    intros o s1 [Hlog [[-> Hheap] | [-> [f ->]]]].
    + apply post_ret. eapply post_eq; [apply respond_eq|].
      cbn [st_heap st_log]. unfold sent. rewrite Hatt, Hlog.
      split; [|right; done].
      destruct Hheap as [-> | (l & -> & Hh1)]; [by left|].
      right. exists l. by rewrite Hh1.
    + split; [by left|]. left. eauto.
  - apply post_ret. eapply post_eq; [apply respond_eq|].
    cbn [st_heap st_log]. unfold sent. rewrite Hatt.
    split; [by left|]. right. done.
Qed.

Lemma makeWebhookRequest_spec method url headers body codes s :
  post (makeWebhookRequest P method url headers body codes) s (fun o s' =>
    exists t hv codes',
      Forall blank t /\
      (truthy headers = true -> hv = headers) /\
      (truthy headers = false -> exists l, hv = VRef l /\ length (st_heap s) <= l)%nat /\
      (codes <> VUndefined -> codes' = codes) /\
      (st_heap s' = st_heap s ++ t \/
       exists l, hv = VRef l /\ attaches method body = true /\
         st_heap s' =
           alter (set_own "Content-Type" (VStr "application/json")) l
             (st_heap s ++ t)) /\
      ((st_log s' = st_log s /\ attaches method body = true /\
        exists f, o = Throw (TypeError P f)) \/
       (st_log s' = st_log s ++ [sent method url (st_heap s') hv body] /\
        o = settle P (st_heap s') codes'
              (fetch_oracle P (st_log s) (sent method url (st_heap s') hv body))))).
Proof.
  rewrite makeWebhookRequest_unfold.
  set (step1 := match codes with VUndefined => new_array | _ => ret codes end).
  assert (H1 : exists t1 codes',
    step1 s = (Return codes', mkState (st_heap s ++ t1) (st_log s)) /\
    Forall blank t1 /\ (codes <> VUndefined -> codes' = codes)).
  { destruct (decide (codes = VUndefined)) as [->|Hne].
    - exists [Obj Array [] ∅], (VRef (length (st_heap s))).
      repeat split; [by repeat constructor | done].
    - exists [], codes. rewrite app_nil_r.
      split; [by destruct codes, s | by split]. }
  destruct H1 as (t1 & codes' & E1 & Ht1 & Hc).
  apply post_bind. eapply post_eq; [exact E1|]. clear E1 step1.
  set (s1 := mkState (st_heap s ++ t1) (st_log s)).
  assert (H2 : exists t2 hv,
    (if truthy headers then ret headers else new_object) s1
      = (Return hv, mkState (st_heap s1 ++ t2) (st_log s1)) /\
    Forall blank t2 /\ (truthy headers = true -> hv = headers) /\
    (truthy headers = false -> exists l, hv = VRef l /\ length (st_heap s) <= l)%nat).
  { destruct (truthy headers).
    - exists [], headers. unfold ret. rewrite app_nil_r. by repeat split.
    - exists [Obj Plain [] ∅], (VRef (length (st_heap s1))).
      repeat split; [by repeat constructor | done |].
      intros _. eexists; split; [done|]. simpl. rewrite length_app. lia. }
  destruct H2 as (t2 & hv & E2 & Ht2 & Hh1 & Hh2).
  apply post_bind. eapply post_eq; [exact E2|]. clear E2.
  eapply post_mono; [apply dispatch_spec|].
  cbn [st_heap st_log s1]. rewrite <- app_assoc.
  intros o s' [Hheap Hout]. exists (t1 ++ t2), hv, codes'.
  split; [by apply Forall_app|]. done.
Qed.

Lemma classify_array h l elems ps st :
  h !! l = Some (Obj Array elems ps) ->
  classify P h (VRef l) st
  = Return (VBool (is_2xx st || bool_decide (VNum st ∈ elems))).
Proof.
  intros H. unfold classify, includes_call, bind, get_heap, ret. simpl.
  rewrite H. simpl. rewrite existsb_value_eqb. by destruct (is_2xx st).
Qed.

Lemma lookup_alter_class (h : list object) f l l' o :
  (forall ob, o_class (f ob) = o_class ob /\ o_elems (f ob) = o_elems ob) ->
  h !! l = Some o ->
  exists o', alter f l' h !! l = Some o' /\
    o_class o' = o_class o /\ o_elems o' = o_elems o.
Proof.
  intros Hf H. destruct (decide (l' = l)) as [->|Hne].
  - exists (f o). rewrite list_lookup_alter_eq, H. split; [done | apply Hf].
  - exists o. by rewrite list_lookup_alter_ne.
Qed.

Lemma props_of_app_blank (h t : list object) v :
  Forall blank t -> props_of (h ++ t) v = props_of h v.
Proof.
  intros Ht. destruct v as [| | | | |l]; try done. simpl.
  destruct (h !! l) as [o|] eqn:E.
  - by rewrite (lookup_app_l_Some _ _ _ _ E).
  - apply lookup_ge_None in E. rewrite lookup_app_r by done.
    destruct (t !! _) as [o|] eqn:E'; [|done].
    apply list_elem_of_lookup_2 in E'.
    rewrite Forall_forall in Ht. by destruct (Ht o E').
Qed.

Lemma is_2xx_spec st : is_2xx st = true <-> 200 <= st < 300.
Proof. unfold is_2xx. rewrite andb_true_iff, Z.leb_le, Z.ltb_lt. done. Qed.

Lemma attaches_spec method body :
  attaches method body = true <->
  In (Str.toUpperCase method) methodsWithBody /\ truthy body = true.
Proof.
  unfold attaches. rewrite andb_true_iff, existsb_exists. split.
  - intros [(x & Hx & E) Hb]. apply String.eqb_eq in E. by subst.
  - intros [H Hb]. split; [|done]. exists (Str.toUpperCase method).
    split; [done | apply String.eqb_refl].
Qed.

End Executor.

(** ** Heap growth *)

Lemma grows_refl h : grows h h.
Proof. intros l o H. by exists o. Qed.

Lemma grows_trans h1 h2 h3 : grows h1 h2 -> grows h2 h3 -> grows h1 h3.
Proof.
  intros H12 H23 l o H. destruct (H12 l o H) as (o2 & H2 & Hc2 & He2).
  destruct (H23 l o2 H2) as (o3 & H3 & Hc3 & He3).
  exists o3. split; [done|]. split; congruence.
Qed.

Lemma grows_app h t : grows h (h ++ t).
Proof. intros l o H. exists o. split; [by apply lookup_app_l_Some | done]. Qed.

Lemma grows_alter (h : list object) k x l : grows h (alter (set_own k x) l h).
Proof. intros l' o H. by apply (lookup_alter_class _ (set_own k x)). Qed.

Lemma alloc_json_app : forall j (h : list object),
  exists t, (alloc_json j h).2 = h ++ t.
Proof.
  fix IH 1. intros [| b | n | s | items | fields] h; simpl;
    try (exists []; by rewrite app_nil_r).
  - assert (H : forall h0, exists t,
      ((fix go (js : list json) (h : list object) : list value * list object :=
           match js with
           | [] => ([], h)
           | j :: js' =>
               let '(v, h1) := alloc_json j h in
               let '(vs, h2) := go js' h1 in
               (v :: vs, h2)
           end) items h0).2 = h0 ++ t).
    { induction items as [|j js IHjs]; intros h0; simpl.
      - exists []. by rewrite app_nil_r.
      - destruct (IH j h0) as [t1 H1].
        destruct (alloc_json j h0) as [v h1]. simpl in H1. subst h1.
        destruct (IHjs (h0 ++ t1)) as [t2 H2].
        destruct ((fix go (js : list json) (h : list object) := _) js (h0 ++ t1))
          as [vs h2]. simpl in *. subst h2.
        exists (t1 ++ t2). by rewrite app_assoc. }
    destruct (H h) as [t Ht].
    destruct ((fix go (js : list json) (h : list object) := _) items h) as [vs h'].
    simpl in *. subst h'. exists (t ++ [Obj Array vs ∅]). by rewrite app_assoc.
  - assert (H : forall h0, exists t,
      ((fix go (fs : list (string * json)) (h : list object)
           : gmap string value * list object :=
           match fs with
           | [] => (∅, h)
           | (k, j) :: fs' =>
               let '(v, h1) := alloc_json j h in
               let '(ps, h2) := go fs' h1 in
               (match ps !! k with Some _ => ps | None => <[k := v]> ps end, h2)
           end) fields h0).2 = h0 ++ t).
    { induction fields as [|[k j] fs IHfs]; intros h0; simpl.
      - exists []. by rewrite app_nil_r.
      - destruct (IH j h0) as [t1 H1].
        destruct (alloc_json j h0) as [v h1]. simpl in H1. subst h1.
        destruct (IHfs (h0 ++ t1)) as [t2 H2].
        destruct ((fix go (fs : list (string * json)) (h : list object) := _) fs (h0 ++ t1))
          as [ps h2]. simpl in *. subst h2.
        exists (t1 ++ t2). by rewrite app_assoc. }
    destruct (H h) as [t Ht].
    destruct ((fix go (fs : list (string * json)) (h : list object) := _) fields h)
      as [ps h'].
    simpl in *. subst h'. exists (t ++ [Obj Plain [] ps]). by rewrite app_assoc.
Qed.

Lemma allocates_refl s : allocates s s.
Proof. split; [done|]. exists []. by rewrite app_nil_r. Qed.

Lemma allocates_trans s1 s2 s3 : allocates s1 s2 -> allocates s2 s3 -> allocates s1 s3.
Proof.
  intros [L1 [t1 H1]] [L2 [t2 H2]]. split; [congruence|].
  exists (t1 ++ t2). by rewrite H2, H1, app_assoc.
Qed.

Lemma allocates_grows s s' : allocates s s' -> grows (st_heap s) (st_heap s').
Proof. intros [_ [t ->]]. apply grows_app. Qed.


(** ** The steps of [invoke] *)

Section Steps.
Context (P : Platform).

Lemma alloc_spec ob s :
  alloc ob s = (Return (VRef (length (st_heap s))), mkState (st_heap s ++ [ob]) (st_log s)).
Proof. reflexivity. Qed.

Lemma materialise_spec j s :
  post (materialise j) s (fun o s' => (exists v, o = Return v) /\ allocates s s').
Proof.
  unfold post, materialise. destruct (alloc_json_app j (st_heap s)) as [t Ht].
  destruct (alloc_json j (st_heap s)) as [v h]. simpl in *. subst h.
  split; [by eexists|]. split; [done | by exists t].
Qed.

Lemma parse_and_materialise_spec str s :
  post (j <- lift (JSON_parse P str) ;; materialise j) s (fun o s' =>
    allocates s s' /\
    match JSON_parse P str with
    | Throw e => o = Throw e /\ s' = s
    | Return j => exists v, o = Return v
    end).
Proof.
  apply post_bind. apply post_lift.
  destruct (JSON_parse P str) as [j|e].
  - eapply post_mono; [apply materialise_spec|]. by intros o s' [? ?].
  - split; [apply allocates_refl | done].
Qed.

Lemma parseRequestHeaders_spec rh s :
  post (parseRequestHeaders P rh) s (fun o s' => allocates s s').
Proof.
  unfold parseRequestHeaders. apply post_bind. eapply post_eq; [apply alloc_spec|].
  set (s1 := mkState _ _).
  assert (H01 : allocates s s1) by (split; [done | by eexists]).
  destruct (truthy rh); [|by apply post_ret].
  apply post_try_catch.
  destruct rh; try (by apply post_ret).
  eapply post_mono; [apply parse_and_materialise_spec|].
  intros [v|e] s' [Ha _]; [by eapply allocates_trans|].
  apply post_throw. by eapply allocates_trans.
Qed.

Lemma parseRequestHeaders_ref l s :
  parseRequestHeaders P (VRef l) s
  = (Return (VRef l), mkState (st_heap s ++ [Obj Plain [] ∅]) (st_log s)).
Proof. reflexivity. Qed.

Lemma prepareBody_state rb s : post (prepareBody P rb) s (fun _ s' => s' = s).
Proof.
  unfold prepareBody, post, bind, get_heap, lift, ret.
  destruct (truthy rb && String.eqb (typeof rb) "object"); [|done].
  by destruct (JSON_stringify P _ _).
Qed.

Lemma parseAcceptedStatusCodes_spec codes s :
  post (parseAcceptedStatusCodes P codes) s (fun o s' => allocates s s').
Proof.
  unfold parseAcceptedStatusCodes. apply post_bind. eapply post_eq; [apply alloc_spec|].
  set (s1 := mkState _ _).
  assert (H01 : allocates s s1) by (split; [done | by eexists]).
  destruct (truthy codes); [|by apply post_ret].
  apply post_bind. unfold post at 1, get_heap. simpl.
  destruct (isArray _ codes); [by apply post_ret|].
  destruct codes; try (by apply post_ret).
  apply post_try_catch.
  eapply post_mono; [apply parse_and_materialise_spec|].
  intros [v|e] s' [Ha _]; [by eapply allocates_trans|].
  apply post_throw. by eapply allocates_trans.
Qed.

(** A truthy value that is neither a string nor an array is dropped. *)
Lemma parseAcceptedStatusCodes_ignored codes s :
  truthy codes = true -> typeof codes <> "string" ->
  (forall l, codes = VRef l ->
     exists o, st_heap s !! l = Some o /\ o_class o = Plain) ->
  parseAcceptedStatusCodes P codes s
  = (Return (VRef (length (st_heap s))),
     mkState (st_heap s ++ [Obj Array [] ∅]) (st_log s)).
Proof.
  intros Ht Hty Hl. unfold parseAcceptedStatusCodes, new_array, bind.
  rewrite alloc_spec, Ht.
  unfold get_heap. cbn [st_heap st_log].
  assert (Ha : isArray (st_heap s ++ [Obj Array [] ∅]) codes = false).
  { destruct codes as [| | | | |l]; try done. simpl.
    destruct (Hl l eq_refl) as ([c es ps] & Ho & Hc). simpl in Hc. subst c.
    by rewrite (lookup_app_l_Some _ _ _ _ Ho). }
  rewrite Ha. by destruct codes.
Qed.

End Steps.

Section ArrayCodes.
Context (P : Platform).

(** The executor when the accepted codes are an array on the heap. *)
Lemma makeWebhookRequest_array method url headers body l elems ps s :
  st_heap s !! l = Some (Obj Array elems ps) ->
  post (makeWebhookRequest P method url headers body (VRef l)) s (fun o s' =>
    (st_log s' = st_log s /\ exists f, o = Throw (TypeError P f)) \/
    exists req, st_log s' = st_log s ++ [req] /\
      match fetch_oracle P (st_log s) req with
      | Throw e => o = Throw e
      | Return resp =>
          o = Return (mkResult (status resp) (text_or_empty resp)
                (VBool (is_2xx (status resp) || bool_decide (VNum (status resp) ∈ elems)))
                None)
      end).
Proof.
  intros Hl. eapply post_mono; [apply makeWebhookRequest_spec|].
  intros o s' (t & hv & codes' & Ht & _ & _ & Hc & Hheap & Hout).
  rewrite (Hc ltac:(done)) in Hout. clear Hc codes'.
  destruct Hout as [(Hlog & _ & Hf) | [Hlog Ho]]; [by left|].
  right. eexists. split; [exact Hlog|].
  assert (Harr : exists o', st_heap s' !! l = Some o' /\
            o_class o' = Array /\ o_elems o' = elems).
  { pose proof (lookup_app_l_Some _ t _ _ Hl) as Hl'.
    destruct Hheap as [-> | (l' & _ & _ & ->)]; [by eexists|].
    by apply (lookup_alter_class _ (set_own _ _) _ _ _ ltac:(done) Hl'). }
  destruct Harr as ([c es ps'] & Hl' & Hc & He). simpl in Hc, He. subst c es.
  rewrite Ho. destruct (fetch_oracle P _ _) as [resp|e]; [|done].
  simpl. by rewrite (classify_array _ _ _ _ _ _ Hl').
Qed.

Lemma stamp_spec (r : WebhookResult) s :
  stamp P r s =
    (Return (mkAction "success"
       (Some (mkResult (statusCode r) (body r) (success r)
                (Some (Date_toISOString P (st_log s)))))), s).
Proof. reflexivity. Qed.

End ArrayCodes.


Create HintDb steady.

Section Steady.
Context (P : Platform).

Lemma steady_ret {A} (a : A) : steady (ret a).
Proof. intros s. apply grows_refl. Qed.

Lemma steady_throw {A} e : steady (@throw A e).
Proof. intros s. apply grows_refl. Qed.

Lemma steady_lift {A} (o : outcome A) : steady (lift o).
Proof. intros s. apply grows_refl. Qed.

Lemma steady_get_heap : steady get_heap.
Proof. intros s. apply grows_refl. Qed.

Lemma steady_bind {A B} (m : M A) (k : A -> M B) :
  steady m -> (forall a, steady (k a)) -> steady (bind m k).
Proof.
  intros Hm Hk s. eapply post_bind_with; [apply Hm | | intros e s1 H; exact H].
  intros a s1 H1. eapply post_mono; [apply Hk|].
  intros o s2 H2. exact (grows_trans _ _ _ H1 H2).
Qed.

Lemma steady_try_catch {A} (m : M A) h :
  steady m -> (forall e, steady (h e)) -> steady (try_catch m h).
Proof.
  intros Hm Hh s. apply post_try_catch. eapply post_mono; [apply Hm|].
  intros [a|e] s1 H1; [done|]. eapply post_mono; [apply Hh|].
  intros o s2 H2. exact (grows_trans _ _ _ H1 H2).
Qed.

Lemma steady_alloc ob : steady (alloc ob).
Proof. intros s. apply grows_app. Qed.

Lemma steady_materialise j : steady (materialise j).
Proof.
  intros s. eapply post_mono; [apply materialise_spec|].
  intros o s' [_ H]. by apply allocates_grows.
Qed.

Lemma steady_get_prop v k : steady (get_prop P v k).
Proof. intros s. destruct v; apply grows_refl. Qed.

Lemma steady_set_prop v k x : steady (set_prop P v k x).
Proof. intros s. destruct v; try apply grows_refl. apply grows_alter. Qed.

Lemma steady_fetch url m hv ob : steady (fetch P url m hv ob).
Proof. intros s. apply grows_refl. Qed.

End Steady.

#[global] Hint Resolve steady_ret steady_throw steady_lift steady_get_heap
  steady_alloc steady_materialise steady_get_prop steady_set_prop steady_fetch
  : steady.

Ltac steady :=
  repeat first
    [ progress auto with steady
    | apply steady_bind; [|intros ?]
    | apply steady_try_catch; [|intros ?]
    | match goal with
      | |- steady (if ?c then _ else _) => destruct c
      | |- steady (match ?x with _ => _ end) => destruct x
      end ].

Section BundleSteady.
Context (P : Platform).

Lemma steady_getClientCredentialsToken config :
  steady (Bundle.getClientCredentialsToken P config).
Proof. unfold Bundle.getClientCredentialsToken. steady. Qed.

Lemma steady_getAuthorizationHeader ctx :
  steady (Bundle.getAuthorizationHeader P ctx).
Proof.
  unfold Bundle.getAuthorizationHeader. steady.
  all: apply steady_getClientCredentialsToken.
Qed.

Lemma steady_bundle_addAuthentication ctx hv :
  steady (Bundle.addAuthentication P ctx hv).
Proof.
  unfold Bundle.addAuthentication. steady.
  all: apply steady_getAuthorizationHeader.
Qed.

Lemma steady_legacy_addAuthentication ctx hv :
  steady (Legacy.addAuthentication P ctx hv).
Proof. unfold Legacy.addAuthentication. steady. Qed.

Lemma steady_parseRequestHeaders rh : steady (parseRequestHeaders P rh).
Proof. unfold parseRequestHeaders, new_object. steady. Qed.

End BundleSteady.

Section Given.
Context (P : Platform).

Lemma props_of_app_valid (h t : list object) l :
  is_Some (h !! l) -> props_of (h ++ t) (VRef l) = props_of h (VRef l).
Proof. intros [o Ho]. simpl. by rewrite (lookup_app_l_Some _ _ _ _ Ho), Ho. Qed.

Lemma is_Some_alter (h : list object) f l l' :
  is_Some (h !! l) -> is_Some (alter f l' h !! l).
Proof.
  intros [o Ho]. destruct (decide (l' = l)) as [->|Hne].
  - rewrite list_lookup_alter_eq, Ho. by eexists.
  - rewrite list_lookup_alter_ne by done. by eexists.
Qed.

Lemma given_alter_ne (h : list object) k k' x l l' :
  k <> k' ->
  given (alter (set_own k' x) l' h) (VRef l) k = given h (VRef l) k.
Proof.
  intros Hne. unfold given. simpl. destruct (decide (l' = l)) as [->|Hl].
  - rewrite list_lookup_alter_eq. destruct (h !! l) as [o|]; [|done]. simpl.
    by rewrite lookup_insert_ne.
  - by rewrite list_lookup_alter_ne.
Qed.

Lemma given_alter_eq (h : list object) k x l :
  is_Some (h !! l) -> truthy x = true ->
  given (alter (set_own k x) l h) (VRef l) k = true.
Proof.
  intros [o Ho] Hx. unfold given. simpl.
  rewrite list_lookup_alter_eq, Ho. simpl. by rewrite lookup_insert_eq.
Qed.

Lemma get_prop_ref l k s :
  get_prop P (VRef l) k s
  = (Return (default VUndefined (props_of (st_heap s) (VRef l) !! k)), s).
Proof. reflexivity. Qed.

Lemma set_prop_ref l k x s :
  set_prop P (VRef l) k x s
  = (Return tt, mkState (alter (set_own k x) l (st_heap s)) (st_log s)).
Proof. reflexivity. Qed.

(** A block that sets [k] unless [k] or [k'] is given. *)
Lemma set_unless_given l k k' x s :
  is_Some (st_heap s !! l) -> truthy x = true ->
  post (a <- get_prop P (VRef l) k ;;
        if truthy a then ret tt else
          a' <- get_prop P (VRef l) k' ;;
          if truthy a' then ret tt else set_prop P (VRef l) k x) s
    (fun o s' =>
      o = Return tt /\ is_Some (st_heap s' !! l) /\
      (given (st_heap s') (VRef l) k || given (st_heap s') (VRef l) k') = true).
Proof.
  intros Hl Hx. apply post_bind. eapply post_eq; [apply get_prop_ref|].
  cbv beta iota.
  destruct (truthy (default VUndefined (props_of (st_heap s) (VRef l) !! k))) eqn:E1.
  { apply post_ret. unfold given. by rewrite E1. }
  apply post_bind. eapply post_eq; [apply get_prop_ref|]. cbv beta iota.
  destruct (truthy (default VUndefined (props_of (st_heap s) (VRef l) !! k'))) eqn:E2.
  { apply post_ret. unfold given. by rewrite E1, E2. }
  eapply post_eq; [apply set_prop_ref|]. cbn [st_heap].
  split; [done|]. split; [by apply is_Some_alter|].
  by rewrite given_alter_eq.
Qed.

(** After the User-Agent block the mapping gives a User-Agent. *)
Lemma addUserAgent_spec l s :
  is_Some (st_heap s !! l) ->
  post (Bundle.addUserAgent P (VRef l)) s (fun o s' =>
    o = Return tt /\ is_Some (st_heap s' !! l) /\
    (given (st_heap s') (VRef l) "User-Agent"
     || given (st_heap s') (VRef l) "user-agent") = true).
Proof. intros Hl. by apply set_unless_given. Qed.

(** With a bearer token in the secrets, after the authentication block of
    the original action the mapping gives an Authorization. *)
Lemma legacy_addAuthentication_given ctx token l s :
  field (secrets ctx) "BEARER_AUTH_TOKEN" = Some token ->
  is_Some (st_heap s !! l) ->
  post (Legacy.addAuthentication P ctx (VRef l)) s (fun o s' =>
    o = Return tt /\ is_Some (st_heap s' !! l) /\
    (given (st_heap s') (VRef l) "Authorization"
     || given (st_heap s') (VRef l) "authorization") = true).
Proof.
  intros Htok Hl. unfold Legacy.addAuthentication. rewrite Htok.
  by apply set_unless_given.
Qed.

End Given.

Section Shared.
Context (P : Platform).

Lemma grows_is_Some h h' l : grows h h' -> is_Some (h !! l) -> is_Some (h' !! l).
Proof. intros Hg [o Ho]. destruct (Hg l o Ho) as (o' & Ho' & _). by eexists. Qed.

Lemma is_Some_app (h t : list object) l :
  is_Some (h !! l) -> is_Some ((h ++ t) !! l).
Proof. intros [o Ho]. exists o. by apply lookup_app_l_Some. Qed.

Lemma given_app_valid (h t : list object) l k :
  is_Some (h !! l) -> given (h ++ t) (VRef l) k = given h (VRef l) k.
Proof. intros Hl. unfold given. by rewrite props_of_app_valid. Qed.

(** The executor on a headers object: the request carries the object's
    properties as they are when the executor is done, and only
    Content-Type may have been written. *)
Lemma makeWebhookRequest_headers method url l body codes s :
  post (makeWebhookRequest P method url (VRef l) body codes) s (fun o s' =>
    (forall res, o = Return res ->
       exists req, st_log s' = st_log s ++ [req] /\
         req_headers req = props_of (st_heap s') (VRef l)) /\
    (is_Some (st_heap s !! l) ->
       is_Some (st_heap s' !! l) /\
       forall k, k <> "Content-Type" ->
         given (st_heap s') (VRef l) k = given (st_heap s) (VRef l) k)).
Proof.
  eapply post_mono; [apply makeWebhookRequest_spec|].
  intros o s' (t & hv & codes' & Ht & Hh & _ & _ & Hheap & Hout).
  rewrite (Hh eq_refl) in *. clear Hh hv. split.
  - intros res ->. destruct Hout as [(_ & _ & f & [=]) | [Hlog _]].
    by eexists.
  - intros Hl. destruct Hheap as [-> | (l' & _ & _ & ->)].
    + split; [by apply is_Some_app|].
      intros k _. by apply given_app_valid.
    + split; [apply is_Some_alter; by apply is_Some_app|].
      intros k Hk. rewrite given_alter_ne by done. by apply given_app_valid.
Qed.

Lemma allocates_given s s' l k :
  allocates s s' -> is_Some (st_heap s !! l) ->
  is_Some (st_heap s' !! l) /\
  given (st_heap s') (VRef l) k = given (st_heap s) (VRef l) k.
Proof.
  intros [_ [t ->]] Hl. split; [by apply is_Some_app|].
  by apply given_app_valid.
Qed.

End Shared.

Section AuthStep.
Context (P : Platform).


Lemma addAuthentication_unfold ctx l s :
  Bundle.addAuthentication P ctx (VRef l) s =
    if given (st_heap s) (VRef l) "Authorization"
       || given (st_heap s) (VRef l) "authorization"
    then (Return tt, s)
    else
      match Bundle.getAuthorizationHeader P ctx s with
      | (Return a, s1) =>
          (Return tt,
           mkState (alter (set_own "Authorization" (VStr a)) l (st_heap s1)) (st_log s1))
      | (Throw e, s1) =>
          if Str.includes (message e) no_auth then (Return tt, s1) else (Throw e, s1)
      end.
Proof.
  unfold Bundle.addAuthentication. unfold bind at 1. rewrite get_prop_ref.
  unfold given at 1.
  destruct (truthy (default VUndefined (props_of (st_heap s) (VRef l) !! "Authorization")));
    [done|].
  unfold bind at 1. rewrite get_prop_ref. unfold given at 1.
  destruct (truthy (default VUndefined (props_of (st_heap s) (VRef l) !! "authorization")));
    [done|].
  cbn [orb]. unfold try_catch, bind.
  destruct (Bundle.getAuthorizationHeader P ctx s) as [[a|e] s1]; [done|].
  fold no_auth. by destruct (Str.includes (message e) no_auth).
Qed.

End AuthStep.


(** ** What an invocation sends *)

Create HintDb sends.

Section Sends.
Context (P : Platform) (R : request -> Prop).

Lemma sent_between_refl s : sent_between R s s.
Proof. exists []. by rewrite app_nil_r. Qed.

Lemma sent_between_trans s1 s2 s3 :
  sent_between R s1 s2 -> sent_between R s2 s3 -> sent_between R s1 s3.
Proof.
  intros (l1 & E1 & H1) (l2 & E2 & H2). exists (l1 ++ l2).
  split; [by rewrite E2, E1, app_assoc | by apply Forall_app].
Qed.

Lemma sent_between_same_log s s' : st_log s' = st_log s -> sent_between R s s'.
Proof. intros E. exists []. by rewrite app_nil_r. Qed.

Lemma sends_ret {A} (a : A) : sends R (ret a).
Proof. intros s. apply sent_between_refl. Qed.

Lemma sends_throw {A} e : sends R (@throw A e).
Proof. intros s. apply sent_between_refl. Qed.

Lemma sends_lift {A} (o : outcome A) : sends R (lift o).
Proof. intros s. apply sent_between_refl. Qed.

Lemma sends_get_heap : sends R get_heap.
Proof. intros s. apply sent_between_refl. Qed.

Lemma sends_get_log : sends R get_log.
Proof. intros s. apply sent_between_refl. Qed.

Lemma sends_bind {A B} (m : M A) (k : A -> M B) :
  sends R m -> (forall a, sends R (k a)) -> sends R (bind m k).
Proof.
  intros Hm Hk s. eapply post_bind_with; [apply Hm | | intros e s1 H; exact H].
  intros a s1 H1. eapply post_mono; [apply Hk|].
  intros o s2 H2. exact (sent_between_trans _ _ _ H1 H2).
Qed.

Lemma sends_try_catch {A} (m : M A) h :
  sends R m -> (forall e, sends R (h e)) -> sends R (try_catch m h).
Proof.
  intros Hm Hh s. apply post_try_catch. eapply post_mono; [apply Hm|].
  intros [a|e] s1 H1; [done|]. eapply post_mono; [apply Hh|].
  intros o s2 H2. exact (sent_between_trans _ _ _ H1 H2).
Qed.

Lemma sends_alloc ob : sends R (alloc ob).
Proof. intros s. by apply sent_between_same_log. Qed.

Lemma sends_materialise j : sends R (materialise j).
Proof.
  intros s. eapply post_mono; [apply materialise_spec|].
  intros o s' [_ [H _]]. by apply sent_between_same_log.
Qed.

Lemma sends_get_prop v k : sends R (get_prop P v k).
Proof. intros s. destruct v; apply sent_between_refl. Qed.

Lemma sends_set_prop v k x : sends R (set_prop P v k x).
Proof. intros s. destruct v; by apply sent_between_same_log. Qed.

Lemma sends_fetch url m hv ob :
  (forall hs, R (mkRequest url m hs ob)) -> sends R (fetch P url m hv ob).
Proof.
  intros HR s. unfold post, fetch. simpl. eexists. split; [done|].
  constructor; [apply HR | constructor].
Qed.

End Sends.

#[global] Hint Resolve sends_ret sends_throw sends_lift sends_get_heap
  sends_get_log sends_alloc sends_materialise sends_get_prop sends_set_prop
  : sends.

Ltac sends :=
  repeat first
    [ progress auto with sends
    | apply sends_bind; [|intros ?]
    | apply sends_try_catch; [|intros ?]
    | match goal with
      | |- sends _ (if ?c then _ else _) => destruct c
      | |- sends _ (match ?x with _ => _ end) => destruct x
      end ].

Section BodyRule.
Context (P : Platform).

Lemma body_rule_post hs ob url : body_rule (mkRequest url "POST" hs (Some ob)).
Proof.
  split; simpl; [intros _; by left|].
  intros [E|[E|[E|[]]]]; discriminate.
Qed.

Lemma body_rule_sent method url h hv body :
  body_rule (sent method url h hv body).
Proof.
  unfold sent, body_rule. simpl.
  destruct (attaches method body) eqn:Hatt.
  - apply attaches_spec in Hatt as [Hin _]. split; [done|].
    intros Hget. exfalso. revert Hin Hget. generalize (Str.toUpperCase method).
    intros m. simpl. intros [<-|[<-|[<-|[<-|[]]]]] [E|[E|[E|[]]]]; discriminate.
  - split; [|done]. by intros [? [=]].
Qed.

Lemma sends_makeWebhookRequest method url headers body codes :
  sends body_rule (makeWebhookRequest P method url headers body codes).
Proof.
  intros s. eapply post_mono; [apply makeWebhookRequest_spec|].
  intros o s' (t & hv & codes' & _ & _ & _ & _ & _ & Hout).
  destruct Hout as [(Hlog & _) | [Hlog _]].
  - by apply sent_between_same_log.
  - eexists. split; [exact Hlog|].
    constructor; [apply body_rule_sent | constructor].
Qed.

Lemma sends_getClientCredentialsToken config :
  sends body_rule (Bundle.getClientCredentialsToken P config).
Proof.
  unfold Bundle.getClientCredentialsToken. sends.
  all: apply sends_fetch; intros hs; apply body_rule_post.
Qed.

End BodyRule.

#[global] Hint Resolve sends_makeWebhookRequest sends_getClientCredentialsToken
  : sends.

Section Invocations.
Context (P : Platform).

Lemma sends_getAuthorizationHeader ctx :
  sends body_rule (Bundle.getAuthorizationHeader P ctx).
Proof. unfold Bundle.getAuthorizationHeader. sends. Qed.

Lemma sends_legacy_invoke params ctx :
  sends body_rule (Legacy.invoke P params ctx).
Proof.
  unfold Legacy.invoke, Legacy.addAuthentication, parseRequestHeaders,
    prepareBody, parseAcceptedStatusCodes, stamp, new_object, new_array.
  sends.
Qed.

Lemma sends_bundle_addAuthentication ctx hv :
  sends body_rule (Bundle.addAuthentication P ctx hv).
Proof.
  unfold Bundle.addAuthentication. sends.
  all: apply sends_getAuthorizationHeader.
Qed.

Lemma sends_bundle_invoke params ctx :
  sends body_rule (Bundle.invoke P params ctx).
Proof.
  unfold Bundle.invoke, Bundle.addUserAgent, parseRequestHeaders,
    prepareBody, parseAcceptedStatusCodes, stamp, new_object, new_array.
  pose proof sends_bundle_addAuthentication.
  sends.
Qed.

Lemma sends_templated_invoke resolve params ctx :
  sends body_rule (Templated.invoke P resolve params ctx).
Proof.
  unfold Templated.invoke, parseRequestHeaders,
    prepareBody, parseAcceptedStatusCodes, stamp, new_object, new_array.
  cbv zeta. pose proof sends_bundle_addAuthentication.
  sends.
Qed.

End Invocations.

(** * The specified behaviour *)

(** ** C1: the success flag *)

(** C1: when the accepted status codes are an array, the executor sends one
    request and, whatever status the response has, returns (it does not
    throw on a status) with a boolean success flag that is true exactly when
    200 <= status < 300 or the status is an element of the array; it fails
    only when [fetch] itself fails, or, before anything is sent, when the
    headers it was given cannot take a Content-Type. *)
Theorem success_flag P method url headers body l elems ps s :
  st_heap s !! l = Some (Obj Array elems ps) ->
  let '(o, s') := makeWebhookRequest P method url headers body (VRef l) s in
  (st_log s' = st_log s /\ exists f, o = Throw (TypeError P f)) \/
  exists req, st_log s' = st_log s ++ [req] /\
    match fetch_oracle P (st_log s) req with
    | Throw e => o = Throw e
    | Return resp =>
        exists text,
          o = Return (mkResult (status resp) text
                (VBool (bool_decide
                   (200 <= status resp < 300 \/ VNum (status resp) ∈ elems)))
                None)
    end.
Proof.
  intros Hl.
  pose proof (makeWebhookRequest_array P method url headers body l elems ps s Hl) as H.
  unfold post in H.
  destruct (makeWebhookRequest _ _ _ _ _ _ _) as [o s']. simpl in H.
  destruct H as [H | (req & Hlog & H)]; [by left|].
  right. exists req. split; [done|].
  destruct (fetch_oracle P _ req) as [resp|e]; [|done].
  eexists. rewrite H. do 3 f_equal.
  apply eq_true_iff_eq.
  rewrite orb_true_iff, !bool_decide_eq_true, is_2xx_spec. done.
Qed.

Lemma success_flag_witness :
  let P := Sample.platform (Sample.replies 404 "Not Found") in
  let s := mkState [Obj Array [VNum 404; VNum 410] ∅] [] in
  st_heap s !! 0%nat = Some (Obj Array [VNum 404; VNum 410] ∅) /\
  let '(o, s') :=
    makeWebhookRequest P "GET" "https://api.example.com/user/999"
      VUndefined VUndefined (VRef 0) s in
  (st_log s' = st_log s /\ exists f, o = Throw (TypeError P f)) \/
  exists req, st_log s' = st_log s ++ [req] /\
    match fetch_oracle P (st_log s) req with
    | Throw e => o = Throw e
    | Return resp =>
        exists text,
          o = Return (mkResult (status resp) text
                (VBool (bool_decide
                   (200 <= status resp < 300
                    \/ VNum (status resp) ∈ [VNum 404; VNum 410])))
                None)
    end.
Proof.
  intros P s. split; [reflexivity|].
  apply (success_flag P "GET" "https://api.example.com/user/999"
           VUndefined VUndefined 0%nat [VNum 404; VNum 410] ∅ s).
  reflexivity.
Defined.

Example accepted_404 :
  (run (makeWebhookRequest (Sample.platform (Sample.replies 404 "Not Found"))
          "GET" "https://api.example.com/user/999" VUndefined VUndefined (VRef 0))
       [Obj Array [VNum 404; VNum 410] ∅]).1
  = Return (mkResult 404 "Not Found" (VBool true) None).
Proof. vm_compute. reflexivity. Qed.

Example refused_500 :
  (run (makeWebhookRequest (Sample.platform (Sample.replies 500 "Oops"))
          "GET" "https://api.example.com/user/999" VUndefined VUndefined (VRef 0))
       [Obj Array [VNum 404; VNum 410] ∅]).1
  = Return (mkResult 500 "Oops" (VBool false) None).
Proof. vm_compute. reflexivity. Qed.

(** Outside the claim: accepted codes that are not a sequence.  The string
    "404" parses to a number, a number has no [includes], and the executor
    throws once the status is not a 2xx. *)
Example codes_not_a_sequence :
  (run (Legacy.invoke (Sample.platform (Sample.replies 500 "Oops"))
          (mkParams (Some "GET") (Some "https://api.example.com") None
             VUndefined VUndefined (VStr "404"))
          Sample.no_context) []).1
  = Throw (mkExn "TypeError" "includes is not a function").
Proof. vm_compute. reflexivity. Qed.

(** ** C4: which requests carry a body *)

(** C4: for every method and every body, the executor sends at most one
    request; its method is the uppercased method, it carries a body only
    when that method is POST, PUT, PATCH or DELETE, and for GET, HEAD and
    OPTIONS it carries none, whatever body was supplied.  Every request an
    invocation sends, in each of the three versions and the token request
    included, obeys the same rule. *)
Theorem body_only_for_body_methods P method url headers body codes s :
  (let '(_, s') := makeWebhookRequest P method url headers body codes s in
   st_log s' = st_log s \/
   exists req, st_log s' = st_log s ++ [req] /\
     req_method req = Str.toUpperCase method /\
     (is_Some (req_body req) -> In (req_method req) methodsWithBody) /\
     (In (req_method req) ["GET"; "HEAD"; "OPTIONS"] -> req_body req = None)) /\
  (forall params ctx resolve,
     sends body_rule (Legacy.invoke P params ctx) /\
     sends body_rule (Bundle.invoke P params ctx) /\
     sends body_rule (Templated.invoke P resolve params ctx)).
Proof.
  split.
  - pose proof (makeWebhookRequest_spec P method url headers body codes s) as H.
    unfold post in H.
    destruct (makeWebhookRequest _ _ _ _ _ _ _) as [o s']. simpl in H.
    destruct H as (t & hv & codes' & _ & _ & _ & _ & _ & Hout).
    destruct Hout as [(Hlog & _) | [Hlog _]]; [by left|].
    right. eexists. split; [exact Hlog|].
    split; [done | apply body_rule_sent].
  - intros params ctx resolve. split; [|split].
    + apply sends_legacy_invoke.
    + apply sends_bundle_invoke.
    + apply sends_templated_invoke.
Qed.

Example get_drops_body :
  st_log (run (makeWebhookRequest (Sample.platform (Sample.replies 200 "OK"))
                 "get" "https://api.example.com" VUndefined
                 (VStr "{}") VUndefined) []).2
  = [mkRequest "https://api.example.com" "GET" ∅ None].
Proof. vm_compute. reflexivity. Qed.

Example post_keeps_body :
  st_log (run (makeWebhookRequest (Sample.platform (Sample.replies 200 "OK"))
                 "post" "https://api.example.com" VUndefined
                 (VStr "{}") VUndefined) []).2
  = [mkRequest "https://api.example.com" "POST"
       {["Content-Type" := VStr "application/json"]} (Some (VStr "{}"))].
Proof. vm_compute. reflexivity. Qed.

Example invoke_get_drops_body :
  st_log (run (Legacy.invoke (Sample.platform (Sample.replies 200 "OK"))
                 (mkParams (Some "GET") (Some "https://api.example.com") None
                    (VStr "{}") VUndefined VUndefined)
                 Sample.no_context) []).2
  = [mkRequest "https://api.example.com" "GET" ∅ None].
Proof. vm_compute. reflexivity. Qed.

(** ** C9: an empty body *)

(** C9: for a body-bearing method and the empty string as request body
    (which [invoke] hands to the executor as it is), the executor sends one
    request without a body, whose headers are the ones it was given (no
    Content-Type is added), and writes into no object of the heap. *)
Theorem empty_body_not_attached P method url headers codes s :
  In (Str.toUpperCase method) methodsWithBody ->
  prepareBody P (VStr "") s = (Return (VStr ""), s) /\
  let '(_, s') := makeWebhookRequest P method url headers (VStr "") codes s in
  exists req t,
    st_log s' = st_log s ++ [req] /\
    req_body req = None /\
    req_headers req = props_of (st_heap s) headers /\
    st_heap s' = st_heap s ++ t.
Proof.
  intros _. split; [reflexivity|].
  pose proof (makeWebhookRequest_spec P method url headers (VStr "") codes s) as H.
  unfold post in H.
  destruct (makeWebhookRequest _ _ _ _ _ _ _) as [o s']. simpl in H.
  destruct H as (t & hv & codes' & Ht & Hh1 & Hh2 & _ & Hheap & Hout).
  assert (Hatt : attaches method (VStr "") = false).
  { unfold attaches. simpl. apply andb_false_r. }
  rewrite Hatt in *.
  destruct Hheap as [Hheap | (? & _ & [=] & _)].
  destruct Hout as [(_ & [=] & _) | [Hlog _]].
  eexists _, t. split; [exact Hlog|]. unfold sent. rewrite Hatt. simpl.
  split; [done|]. split; [|done].
  rewrite Hheap, props_of_app_blank by done.
  destruct (truthy headers) eqn:E.
  - by rewrite Hh1.
  - destruct (Hh2 eq_refl) as (l & -> & Hl).
    simpl. rewrite (proj2 (lookup_ge_None _ _) Hl). by destruct headers.
Qed.

Lemma empty_body_not_attached_witness :
  let P := Sample.platform (Sample.replies 200 "OK") in
  let s := mkState [Obj Plain [] {["X-API-Key" := VStr "key123"]}] [] in
  In (Str.toUpperCase "post") methodsWithBody /\
  let '(_, s') :=
    makeWebhookRequest P "post" "https://api.example.com" (VRef 0) (VStr "")
      VUndefined s in
  exists req t,
    st_log s' = st_log s ++ [req] /\
    req_body req = None /\
    req_headers req = props_of (st_heap s) (VRef 0) /\
    st_heap s' = st_heap s ++ t.
Proof.
  intros P s.
  assert (Hin : In (Str.toUpperCase "post") methodsWithBody)
    by (vm_compute; left; reflexivity).
  split; [exact Hin|].
  exact (proj2 (empty_body_not_attached P "post" "https://api.example.com"
                  (VRef 0) VUndefined s Hin)).
Defined.

Example invoke_post_empty_body :
  st_log (run (Bundle.invoke (Sample.platform (Sample.replies 200 "OK"))
                 (mkParams (Some "POST") (Some "https://api.example.com") None
                    (VStr "") VUndefined VUndefined)
                 Sample.no_context) []).2
  = [mkRequest "https://api.example.com" "POST"
       {["User-Agent" := VStr "SGNL-CAEP-Hub/2.0"]} None].
Proof. vm_compute. reflexivity. Qed.

(** ** C10: accepted status codes that are neither an array nor a string *)

(** The authorization step of the original action sends nothing and leaves
    the objects in place. *)
Lemma legacy_addAuthentication_state P ctx hv s :
  post (Legacy.addAuthentication P ctx hv) s (fun _ s' =>
    grows (st_heap s) (st_heap s') /\ st_log s' = st_log s).
Proof.
  pose proof (steady_legacy_addAuthentication P ctx hv s) as Hg.
  assert (Hs : sends (fun _ => False) (Legacy.addAuthentication P ctx hv))
    by (unfold Legacy.addAuthentication; sends).
  specialize (Hs s). unfold post in *. split; [done|].
  destruct Hs as (l & E & Hl). destruct l as [|r l]; [|by inversion Hl].
  by rewrite app_nil_r in E.
Qed.

(** C10: when [acceptedStatusCodes] is truthy and is neither a string nor an
    array (a number, [true], an ordinary object), the normaliser does not
    fail and returns a fresh empty array; the original action then runs
    exactly as it does without the parameter; and whenever it gets as far
    as the request, it sends that one request (to the composed URL, the
    method in upper case) and, for the response [fetch] gives to it, returns
    the stamped result with that response's status and text, and with
    success true exactly when 200 <= status < 300: no other status counts
    as a success, and none makes the invocation fail. *)
Theorem unusable_status_codes_ignored P params ctx s :
  let codes := acceptedStatusCodes params in
  truthy codes = true -> typeof codes <> "string" ->
  (forall l, codes = VRef l -> exists es ps, st_heap s !! l = Some (Obj Plain es ps)) ->
  parseAcceptedStatusCodes P codes s
    = (Return (VRef (length (st_heap s))),
       mkState (st_heap s ++ [Obj Array [] ∅]) (st_log s)) /\
  Legacy.invoke P params ctx s = Legacy.invoke P (without_codes params) ctx s /\
  post (Legacy.invoke P params ctx) s (fun o s' =>
    (st_log s' = st_log s /\ exists e, o = Throw e) \/
    exists m url req,
      truthy_str (method params) = Some m /\
      Legacy.resolveURL params ctx = Return url /\
      st_log s' = st_log s ++ [req] /\
      req_url req = url /\ req_method req = Str.toUpperCase m /\
      match fetch_oracle P (st_log s) req with
      | Throw e => o = Throw e
      | Return resp =>
          o = Return (stamped P (st_log s')
                        (mkResult (status resp) (text_or_empty resp)
                           (VBool (bool_decide (200 <= status resp < 300)))
                           None))
      end).
Proof.
  intros codes Ht Hty Hl.
  assert (Hplain : forall s1, grows (st_heap s) (st_heap s1) ->
    forall l, codes = VRef l -> exists o, st_heap s1 !! l = Some o /\ o_class o = Plain).
  { intros s1 Hg l E. destruct (Hl l E) as (es & ps & Ho).
    destruct (Hg l _ Ho) as (o' & Ho' & Hc & _). by exists o'. }
  split; [|split].
  - apply parseAcceptedStatusCodes_ignored; try done.
    intros l E. apply (Hplain s (grows_refl _) l E).
  - unfold Legacy.invoke. simpl. destruct (truthy_str (method params)) as [m|]; [|done].
    apply bind_ext_post, post_lift. intros url _.
    apply bind_ext_post. eapply post_mono; [apply parseRequestHeaders_spec|].
    intros o1 s1 H1 hv _. apply allocates_grows in H1.
    apply bind_ext_post. eapply post_mono; [apply steady_legacy_addAuthentication|].
    intros o2 s2 H2 [] _. pose proof (grows_trans _ _ _ H1 H2) as H02.
    apply bind_ext_post. eapply post_mono; [apply prepareBody_state|].
    intros o3 s3 -> body' _.
    unfold bind. fold codes.
    rewrite parseAcceptedStatusCodes_ignored by (try done; by apply Hplain).
    reflexivity.
  - set (Q := fun (o : outcome ActionResult) (s' : state) => _).
    assert (Hfail : forall e s1, st_log s1 = st_log s -> Q (Throw e) s1).
    { intros e s1 E. left. split; [done | by exists e]. }
    unfold Legacy.invoke.
    destruct (truthy_str (method params)) as [m|] eqn:Hm;
      [|by apply post_throw, Hfail].
    apply post_bind, post_lift.
    destruct (Legacy.resolveURL params ctx) as [url|e] eqn:Hurl; [|by apply Hfail].
    eapply post_bind_with; [apply parseRequestHeaders_spec | |].
    2:{ intros e s1 [E _]. by apply Hfail. }
    intros hv s1 H1. pose proof (allocates_grows _ _ H1) as Hg1.
    destruct H1 as [E1 _].
    eapply post_bind_with; [apply legacy_addAuthentication_state | |].
    2:{ intros e s2 [_ E2]. apply Hfail. by rewrite E2. }
    intros [] s2 [Hg2 E2]. pose proof (grows_trans _ _ _ Hg1 Hg2) as H02.
    eapply post_bind_with; [apply prepareBody_state | |].
    2:{ intros e s3 ->. apply Hfail. by rewrite E2. }
    intros body' s3 ->.
    apply post_bind. fold codes.
    eapply post_eq;
      [apply parseAcceptedStatusCodes_ignored; try done; by apply Hplain|].
    set (s4 := mkState (st_heap s2 ++ [Obj Array [] ∅]) (st_log s2)).
    assert (E4 : st_log s4 = st_log s) by (simpl; by rewrite E2).
    assert (Hl4 : st_heap s4 !! length (st_heap s2) = Some (Obj Array [] ∅))
      by (by apply list_lookup_middle).
    pose proof (makeWebhookRequest_array P m url hv body' _ [] ∅ s4 Hl4) as Ha.
    pose proof (makeWebhookRequest_spec P m url hv body'
                  (VRef (length (st_heap s2))) s4) as Hs.
    apply post_bind. unfold post in Ha, Hs |- * at 1.
    destruct (makeWebhookRequest P m url hv body' _ s4) as [o5 s5].
    cbn [fst snd] in *.
    destruct Hs as (t & hv' & codes' & _ & _ & _ & _ & _ & Hsent).
    destruct Ha as [[E5 [f ->]] | (req & E5 & Hres)].
    { apply Hfail. by rewrite E5. }
    assert (Hreq : req_url req = url /\ req_method req = Str.toUpperCase m).
    { destruct Hsent as [(E & _) | [E _]].
      - rewrite E in E5. apply (f_equal length) in E5.
        rewrite length_app in E5. simpl in E5. lia.
      - rewrite E in E5. apply app_inv_head in E5. by injection E5 as <-. }
    rewrite E4 in E5, Hres.
    assert (HQ : forall o' s', st_log s' = st_log s5 ->
      match fetch_oracle P (st_log s) req with
      | Throw e => o' = Throw e
      | Return resp =>
          o' = Return (stamped P (st_log s')
                         (mkResult (status resp) (text_or_empty resp)
                            (VBool (bool_decide (200 <= status resp < 300)))
                            None))
      end -> Q o' s').
    { intros o' s' E Ho. right. exists m, url, req.
      destruct Hreq as [Hu Hme]. rewrite <- E in E5. by repeat (split; [done|]). }
    destruct (fetch_oracle P (st_log s) req) as [resp|e] eqn:Hf.
    + subst o5. eapply post_eq; [apply stamp_spec|].
      apply HQ; [done|]. unfold stamped. cbn [statusCode body success].
      do 5 f_equal. apply eq_true_iff_eq.
      rewrite orb_true_iff, !bool_decide_eq_true, is_2xx_spec.
      split; [intros [H | H]; [done | by apply elem_of_nil in H] | by left].
    + subst o5. by apply HQ.
Qed.

Lemma unusable_status_codes_ignored_witness :
  let P := Sample.platform (Sample.replies 404 "Not Found") in
  let params :=
    mkParams (Some "GET") (Some "https://api.example.com/user/999") None
      VUndefined VUndefined (VNum 404) in
  let s := mkState [] [] in
  (truthy (VNum 404) = true /\ typeof (VNum 404) <> "string") /\
  parseAcceptedStatusCodes P (VNum 404) s
    = (Return (VRef 0), mkState [Obj Array [] ∅] []) /\
  Legacy.invoke P params Sample.no_context s
    = Legacy.invoke P (without_codes params) Sample.no_context s /\
  exists r s' req resp,
    Legacy.invoke P params Sample.no_context s = (Return r, s') /\
    st_log s' = [req] /\
    req_url req = "https://api.example.com/user/999" /\ req_method req = "GET" /\
    fetch_oracle P [] req = Return resp /\ status resp = 404 /\
    data r = Some (mkResult 404 "Not Found" (VBool false)
                     (Some (Date_toISOString P [req]))).
Proof.
  intros P params s.
  assert (H1 : truthy (acceptedStatusCodes params) = true) by reflexivity.
  assert (H2 : typeof (acceptedStatusCodes params) <> "string") by discriminate.
  assert (H3 : forall l, acceptedStatusCodes params = VRef l ->
            exists es ps, st_heap s !! l = Some (Obj Plain es ps)) by discriminate.
  split; [by split|].
  destruct (unusable_status_codes_ignored P params Sample.no_context s H1 H2 H3)
    as (Hp & Hi & Hq).
  split; [exact Hp|]. split; [exact Hi|].
  assert (E : exists r s', Legacy.invoke P params Sample.no_context s = (Return r, s'))
    by (do 2 eexists; vm_compute; reflexivity).
  destruct E as (r & s' & E).
  pose proof (post_elim _ _ _ _ _ Hq E) as [[_ [e He]] | H]; [discriminate He|].
  destruct H as (m & url & req & Hm & Hurl & Hlog & Hu & Hme & Hres).
  injection Hm as <-. injection Hurl as <-.
  destruct (fetch_oracle P (st_log s) req) as [resp|e] eqn:Hf; [|discriminate Hres].
  exists r, s', req, resp. split; [exact E|]. split; [exact Hlog|].
  split; [exact Hu|]. split; [exact Hme|]. split; [exact Hf|].
  assert (Hst : status resp = 404) by (vm_compute in Hf; by injection Hf as <-).
  split; [exact Hst|].
  injection Hres as ->. simpl.
  vm_compute in Hf. injection Hf as <-. reflexivity.
Defined.

Example number_404_is_not_accepted :
  (run (Legacy.invoke (Sample.platform (Sample.replies 404 "Not Found"))
          (mkParams (Some "GET") (Some "https://api.example.com/user/999") None
             VUndefined VUndefined (VNum 404))
          Sample.no_context) []).1
  = Return (mkAction "success"
      (Some (mkResult 404 "Not Found" (VBool false)
               (Some "2024-01-15T10:30:00.000Z")))).
Proof. vm_compute. reflexivity. Qed.

(** ** C3: precedence of the authorization mechanisms *)

(** C3: the resolver tries bearer token, basic username and password,
    pre-issued OAuth2 access token, OAuth2 client credentials, in that
    order, and the first one whose secrets are present (non-empty) decides:
    a bearer token gives its header whatever else the context holds, and
    the first three answer without sending anything; only when none of them
    applies does the client-credentials flow run, and with no secret at all
    the resolver fails with the no-authentication message. *)
Theorem authorization_precedence P ctx s :
  let sec := field (secrets ctx) in
  (forall t, sec "BEARER_AUTH_TOKEN" = Some t ->
     Bundle.getAuthorizationHeader P ctx s = (Return (Bundle.bearer t), s)) /\
  (sec "BEARER_AUTH_TOKEN" = None ->
   forall u p, sec "BASIC_USERNAME" = Some u -> sec "BASIC_PASSWORD" = Some p ->
     Bundle.getAuthorizationHeader P ctx s
     = (Return ("Basic " +:+ Base64.btoa (u +:+ ":" +:+ p)), s)) /\
  (sec "BEARER_AUTH_TOKEN" = None ->
   sec "BASIC_USERNAME" = None \/ sec "BASIC_PASSWORD" = None ->
   forall t, sec "OAUTH2_AUTHORIZATION_CODE_ACCESS_TOKEN" = Some t ->
     Bundle.getAuthorizationHeader P ctx s = (Return (Bundle.bearer t), s)) /\
  (sec "BEARER_AUTH_TOKEN" = None ->
   sec "BASIC_USERNAME" = None \/ sec "BASIC_PASSWORD" = None ->
   sec "OAUTH2_AUTHORIZATION_CODE_ACCESS_TOKEN" = None ->
   forall cs, sec "OAUTH2_CLIENT_CREDENTIALS_CLIENT_SECRET" = Some cs ->
     Bundle.getAuthorizationHeader P ctx s = client_credentials P ctx cs s) /\
  (sec "BEARER_AUTH_TOKEN" = None ->
   sec "BASIC_USERNAME" = None \/ sec "BASIC_PASSWORD" = None ->
   sec "OAUTH2_AUTHORIZATION_CODE_ACCESS_TOKEN" = None ->
   sec "OAUTH2_CLIENT_CREDENTIALS_CLIENT_SECRET" = None ->
     Bundle.getAuthorizationHeader P ctx s = (Throw (Error no_auth_message), s)).
Proof.
  intros sec. unfold Bundle.getAuthorizationHeader. fold sec.
  repeat split.
  - by intros t ->.
  - by intros -> u p -> ->.
  - intros -> Hb t ->.
    destruct Hb as [-> | ->]; [by destruct (sec "BASIC_PASSWORD") | done].
  - intros -> Hb -> cs ->. unfold client_credentials.
    destruct Hb as [-> | ->]; [by destruct (sec "BASIC_PASSWORD") | done].
  - intros -> Hb -> ->.
    destruct Hb as [-> | ->]; [by destruct (sec "BASIC_PASSWORD") | done].
Qed.

Lemma authorization_precedence_witness :
  let ctx :=
    mkContext None
      (Some (<["BASIC_USERNAME" := "user"]>
               (<["BASIC_PASSWORD" := "pass"]>
                  {["BEARER_AUTH_TOKEN" := "secret-token"]}))) in
  let s := mkState [] [] in
  field (secrets ctx) "BEARER_AUTH_TOKEN" = Some "secret-token" /\
  Bundle.getAuthorizationHeader (Sample.platform (Sample.replies 200 "OK")) ctx s
  = (Return "Bearer secret-token", s).
Proof.
  intros ctx s. split; [vm_compute; reflexivity|].
  apply (proj1 (authorization_precedence _ ctx s) "secret-token").
  vm_compute. reflexivity.
Defined.

Example basic_header :
  Bundle.getAuthorizationHeader (Sample.platform (Sample.replies 200 "OK"))
    (mkContext None
      (Some (<["BASIC_USERNAME" := "user"]> {["BASIC_PASSWORD" := "pass"]})))
    (mkState [] [])
  = (Return "Basic dXNlcjpwYXNz", mkState [] []).
Proof. vm_compute. reflexivity. Qed.

(** ** C5: the authorization step of [invoke] *)


(** The handler decides by the text of the message alone.  A failed token
    request whose answer quotes the marker is therefore let through as
    well, although the comment in the source lets only the failure for a
    context without authentication pass ("Only throw if it's an error
    other than no auth configured"). *)
Example token_failure_text_swallowed :
  let reply :=
    Return (mkResponse 401 "Unauthorized" false (Return "")
              (Throw (mkExn "SyntaxError" "Unexpected token"))
              (Return "No authentication configured")) in
  let ctx :=
    mkContext
      (Some (<["OAUTH2_CLIENT_CREDENTIALS_TOKEN_URL" := "https://idp.example.com/token"]>
               {["OAUTH2_CLIENT_CREDENTIALS_CLIENT_ID" := "client"]}))
      (Some {["OAUTH2_CLIENT_CREDENTIALS_CLIENT_SECRET" := "hush"]}) in
  let P := Sample.platform reply in
  (Bundle.getAuthorizationHeader P ctx (mkState [Obj Plain [] ∅] [])).1
  = Throw (Error "OAuth2 token request failed: 401 Unauthorized - No authentication configured") /\
  (Bundle.addAuthentication P ctx (VRef 0) (mkState [Obj Plain [] ∅] [])).1
  = Return tt.
Proof. split; vm_compute; reflexivity. Qed.



(** ** C7: headers given as a string *)

(** C7, as stated, fails on a string that is JSON but not a JSON object
    (the array is taken as the headers and the request is sent), and on the
    empty string (nothing is parsed at all). *)
Lemma header_string_not_an_object :
  let P := Sample.platform (Sample.replies 200 "OK") in
  let params str :=
    mkParams (Some "GET") (Some "https://api.example.com") None
      VUndefined (VStr str) VUndefined in
  JSON_parse P "[]" = Return (JArr []) /\
  (exists r s',
     run (Legacy.invoke P (params "[]") Sample.no_context) [] = (Return r, s') /\
     st_log s' = [mkRequest "https://api.example.com" "GET" ∅ None]) /\
  (exists e, JSON_parse P "" = Throw e) /\
  (exists r s',
     run (Legacy.invoke P (params "") Sample.no_context) [] = (Return r, s') /\
     st_log s' = [mkRequest "https://api.example.com" "GET" ∅ None]).
Proof.
  split; [reflexivity|]. split; [|split].
  - do 2 eexists. split; vm_compute; reflexivity.
  - eexists. vm_compute. reflexivity.
  - do 2 eexists. split; vm_compute; reflexivity.
Qed.

(** C7 (amended): for a non-empty string as [requestHeaders], on an
    invocation with a method and a URL, header normalisation fails exactly
    when JSON.parse throws on the string, and the invocation then fails with
    "Failed to parse requestHeaders: " followed by the parser's message;
    when the string parses, to a JSON object or to any other JSON value, the
    parsed value becomes the headers.  The empty string is taken as no
    headers. *)
Theorem header_string_parsing P params ctx s m url str :
  truthy_str (method params) = Some m ->
  Legacy.resolveURL params ctx = Return url ->
  requestHeaders params = VStr str ->
  Str.nonempty str = true ->
  let s1 := mkState (st_heap s ++ [Obj Plain [] ∅]) (st_log s) in
  match JSON_parse P str with
  | Throw e =>
      let failure := Error ("Failed to parse requestHeaders: " +:+ message e) in
      parseRequestHeaders P (VStr str) s = (Throw failure, s1) /\
      Legacy.invoke P params ctx s = (Throw failure, s1) /\
      (forall url', Bundle.resolveURL params ctx = Return url' ->
         Bundle.invoke P params ctx s = (Throw failure, s1))
  | Return j =>
      parseRequestHeaders P (VStr str) s
      = (Return (alloc_json j (st_heap s1)).1,
         mkState (alloc_json j (st_heap s1)).2 (st_log s))
  end /\
  parseRequestHeaders P (VStr "") s = (Return (VRef (length (st_heap s))), s1).
Proof.
  intros Hm Hurl Hrh Hne s1. split; [|reflexivity].
  assert (Hp : parseRequestHeaders P (VStr str) s =
    match JSON_parse P str with
    | Throw e => (Throw (Error ("Failed to parse requestHeaders: " +:+ message e)), s1)
    | Return j => (Return (alloc_json j (st_heap s1)).1,
                   mkState (alloc_json j (st_heap s1)).2 (st_log s))
    end).
  { unfold parseRequestHeaders, new_object, bind, try_catch, lift, materialise, throw.
    rewrite alloc_spec. cbn [truthy]. rewrite Hne. fold s1.
    destruct (JSON_parse P str) as [j|e]; [|done].
    cbn [st_heap st_log s1]. by destruct (alloc_json j _). }
  destruct (JSON_parse P str) as [j|e]; [done|].
  split; [done|]. split.
  - unfold Legacy.invoke. rewrite Hm. unfold bind at 1, lift. rewrite Hurl.
    unfold bind at 1. by rewrite Hrh, Hp.
  - intros url' Hurl'.
    unfold Bundle.invoke. rewrite Hm. unfold bind at 1, lift. rewrite Hurl'.
    unfold bind at 1. by rewrite Hrh, Hp.
Qed.

Lemma header_string_parsing_witness :
  let P := Sample.platform (Sample.replies 200 "OK") in
  let params :=
    mkParams (Some "GET") (Some "https://api.example.com") None
      VUndefined (VStr "not json") VUndefined in
  Legacy.invoke P params Sample.no_context (mkState [] [])
  = (Throw (Error "Failed to parse requestHeaders: Unexpected token in JSON: not json"),
     mkState [Obj Plain [] ∅] []).
Proof.
  intros P params.
  exact (proj1 (proj2 (proj1 (header_string_parsing P params Sample.no_context
                         (mkState [] []) "GET" "https://api.example.com" "not json"
                         eq_refl eq_refl eq_refl eq_refl)))).
Defined.

(** ** C8: headers given as a mapping *)

(** C8, as stated, fails: the caller's mapping is the headers object of the
    invocation, and the computed headers end up in it. *)
Lemma caller_headers_written :
  let h := [Obj Plain [] {["X-API-Key" := VStr "key123"]}] in
  let params :=
    mkParams (Some "POST") (Some "https://api.example.com/resource") None
      (VStr "{}") (VRef 0) VUndefined in
  let P := Sample.platform (Sample.replies 200 "OK") in
  let before := props_of h (VRef 0) in
  (before !! "Authorization" = None /\ before !! "Content-Type" = None /\
   before !! "User-Agent" = None) /\
  (exists r s',
     run (Bundle.invoke P params Sample.bearer_context) h = (Return r, s') /\
     let after := props_of (st_heap s') (VRef 0) in
     after !! "Authorization" = Some (VStr "Bearer secret-token") /\
     after !! "Content-Type" = Some (VStr "application/json") /\
     after !! "User-Agent" = Some (VStr "SGNL-CAEP-Hub/2.0")) /\
  (exists r s',
     run (Legacy.invoke P params Sample.bearer_context) h = (Return r, s') /\
     let after := props_of (st_heap s') (VRef 0) in
     after !! "Authorization" = Some (VStr "Bearer secret-token") /\
     after !! "Content-Type" = Some (VStr "application/json")).
Proof.
  split; [|split].
  - repeat split; vm_compute; reflexivity.
  - do 2 eexists. split; [vm_compute; reflexivity|].
    repeat split; vm_compute; reflexivity.
  - do 2 eexists. split; [vm_compute; reflexivity|].
    repeat split; vm_compute; reflexivity.
Qed.

(** C8 (amended): a mapping given as [requestHeaders] is used as it is, by
    reference: it is the headers object of the invocation, so the computed
    headers are written into it.  When the invocation returns, the caller's
    mapping holds exactly the headers the request carried; in the original
    action it gives an Authorization whenever a bearer token is configured,
    in the bundled action it gives a User-Agent. *)
Theorem structured_headers_shared P params ctx s l :
  requestHeaders params = VRef l ->
  is_Some (st_heap s !! l) ->
  parseRequestHeaders P (requestHeaders params) s
    = (Return (VRef l), mkState (st_heap s ++ [Obj Plain [] ∅]) (st_log s)) /\
  (forall r s', Legacy.invoke P params ctx s = (Return r, s') ->
     exists req, last (st_log s') = Some req /\
       props_of (st_heap s') (VRef l) = req_headers req /\
       (is_Some (field (secrets ctx) "BEARER_AUTH_TOKEN") ->
        (given (st_heap s') (VRef l) "Authorization"
         || given (st_heap s') (VRef l) "authorization") = true)) /\
  (forall r s', Bundle.invoke P params ctx s = (Return r, s') ->
     exists req, last (st_log s') = Some req /\
       props_of (st_heap s') (VRef l) = req_headers req /\
       (given (st_heap s') (VRef l) "User-Agent"
        || given (st_heap s') (VRef l) "user-agent") = true).
Proof.
  intros Hrh Hl. split; [by rewrite Hrh|]. split.
  - intros r s' E.
    refine (post_elim (Legacy.invoke P params ctx) s
      (fun o s' => forall r, o = Return r -> _) _ _ _ E r eq_refl).
    clear E r s'. unfold Legacy.invoke.
    destruct (truthy_str (method params)) as [m|]; [|done].
    apply post_bind, post_lift. destruct (Legacy.resolveURL params ctx) as [url|e]; [|done].
    apply post_bind. rewrite Hrh. eapply post_eq; [apply parseRequestHeaders_ref|].
    set (s1 := mkState _ _).
    assert (Hl1 : is_Some (st_heap s1 !! l)) by (by apply is_Some_app).
    eapply (post_bind_with _ _ _ (fun o s2 =>
      is_Some (st_heap s2 !! l) /\
      (is_Some (field (secrets ctx) "BEARER_AUTH_TOKEN") ->
        (given (st_heap s2) (VRef l) "Authorization"
         || given (st_heap s2) (VRef l) "authorization") = true))); [| |done].
    { destruct (field (secrets ctx) "BEARER_AUTH_TOKEN") as [token|] eqn:Htok.
      - eapply post_mono; [by apply (legacy_addAuthentication_given P ctx token)|].
        by intros o s2 (_ & ? & ?).
      - eapply post_mono; [apply steady_legacy_addAuthentication|].
        intros o s2 Hg.
        split; [exact (grows_is_Some _ _ _ Hg Hl1) | by intros [? [=]]]. }
    intros [] s2 [Hl2 Hauth].
    eapply post_bind_with; [apply prepareBody_state | | done].
    intros body' s3 ->.
    eapply post_bind_with; [apply parseAcceptedStatusCodes_spec | | done].
    intros codes s4 H4.
    destruct (allocates_given _ _ l "Authorization" H4 Hl2) as [Hl4 HA].
    destruct (allocates_given _ _ l "authorization" H4 Hl2) as [_ Ha].
    eapply post_bind_with; [apply makeWebhookRequest_headers | | done].
    intros res s5 [Hreq Hkeep].
    eapply post_eq; [apply stamp_spec|]. intros r _.
    destruct (Hreq res eq_refl) as (req & Hlog & Hh).
    exists req. split; [by rewrite Hlog, last_snoc|]. split; [done|].
    intros Htok. destruct (Hkeep Hl4) as [_ Hk].
    rewrite !Hk by done. rewrite HA, Ha. by apply Hauth.
  - intros r s' E.
    refine (post_elim (Bundle.invoke P params ctx) s
      (fun o s' => forall r, o = Return r -> _) _ _ _ E r eq_refl).
    clear E r s'. unfold Bundle.invoke.
    destruct (truthy_str (method params)) as [m|]; [|done].
    apply post_bind, post_lift. destruct (Bundle.resolveURL params ctx) as [url|e]; [|done].
    apply post_bind. rewrite Hrh. eapply post_eq; [apply parseRequestHeaders_ref|].
    set (s1 := mkState _ _).
    assert (Hl1 : is_Some (st_heap s1 !! l)) by (by apply is_Some_app).
    eapply post_bind_with; [apply steady_bundle_addAuthentication | | done].
    intros [] s2 Hg. pose proof (grows_is_Some _ _ _ Hg Hl1) as Hl2.
    eapply post_bind_with; [by apply addUserAgent_spec | | done].
    intros [] s2' (_ & Hl2' & Hua).
    eapply post_bind_with; [apply prepareBody_state | | done].
    intros body' s3 ->.
    eapply post_bind_with; [apply parseAcceptedStatusCodes_spec | | done].
    intros codes s4 H4.
    destruct (allocates_given _ _ l "User-Agent" H4 Hl2') as [Hl4 HA].
    destruct (allocates_given _ _ l "user-agent" H4 Hl2') as [_ Ha].
    eapply post_bind_with; [apply makeWebhookRequest_headers | | done].
    intros res s5 [Hreq Hkeep].
    destruct (negb (truthy (success res))).
    { apply post_bind. unfold post at 1, get_heap. simpl. by apply post_throw. }
    eapply post_eq; [apply stamp_spec|]. intros r _.
    destruct (Hreq res eq_refl) as (req & Hlog & Hh).
    exists req. split; [by rewrite Hlog, last_snoc|]. split; [done|].
    destruct (Hkeep Hl4) as [_ Hk].
    rewrite !Hk by done. by rewrite HA, Ha.
Qed.

Lemma structured_headers_shared_witness :
  let s := mkState [Obj Plain [] {["X-API-Key" := VStr "key123"]}] [] in
  let params :=
    mkParams (Some "PUT") (Some "https://api.example.com/resource") None
      VUndefined (VRef 0) VUndefined in
  let P := Sample.platform (Sample.replies 200 "OK") in
  (requestHeaders params = VRef 0 /\ is_Some (st_heap s !! 0%nat)) /\
  parseRequestHeaders P (requestHeaders params) s
    = (Return (VRef 0), mkState (st_heap s ++ [Obj Plain [] ∅]) (st_log s)).
Proof.
  intros s params P.
  assert (H1 : requestHeaders params = VRef 0) by reflexivity.
  assert (H2 : is_Some (st_heap s !! 0%nat)) by (eexists; reflexivity).
  split; [by split|].
  exact (proj1 (structured_headers_shared P params Sample.no_context s 0%nat H1 H2)).
Defined.

(** * Further properties of the code *)

(** ** Failures before anything is sent, and what the handler makes of them *)

Section Validation.
Context (P : Platform).

Lemma legacy_invoke_no_method params ctx s :
  truthy_str (method params) = None ->
  Legacy.invoke P params ctx s = (Throw (Error "method is required"), s).
Proof. intros H. unfold Legacy.invoke. by rewrite H. Qed.

Lemma bundle_invoke_no_method params ctx s :
  truthy_str (method params) = None ->
  Bundle.invoke P params ctx s = (Throw (Error "method is required"), s).
Proof. intros H. unfold Bundle.invoke. by rewrite H. Qed.

Lemma legacy_invoke_no_url params ctx s m e :
  truthy_str (method params) = Some m ->
  Legacy.resolveURL params ctx = Throw e ->
  Legacy.invoke P params ctx s = (Throw e, s).
Proof. intros Hm Hu. unfold Legacy.invoke. by rewrite Hm, Hu. Qed.

Lemma bundle_invoke_no_url params ctx s m e :
  truthy_str (method params) = Some m ->
  Bundle.resolveURL params ctx = Throw e ->
  Bundle.invoke P params ctx s = (Throw e, s).
Proof. intros Hm Hu. unfold Bundle.invoke. by rewrite Hm, Hu. Qed.

Lemma templated_invoke_no_url resolve params ctx s m e :
  truthy_str (method (resolve params ctx)) = Some m ->
  Bundle.resolveURL (resolve params ctx) ctx = Throw e ->
  Templated.invoke P resolve params ctx s = (Throw e, s).
Proof. intros Hm Hu. unfold Templated.invoke. cbv zeta. by rewrite Hm, Hu. Qed.

End Validation.

Lemma legacy_resolveURL_none params ctx :
  chosen_base params ctx = None ->
  Legacy.resolveURL params ctx =
    match truthy_str (addressSuffix params) with
    | Some _ => Throw (Error "addressSuffix provided but no base address available. Provide either address parameter or address environment variable")
    | None => Throw (Error "No URL specified. Provide either address parameter or address environment variable")
    end.
Proof.
  unfold chosen_base, Legacy.resolveURL.
  destruct (truthy_str (address params)); [done|]. by intros ->.
Qed.

Lemma bundle_resolveURL_none params ctx :
  chosen_base params ctx = None ->
  Bundle.resolveURL params ctx =
    match truthy_str (addressSuffix params) with
    | Some _ => Throw (Error "addressSuffix provided but no base address available. Provide either address parameter or ADDRESS environment variable")
    | None => Throw (Error "No URL specified. Provide address parameter or ADDRESS environment variable")
    end.
Proof.
  unfold chosen_base, Bundle.resolveURL, Bundle.getBaseURL.
  destruct (truthy_str (address params)); [done|]. by intros ->.
Qed.

Lemma bundle_getBaseURL_some params ctx base :
  chosen_base params ctx = Some base ->
  Bundle.getBaseURL params ctx = Return (strip_trailing base).
Proof.
  unfold chosen_base, Bundle.getBaseURL, strip_trailing.
  destruct (truthy_str (address params)); [by intros [= ->]|]. by intros ->.
Qed.

(** X1: an invocation without a method, or without a base address, fails
    with the state as it was (nothing allocated, nothing sent), in the
    original and in the bundled action.  The error handler rethrows the
    failure for a missing method and for a missing address; the failure for
    a suffix without a base address holds none of the handler's markers and
    is answered with a retry request. *)
Theorem early_failures_and_their_verdict (P : Platform) (params : Params)
    (ctx : context) (s : state) :
  (truthy_str (method params) = None ->
     exists e,
       Legacy.invoke P params ctx s = (Throw e, s) /\
       Bundle.invoke P params ctx s = (Throw e, s) /\
       message e = "method is required" /\ error e = Throw e) /\
  (truthy_str (method params) <> None -> chosen_base params ctx = None ->
     exists e1 e2,
       Legacy.invoke P params ctx s = (Throw e1, s) /\
       Bundle.invoke P params ctx s = (Throw e2, s) /\
       match truthy_str (addressSuffix params) with
       | None => error e1 = Throw e1 /\ error e2 = Throw e2
       | Some _ =>
           error e1 = Return retry_requested /\ error e2 = Return retry_requested
       end).
Proof.
  split.
  - intros Hm. exists (Error "method is required").
    rewrite legacy_invoke_no_method, bundle_invoke_no_method by done.
    repeat split. 
  - intros Hm Hb. destruct (truthy_str (method params)) as [m|] eqn:Em; [|done].
    pose proof (legacy_resolveURL_none _ _ Hb) as HL.
    pose proof (bundle_resolveURL_none _ _ Hb) as HB.
    destruct (truthy_str (addressSuffix params));
      eexists _, _;
      (split; [by apply (legacy_invoke_no_url P _ _ _ m)|]);
      (split; [by apply (bundle_invoke_no_url P _ _ _ m)|]);
      split; vm_compute; reflexivity.
Qed.

Lemma early_failures_and_their_verdict_witness :
  let P := Sample.platform (Sample.replies 200 "") in
  let params := mkParams (Some "GET") None (Some "/endpoint")
                  VUndefined VUndefined VUndefined in
  exists e1 e2,
    Legacy.invoke P params Sample.no_context (mkState [] []) = (Throw e1, mkState [] []) /\
    Bundle.invoke P params Sample.no_context (mkState [] []) = (Throw e2, mkState [] []) /\
    error e1 = Return retry_requested /\ error e2 = Return retry_requested.
Proof.
  intros P params.
  exact (proj2 (early_failures_and_their_verdict P params Sample.no_context (mkState [] []))
           ltac:(discriminate) eq_refl).
Defined.

(** X2: the address of a request without a suffix.  Composing the URL fails
    exactly when neither the parameters nor the environment give a base
    address; with a base and no suffix the original action uses the base as
    it is, while [getBaseURL] (the bundled action) takes one trailing slash
    off. *)
Theorem url_without_suffix (params : Params) (ctx : context) :
  (chosen_base params ctx = None <->
     exists e, Legacy.resolveURL params ctx = Throw e) /\
  (chosen_base params ctx = None <->
     exists e, Bundle.resolveURL params ctx = Throw e) /\
  (forall base, chosen_base params ctx = Some base ->
     Bundle.getBaseURL params ctx = Return (strip_trailing base) /\
     (truthy_str (addressSuffix params) = None ->
        Legacy.resolveURL params ctx = Return base /\
        Bundle.resolveURL params ctx = Return (strip_trailing base))).
Proof.
  assert (HL : forall base, chosen_base params ctx = Some base ->
            exists u, Legacy.resolveURL params ctx = Return u /\
              (truthy_str (addressSuffix params) = None -> u = base)).
  { unfold chosen_base, Legacy.resolveURL, Legacy.withSuffix. intros base.
    destruct (truthy_str (address params)).
    - intros [= ->]. eexists; split; [done|]. by intros ->.
    - intros ->. eexists; split; [done|]. by intros ->. }
  assert (HB : forall base, chosen_base params ctx = Some base ->
            exists u, Bundle.resolveURL params ctx = Return u /\
              (truthy_str (addressSuffix params) = None -> u = strip_trailing base)).
  { intros base Hb. unfold Bundle.resolveURL.
    rewrite (bundle_getBaseURL_some _ _ _ Hb).
    destruct (truthy_str (addressSuffix params)); eexists; split; done. }
  split; [|split].
  - split.
    + intros H. rewrite (legacy_resolveURL_none _ _ H).
      destruct (truthy_str (addressSuffix params)); by eexists.
    + intros [e He]. destruct (chosen_base params ctx) as [base|] eqn:E; [|done].
      destruct (HL base eq_refl) as (u & Hu & _). congruence.
  - split.
    + intros H. rewrite (bundle_resolveURL_none _ _ H).
      destruct (truthy_str (addressSuffix params)); by eexists.
    + intros [e He]. destruct (chosen_base params ctx) as [base|] eqn:E; [|done].
      destruct (HB base eq_refl) as (u & Hu & _). congruence.
  - intros base Hb. split; [by apply bundle_getBaseURL_some|].
    intros Hs. destruct (HL base Hb) as (u & Hu & Eu), (HB base Hb) as (u' & Hu' & Eu').
    by rewrite Hu, Hu', Eu, Eu'.
Qed.

(** ** Counting requests *)

Section Budget.
Context (P : Platform).

Lemma sends_nothing {A} (m : M A) : sends (fun _ => False) m -> sends_upto 0 m.
Proof.
  intros H s. eapply post_mono; [apply H|].
  intros o s' (l & E & Hl). exists l. split; [done|].
  destruct l as [|r l]; [done|]. by inversion Hl.
Qed.

Lemma sends_upto_quiet {A} (m : M A) : sends_upto 0 m -> quiet m.
Proof.
  intros H s. eapply post_mono; [apply H|].
  intros o s' (l & E & Hl). destruct l; [by rewrite app_nil_r in E | simpl in Hl; lia].
Qed.

Lemma sends_upto_weaken {A} (n n' : nat) (m : M A) :
  (n <= n')%nat -> sends_upto n m -> sends_upto n' m.
Proof.
  intros Hn H s. eapply post_mono; [apply H|].
  intros o s' (l & E & Hl). exists l. split; [done | lia].
Qed.

Lemma sends_upto_bind {A B} (a b : nat) (m : M A) (k : A -> M B) :
  sends_upto a m -> (forall x, sends_upto b (k x)) -> sends_upto (a + b) (bind m k).
Proof.
  intros Hm Hk s. eapply post_bind_with; [apply Hm | |].
  - intros x s1 (l1 & E1 & H1). eapply post_mono; [apply Hk|].
    intros o s2 (l2 & E2 & H2). exists (l1 ++ l2).
    split; [by rewrite E2, E1, app_assoc | rewrite length_app; lia].
  - intros e s1 (l1 & E1 & H1). exists l1. split; [done | lia].
Qed.

Lemma sends_upto_try_catch {A} (a b : nat) (m : M A) h :
  sends_upto a m -> (forall e, sends_upto b (h e)) ->
  sends_upto (a + b) (try_catch m h).
Proof.
  intros Hm Hh s. apply post_try_catch. eapply post_mono; [apply Hm|].
  intros [x|e] s1 (l1 & E1 & H1).
  - exists l1. split; [done | lia].
  - eapply post_mono; [apply Hh|].
    intros o s2 (l2 & E2 & H2). exists (l1 ++ l2).
    split; [by rewrite E2, E1, app_assoc | rewrite length_app; lia].
Qed.

Lemma sends_upto_fetch url m hv ob : sends_upto 1 (fetch P url m hv ob).
Proof. intros s. unfold post, fetch. simpl. by eexists [_]. Qed.

Lemma sends_upto_makeWebhookRequest method url headers body codes :
  sends_upto 1 (makeWebhookRequest P method url headers body codes).
Proof.
  intros s. eapply post_mono; [apply makeWebhookRequest_spec|].
  intros o s' (t & hv & codes' & _ & _ & _ & _ & _ & Hout).
  destruct Hout as [(Hlog & _) | [Hlog _]].
  - exists []. rewrite app_nil_r. split; [done | simpl; lia].
  - by eexists [_].
Qed.

Lemma quiet_parseRequestHeaders rh : sends_upto 0 (parseRequestHeaders P rh).
Proof. apply sends_nothing. unfold parseRequestHeaders, new_object. sends. Qed.

Lemma quiet_prepareBody rb : sends_upto 0 (prepareBody P rb).
Proof. apply sends_nothing. unfold prepareBody. sends. Qed.

Lemma quiet_parseAcceptedStatusCodes codes :
  sends_upto 0 (parseAcceptedStatusCodes P codes).
Proof. apply sends_nothing. unfold parseAcceptedStatusCodes, new_array. sends. Qed.

Lemma quiet_stamp r : sends_upto 0 (stamp P r).
Proof. apply sends_nothing. unfold stamp. sends. Qed.

Lemma quiet_legacy_addAuthentication ctx hv :
  sends_upto 0 (Legacy.addAuthentication P ctx hv).
Proof. apply sends_nothing. unfold Legacy.addAuthentication. sends. Qed.

Lemma quiet_addUserAgent hv : sends_upto 0 (Bundle.addUserAgent P hv).
Proof. apply sends_nothing. unfold Bundle.addUserAgent. sends. Qed.

Lemma quiet_token_answer resp : sends_upto 0 (token_answer P resp).
Proof. apply sends_nothing. unfold token_answer. sends. Qed.

Lemma getClientCredentialsToken_unfold config tu ci cs :
  truthy_str (Bundle.tokenUrl config) = Some tu ->
  truthy_str (Bundle.clientId config) = Some ci ->
  truthy_str (Bundle.clientSecret config) = Some cs ->
  Bundle.getClientCredentialsToken P config =
    (headers <-
       alloc (Obj Plain []
                (<["User-Agent" := VStr Bundle.SGNL_USER_AGENT]>
                   (<["Accept" := VStr "application/json"]>
                      {["Content-Type" := VStr "application/x-www-form-urlencoded"]}))) ;;
     params <-
       (let params :=
          Bundle.append_if "audience" (Bundle.audience config)
            (Bundle.append_if "scope" (Bundle.scope config)
               [("grant_type", "client_credentials")]) in
        if bool_decide (Bundle.authStyle config = Some "InParams") then
          ret (params ++ [("client_id", ci); ("client_secret", cs)])
        else
          set_prop P headers "Authorization"
            (VStr ("Basic " +:+ Base64.btoa (ci +:+ ":" +:+ cs))) ;;;
          ret params) ;;
     response <- fetch P tu "POST" headers (Some (VStr (form_urlencode P params))) ;;
     token_answer P response).
Proof.
  intros Htu Hci Hcs. unfold Bundle.getClientCredentialsToken.
  rewrite Htu, Hci, Hcs. reflexivity.
Qed.

Lemma sends_upto_getClientCredentialsToken config :
  sends_upto 1 (Bundle.getClientCredentialsToken P config).
Proof.
  destruct (truthy_str (Bundle.tokenUrl config)) as [tu|] eqn:Htu;
    [destruct (truthy_str (Bundle.clientId config)) as [ci|] eqn:Hci;
      [destruct (truthy_str (Bundle.clientSecret config)) as [cs|] eqn:Hcs|]|].
  2-4: unfold Bundle.getClientCredentialsToken; rewrite ?Htu, ?Hci, ?Hcs;
       apply (sends_upto_weaken 0); [lia|]; apply sends_nothing; sends.
  rewrite (getClientCredentialsToken_unfold _ _ _ _ Htu Hci Hcs).
  apply (sends_upto_bind 0 1); [apply sends_nothing; sends|]. intros hv.
  apply (sends_upto_bind 0 1); [apply sends_nothing; cbv zeta; sends|]. intros form.
  apply (sends_upto_bind 1 0); [apply sends_upto_fetch|]. intros resp.
  apply quiet_token_answer.
Qed.

Lemma sends_upto_getAuthorizationHeader ctx :
  sends_upto 1 (Bundle.getAuthorizationHeader P ctx).
Proof.
  unfold Bundle.getAuthorizationHeader.
  repeat match goal with
  | |- sends_upto _ (match ?x with _ => _ end) => destruct x
  end;
  try (apply (sends_upto_weaken 0); [lia|]; apply sends_nothing; sends; fail).
  all: apply (sends_upto_bind 1 0); [apply sends_upto_getClientCredentialsToken|];
    intros tok; apply sends_nothing; sends.
Qed.

Lemma sends_upto_bundle_addAuthentication ctx hv :
  sends_upto 1 (Bundle.addAuthentication P ctx hv).
Proof.
  unfold Bundle.addAuthentication.
  apply (sends_upto_bind 0 1); [apply sends_nothing; sends|]. intros a.
  destruct (truthy a); [apply (sends_upto_weaken 0); [lia|]; apply sends_nothing; sends|].
  apply (sends_upto_bind 0 1); [apply sends_nothing; sends|]. intros a'.
  destruct (truthy a'); [apply (sends_upto_weaken 0); [lia|]; apply sends_nothing; sends|].
  apply (sends_upto_try_catch 1 0).
  - apply (sends_upto_bind 1 0); [apply sends_upto_getAuthorizationHeader|].
    intros h. apply sends_nothing; sends.
  - intros e. apply sends_nothing; sends.
Qed.

Lemma sends_upto_legacy_invoke params ctx :
  sends_upto 1 (Legacy.invoke P params ctx).
Proof.
  unfold Legacy.invoke. destruct (truthy_str (method params)) as [m|];
    [|apply (sends_upto_weaken 0); [lia|]; apply sends_nothing; sends].
  apply (sends_upto_bind 0 1); [apply sends_nothing; sends|]. intros url.
  apply (sends_upto_bind 0 1); [apply quiet_parseRequestHeaders|]. intros hv.
  apply (sends_upto_bind 0 1); [apply quiet_legacy_addAuthentication|]. intros _.
  apply (sends_upto_bind 0 1); [apply quiet_prepareBody|]. intros b.
  apply (sends_upto_bind 0 1); [apply quiet_parseAcceptedStatusCodes|]. intros codes.
  apply (sends_upto_bind 1 0); [apply sends_upto_makeWebhookRequest|]. intros r.
  apply quiet_stamp.
Qed.

Lemma sends_upto_bundle_invoke params ctx :
  sends_upto 2 (Bundle.invoke P params ctx).
Proof.
  unfold Bundle.invoke. destruct (truthy_str (method params)) as [m|];
    [|apply (sends_upto_weaken 0); [lia|]; apply sends_nothing; sends].
  apply (sends_upto_bind 0 2); [apply sends_nothing; sends|]. intros url.
  apply (sends_upto_bind 0 2); [apply quiet_parseRequestHeaders|]. intros hv.
  apply (sends_upto_bind 1 1); [apply sends_upto_bundle_addAuthentication|]. intros _.
  apply (sends_upto_bind 0 1); [apply quiet_addUserAgent|]. intros _.
  apply (sends_upto_bind 0 1); [apply quiet_prepareBody|]. intros b.
  apply (sends_upto_bind 0 1); [apply quiet_parseAcceptedStatusCodes|]. intros codes.
  apply (sends_upto_bind 1 0); [apply sends_upto_makeWebhookRequest|]. intros r.
  destruct (negb _); [apply sends_nothing; sends | apply quiet_stamp].
Qed.

Lemma sends_upto_templated_invoke resolve params ctx :
  sends_upto 2 (Templated.invoke P resolve params ctx).
Proof.
  unfold Templated.invoke. cbv zeta.
  destruct (truthy_str (method (resolve params ctx))) as [m|];
    [|apply (sends_upto_weaken 0); [lia|]; apply sends_nothing; sends].
  apply (sends_upto_bind 0 2); [apply sends_nothing; sends|]. intros url.
  apply (sends_upto_bind 0 2); [apply quiet_parseRequestHeaders|]. intros hv.
  apply (sends_upto_bind 1 1); [apply sends_upto_bundle_addAuthentication|]. intros _.
  apply (sends_upto_bind 0 1); [apply quiet_prepareBody|]. intros b.
  apply (sends_upto_bind 0 1); [apply quiet_parseAcceptedStatusCodes|]. intros codes.
  apply (sends_upto_bind 1 0); [apply sends_upto_makeWebhookRequest|]. intros r.
  apply quiet_stamp.
Qed.

End Budget.

(** X3: how many requests an invocation sends.  The original action sends at
    most one request; the bundled and the templated action send at most two
    (the token request of the client-credentials flow and the webhook
    request); resolving the Authorization header sends at most one.  No
    request is repeated inside an invocation. *)
Theorem request_budget (P : Platform) (params : Params) (ctx : context) :
  sends_upto 1 (Legacy.invoke P params ctx) /\
  sends_upto 2 (Bundle.invoke P params ctx) /\
  (forall resolve, sends_upto 2 (Templated.invoke P resolve params ctx)) /\
  sends_upto 1 (Bundle.getAuthorizationHeader P ctx).
Proof.
  split; [apply sends_upto_legacy_invoke|].
  split; [apply sends_upto_bundle_invoke|].
  split; [intros resolve; apply sends_upto_templated_invoke|].
  apply sends_upto_getAuthorizationHeader.
Qed.

(** ** The authentication utilities *)

Lemma alter_fresh (h : list object) f ob :
  alter f (length h) (h ++ [ob]) = h ++ [f ob].
Proof. rewrite <- (Nat.add_0_r (length h)) at 1. by rewrite alter_app_r. Qed.

Section Token.
Context (P : Platform).

Lemma bearer_prefix t : has_prefix (Bundle.bearer t) "Bearer ".
Proof.
  unfold Bundle.bearer. destruct (Str.startsWith t "Bearer ") eqn:E.
  - by apply startsWith_spec.
  - by eexists.
Qed.

Lemma lookup_token_headers_auth (x : value) k :
  k <> "Authorization" ->
  (<["Authorization" := x]>
     (<["User-Agent" := VStr Bundle.SGNL_USER_AGENT]>
        (<["Accept" := VStr "application/json"]>
           ({["Content-Type" := VStr "application/x-www-form-urlencoded"]}
              : gmap string value)))) !! k
  = (<["User-Agent" := VStr Bundle.SGNL_USER_AGENT]>
       (<["Accept" := VStr "application/json"]>
          ({["Content-Type" := VStr "application/x-www-form-urlencoded"]}
             : gmap string value))) !! k.
Proof. intros H. by rewrite lookup_insert_ne. Qed.

Lemma append_if_keys name x params :
  forall k, In k (map fst (Bundle.append_if name x params)) ->
    k = name \/ In k (map fst params).
Proof.
  intros k. unfold Bundle.append_if. destruct (truthy_str x); [|by right].
  rewrite map_app, in_app_iff. simpl. intuition.
Qed.

Lemma append_if_head name x p params :
  head (Bundle.append_if name x (p :: params)) = Some p.
Proof. unfold Bundle.append_if. by destruct (truthy_str x). Qed.

Lemma append_if_cons name x p params :
  Bundle.append_if name x (p :: params) = p :: Bundle.append_if name x params.
Proof. unfold Bundle.append_if. by destruct (truthy_str x). Qed.

Lemma append_if_In name x params v :
  truthy_str x = Some v -> In (name, v) (Bundle.append_if name x params).
Proof. intros H. unfold Bundle.append_if. rewrite H, in_app_iff. right. by left. Qed.

Lemma append_if_keeps name x params p :
  In p params -> In p (Bundle.append_if name x params).
Proof.
  intros H. unfold Bundle.append_if. destruct (truthy_str x); [|done].
  rewrite in_app_iff. by left.
Qed.

(** The run of [getClientCredentialsToken] up to the response. *)
Lemma getClientCredentialsToken_run config tu ci cs s :
  truthy_str (Bundle.tokenUrl config) = Some tu ->
  truthy_str (Bundle.clientId config) = Some ci ->
  truthy_str (Bundle.clientSecret config) = Some cs ->
  exists hs form h1,
    let req := mkRequest tu "POST" hs (Some (VStr (form_urlencode P form))) in
    Bundle.getClientCredentialsToken P config s =
      match fetch_oracle P (st_log s) req with
      | Return resp => token_answer P resp (mkState h1 (st_log s ++ [req]))
      | Throw e => (Throw e, mkState h1 (st_log s ++ [req]))
      end /\
    (exists ob, h1 = st_heap s ++ [ob]) /\
    head form = Some ("grant_type", "client_credentials") /\
    (forall v, truthy_str (Bundle.scope config) = Some v -> In ("scope", v) form) /\
    (forall v, truthy_str (Bundle.audience config) = Some v -> In ("audience", v) form) /\
    (truthy_str (Bundle.scope config) = None -> ~ In "scope" (map fst form)) /\
    (truthy_str (Bundle.audience config) = None -> ~ In "audience" (map fst form)) /\
    hs !! "Content-Type" = Some (VStr "application/x-www-form-urlencoded") /\
    hs !! "Accept" = Some (VStr "application/json") /\
    hs !! "User-Agent" = Some (VStr Bundle.SGNL_USER_AGENT) /\
    (forall k, ~ In k ["Content-Type"; "Accept"; "User-Agent"; "Authorization"] ->
       hs !! k = None) /\
    (if bool_decide (Bundle.authStyle config = Some "InParams")
     then hs !! "Authorization" = None /\
          In ("client_id", ci) form /\ In ("client_secret", cs) form
     else hs !! "Authorization"
            = Some (VStr ("Basic " +:+ Base64.btoa (ci +:+ ":" +:+ cs))) /\
          ~ In "client_id" (map fst form) /\ ~ In "client_secret" (map fst form)).
Proof.
  intros Htu Hci Hcs.
  rewrite (getClientCredentialsToken_unfold P _ _ _ _ Htu Hci Hcs).
  set (base := <["User-Agent" := VStr Bundle.SGNL_USER_AGENT]>
                 (<["Accept" := VStr "application/json"]>
                    ({["Content-Type" := VStr "application/x-www-form-urlencoded"]}
                       : gmap string value))).
  set (params := Bundle.append_if "audience" (Bundle.audience config)
                   (Bundle.append_if "scope" (Bundle.scope config)
                      [("grant_type", "client_credentials")])).
  assert (Hkeys : forall k, In k (map fst params) ->
            k = "audience" \/ k = "scope" \/ k = "grant_type").
  { intros k Hk. apply append_if_keys in Hk as [->|Hk]; [by left|].
    apply append_if_keys in Hk as [->|Hk]; [by right; left|].
    destruct Hk as [<-|[]]. by right; right. }
  assert (Hhead : head params = Some ("grant_type", "client_credentials")).
  { unfold params. by rewrite !append_if_cons. }
  assert (Hscope : forall v, truthy_str (Bundle.scope config) = Some v ->
            In ("scope", v) params).
  { intros v Hv. apply append_if_keeps. by apply append_if_In. }
  assert (Haud : forall v, truthy_str (Bundle.audience config) = Some v ->
            In ("audience", v) params).
  { intros v Hv. by apply append_if_In. }
  assert (Hnscope : truthy_str (Bundle.scope config) = None ->
            ~ In "scope" (map fst params)).
  { intros E. unfold params, Bundle.append_if. rewrite E.
    destruct (truthy_str (Bundle.audience config)); simpl; intuition discriminate. }
  assert (Hnaud : truthy_str (Bundle.audience config) = None ->
            ~ In "audience" (map fst params)).
  { intros E. unfold params, Bundle.append_if. rewrite E.
    destruct (truthy_str (Bundle.scope config)); simpl; intuition discriminate. }
  assert (Hother : forall k,
            ~ In k ["Content-Type"; "Accept"; "User-Agent"; "Authorization"] ->
            base !! k = None).
  { intros k Hk. unfold base. simpl in Hk.
    rewrite !lookup_insert_ne by (intros <-; tauto).
    apply lookup_singleton_ne. intros <-. tauto. }
  cbv zeta. fold params.
  destruct (bool_decide (Bundle.authStyle config = Some "InParams")) eqn:Hstyle.
  - exists base, (params ++ [("client_id", ci); ("client_secret", cs)]),
      (st_heap s ++ [Obj Plain [] base]).
    split; [|split; [by eexists|]].
    { unfold bind at 1. rewrite alloc_spec. unfold bind at 1, ret at 1.
      unfold bind at 1, fetch at 1. cbn [st_heap st_log].
      simpl props_of. rewrite list_lookup_middle by done. cbn [o_props].
      by destruct (fetch_oracle P _ _). }
    split; [by destruct params|].
    split; [intros v Hv; apply in_app_iff; left; auto|].
    split; [intros v Hv; apply in_app_iff; left; auto|].
    split.
    { intros E. rewrite map_app, in_app_iff. intros [H|H]; [by apply Hnscope|].
      simpl in H. intuition discriminate. }
    split.
    { intros E. rewrite map_app, in_app_iff. intros [H|H]; [by apply Hnaud|].
      simpl in H. intuition discriminate. }
    split; [done|]. split; [done|]. split; [done|]. split; [done|].
    repeat split; try done; apply in_app_iff; right; simpl; auto.
  - exists (<["Authorization" := VStr ("Basic " +:+ Base64.btoa (ci +:+ ":" +:+ cs))]> base),
      params,
      (st_heap s ++
         [Obj Plain []
            (<["Authorization" := VStr ("Basic " +:+ Base64.btoa (ci +:+ ":" +:+ cs))]> base)]).
    split; [|split; [by eexists|]].
    { unfold bind at 1. rewrite alloc_spec. unfold bind at 1.
      unfold bind at 1. rewrite set_prop_ref. unfold ret at 1.
      unfold bind at 1, fetch at 1. cbn [st_heap st_log].
      rewrite alter_fresh. unfold set_own. cbn [o_props o_class o_elems].
      simpl props_of. rewrite !list_lookup_middle by done. cbn [o_props].
      by destruct (fetch_oracle P _ _). }
    split; [done|]. split; [done|]. split; [done|]. split; [done|]. split; [done|].
    split; [done|]. split; [done|]. split; [done|]. split.
    { intros k Hk. rewrite lookup_insert_ne; [by apply Hother|].
      intros <-. apply Hk. simpl. tauto. }
    repeat split; try done.
    + intros H. apply Hkeys in H. intuition discriminate.
    + intros H. apply Hkeys in H. intuition discriminate.
Qed.

End Token.

Lemma alloc_json_JObj fields (h : list object) :
  exists ps h',
    alloc_json (JObj fields) h = (VRef (length h'), h' ++ [Obj Plain [] ps]) /\
    forall k,
      match json_field k fields with
      | Some (JStr t) => ps !! k = Some (VStr t)
      | Some _ => is_Some (ps !! k)
      | None => ps !! k = None
      end.
Proof.
  simpl.
  assert (H : forall h0,
    let r :=
      (fix go (fs : list (string * json)) (h : list object)
           : gmap string value * list object :=
           match fs with
           | [] => (∅, h)
           | (k, j) :: fs' =>
               let '(v, h1) := alloc_json j h in
               let '(ps, h2) := go fs' h1 in
               (match ps !! k with Some _ => ps | None => <[k := v]> ps end, h2)
           end) fields h0 in
    forall k,
      match json_field k fields with
      | Some (JStr t) => r.1 !! k = Some (VStr t)
      | Some _ => is_Some (r.1 !! k)
      | None => r.1 !! k = None
      end).
  { induction fields as [|[k' j] fs IHfs]; intros h0; cbv zeta.
    - intros k. simpl. apply lookup_empty.
    - intros k. simpl.
      assert (Hv : forall t, j = JStr t -> (alloc_json j h0).1 = VStr t)
        by (by intros t ->).
      destruct (alloc_json j h0) as [v h1]. simpl in Hv.
      specialize (IHfs h1 k). cbv zeta in IHfs.
      destruct ((fix go (fs : list (string * json)) (h : list object) := _) fs h1)
        as [ps h2]. simpl in *.
      destruct (json_field k fs) as [j'|] eqn:Ej.
      + assert (Hk : is_Some (ps !! k)) by (by destruct j'; try done; eexists).
        destruct (ps !! k') eqn:Ek'; [done|].
        assert (k' <> k) by (intros ->; rewrite Ek' in Hk; by destruct Hk).
        rewrite lookup_insert_ne by done. done.
      + destruct (String.eqb k k') eqn:Ekk.
        * apply String.eqb_eq in Ekk. subst k'. rewrite IHfs.
          rewrite lookup_insert_eq. destruct j; try (by eexists).
          by rewrite (Hv _ eq_refl).
        * apply String.eqb_neq in Ekk.
          destruct (ps !! k') eqn:Ek'; [done|]. by rewrite lookup_insert_ne. }
  specialize (H h). cbv zeta in H.
  destruct ((fix go (fs : list (string * json)) (h : list object) := _) fields h)
    as [ps h']. by exists ps, h'.
Qed.

Lemma props_of_fresh (h : list object) ob :
  props_of (h ++ [ob]) (VRef (length h)) = o_props ob.
Proof. unfold props_of. by rewrite list_lookup_middle. Qed.

Section TokenAnswer.
Context (P : Platform).

Lemma token_answer_rejected resp s :
  ok resp = false ->
  exists e s', token_answer P resp s = (Throw e, s') /\
    (has_prefix (message e) "OAuth2 token request failed: " \/
     text_after_json resp = Throw e) /\
    match json_body resp, text_after_json resp with
    | Throw _, Return t =>
        e = Error ("OAuth2 token request failed: "
                   +:+ ToString P (st_heap s) (VNum (status resp)) +:+ " "
                   +:+ statusText resp +:+ " - " +:+ t)
    | Throw _, Throw e' => e = e'
    | Return _, _ => True
    end.
Proof.
  intros Hok. unfold token_answer. rewrite Hok. cbn [negb].
  assert (Hpre : forall h t,
    has_prefix
      (message (Error ("OAuth2 token request failed: "
                       +:+ ToString P h (VNum (status resp)) +:+ " "
                       +:+ statusText resp +:+ " - " +:+ t)))
      "OAuth2 token request failed: ") by (intros h t; by eexists).
  unfold bind at 1, try_catch. unfold bind at 1, lift at 1.
  destruct (json_body resp) as [j|e0].
  - unfold bind at 1.
    destruct (materialise j s) as [[v|e1] s1] eqn:Em.
    + unfold bind at 1, get_heap at 1, lift at 1.
      destruct (JSON_stringify P (st_heap s1) v) as [t|e2].
      * unfold bind, get_heap, throw. eexists _, _. split; [done|]. split; [by left | done].
      * unfold lift at 1. destruct (text_after_json resp);
          unfold bind, get_heap, throw; eexists _, _; (split; [done|]);
          (split; [by (left + right) | done]).
    + unfold lift at 1. destruct (text_after_json resp);
        unfold bind, get_heap, throw; eexists _, _; (split; [done|]);
        (split; [by (left + right) | done]).
  - unfold lift at 1. destruct (text_after_json resp) as [t|e'].
    + unfold bind, get_heap, throw. eexists _, _. split; [done|]. split; [by left | done].
    + eexists _, _. split; [done|]. split; [by right | done].
Qed.

Lemma token_answer_accepted resp s :
  ok resp = true ->
  exists o s', token_answer P resp s = (o, s') /\
    (forall v, o = Return v -> truthy v = true) /\
    match json_body resp with
    | Throw e => o = Throw e
    | Return (JObj fields) =>
        match json_field "access_token" fields with
        | Some (JStr t) =>
            o = if Str.nonempty t then Return (VStr t) else Throw no_access_token
        | Some _ => True
        | None => o = Throw no_access_token
        end
    | Return JNull => exists f, o = Throw (TypeError P f)
    | Return _ => o = Throw no_access_token
    end.
Proof.
  intros Hok. unfold token_answer. rewrite Hok. cbn [negb].
  unfold bind at 1, lift at 1.
  destruct (json_body resp) as [j|e]; [|by eexists _, _].
  unfold bind at 1.
  destruct j as [|b|n|t|items|fields].
  1-4: unfold materialise; simpl; unfold bind, throw, ret; simpl;
       eexists _, _; split; [reflexivity|]; split; [done|]; eauto.
  - unfold materialise. simpl alloc_json.
    destruct ((fix go (js : list json) (h : list object) := _) items (st_heap s))
      as [vs h']. cbv iota beta.
    unfold bind at 1. rewrite get_prop_ref. cbn [st_heap].
    rewrite props_of_fresh. cbn [o_props].
    rewrite lookup_empty. simpl. unfold throw. by eexists _, _.
  - unfold materialise.
    destruct (alloc_json_JObj fields (st_heap s)) as (ps & h' & -> & Hps).
    specialize (Hps "access_token").
    unfold bind at 1. rewrite get_prop_ref. cbn [st_heap].
    rewrite props_of_fresh. cbn [o_props].
    destruct (truthy (default VUndefined (ps !! "access_token"))) eqn:Et; simpl negb;
      cbv iota; unfold ret, throw; eexists _, _; (split; [reflexivity|]);
      (split; [by intros v [= <-]|]).
    + destruct (json_field "access_token" fields) as [[| | |t| |]|]; try done.
      * rewrite Hps in Et |- *. simpl in Et |- *. by rewrite Et.
      * by rewrite Hps in Et.
    + destruct (json_field "access_token" fields) as [[| | |t| |]|]; try done.
      rewrite Hps in Et. simpl in Et. by rewrite Et.
Qed.

End TokenAnswer.

Section TokenTheorems.
Context (P : Platform).

Lemma token_answer_log resp s : st_log (token_answer P resp s).2 = st_log s.
Proof. exact (sends_upto_quiet _ (quiet_token_answer P resp) s). Qed.

End TokenTheorems.

(** X4: the request [getClientCredentialsToken] sends.  With a token URL, a
    client id and a client secret it sends exactly one request: a POST to
    the token URL whose body is the form, starting with
    grant_type=client_credentials, holding scope and audience exactly when
    they are given, and whose headers are the form Content-Type, the Accept
    and the User-Agent, with at most an Authorization and nothing else (no
    header of the caller).  The credentials travel in one place only: with the
    style InParams as the form fields client_id and client_secret and no
    Authorization header, otherwise as a Basic Authorization header and in
    no form field. *)
Theorem token_request_shape (P : Platform) (config : Bundle.TokenConfig)
    (tu ci cs : string) (s : state) :
  truthy_str (Bundle.tokenUrl config) = Some tu ->
  truthy_str (Bundle.clientId config) = Some ci ->
  truthy_str (Bundle.clientSecret config) = Some cs ->
  exists req form,
    st_log (Bundle.getClientCredentialsToken P config s).2 = st_log s ++ [req] /\
    req_url req = tu /\ req_method req = "POST" /\
    req_body req = Some (VStr (form_urlencode P form)) /\
    head form = Some ("grant_type", "client_credentials") /\
    (forall v, truthy_str (Bundle.scope config) = Some v -> In ("scope", v) form) /\
    (forall v, truthy_str (Bundle.audience config) = Some v ->
       In ("audience", v) form) /\
    (truthy_str (Bundle.scope config) = None -> ~ In "scope" (map fst form)) /\
    (truthy_str (Bundle.audience config) = None ->
       ~ In "audience" (map fst form)) /\
    req_headers req !! "Content-Type"
      = Some (VStr "application/x-www-form-urlencoded") /\
    req_headers req !! "Accept" = Some (VStr "application/json") /\
    req_headers req !! "User-Agent" = Some (VStr Bundle.SGNL_USER_AGENT) /\
    (forall k, ~ In k ["Content-Type"; "Accept"; "User-Agent"; "Authorization"] ->
       req_headers req !! k = None) /\
    (if bool_decide (Bundle.authStyle config = Some "InParams")
     then req_headers req !! "Authorization" = None /\
          In ("client_id", ci) form /\ In ("client_secret", cs) form
     else req_headers req !! "Authorization"
            = Some (VStr ("Basic " +:+ Base64.btoa (ci +:+ ":" +:+ cs))) /\
          ~ In "client_id" (map fst form) /\ ~ In "client_secret" (map fst form)).
Proof.
  intros Htu Hci Hcs.
  destruct (getClientCredentialsToken_run P config tu ci cs s Htu Hci Hcs)
    as (hs & form & h1 & Hrun & _ & H).
  cbv zeta in Hrun. exists (mkRequest tu "POST" hs (Some (VStr (form_urlencode P form)))), form.
  split; [|by cbn [req_url req_method req_body req_headers]].
  rewrite Hrun. destruct (fetch_oracle P _ _) as [resp|e]; [|done].
  by rewrite token_answer_log.
Qed.

Lemma token_request_shape_witness :
  let P := Sample.platform (Sample.replies 200 "{}") in
  let config :=
    Bundle.mkTokenConfig (Some "https://auth.example.com/token") (Some "client")
      (Some "secret") (Some "read") None None in
  exists req form,
    st_log (Bundle.getClientCredentialsToken P config (mkState [] [])).2 = [] ++ [req] /\
    req_url req = "https://auth.example.com/token" /\ req_method req = "POST" /\
    req_body req = Some (VStr (form_urlencode P form)) /\
    head form = Some ("grant_type", "client_credentials") /\
    (forall v, truthy_str (Bundle.scope config) = Some v -> In ("scope", v) form) /\
    (forall v, truthy_str (Bundle.audience config) = Some v ->
       In ("audience", v) form) /\
    (truthy_str (Bundle.scope config) = None -> ~ In "scope" (map fst form)) /\
    (truthy_str (Bundle.audience config) = None ->
       ~ In "audience" (map fst form)) /\
    req_headers req !! "Content-Type"
      = Some (VStr "application/x-www-form-urlencoded") /\
    req_headers req !! "Accept" = Some (VStr "application/json") /\
    req_headers req !! "User-Agent" = Some (VStr Bundle.SGNL_USER_AGENT) /\
    (forall k, ~ In k ["Content-Type"; "Accept"; "User-Agent"; "Authorization"] ->
       req_headers req !! k = None) /\
    (req_headers req !! "Authorization"
       = Some (VStr ("Basic " +:+ Base64.btoa ("client" +:+ ":" +:+ "secret"))) /\
     ~ In "client_id" (map fst form) /\ ~ In "client_secret" (map fst form)).
Proof.
  intros P config.
  exact (token_request_shape P config "https://auth.example.com/token" "client"
           "secret" (mkState [] []) eq_refl eq_refl eq_refl).
Defined.

(** X5: what [getClientCredentialsToken] makes of the token endpoint's
    answer.  A rejected fetch is passed on.  A response that is not ok never
    yields a token: the function throws, with a message that starts with
    "OAuth2 token request failed: " (status, status text and the body text
    when the body is not JSON), or with the failure of reading the body.  An
    ok response yields the last access_token member of the JSON object when
    that is a non-empty string; an object without the member, an empty
    token, and a JSON value that is not an object give "No access_token in
    OAuth2 response" (a TypeError for null); a body that is not JSON passes
    its failure on.  Whatever is returned is truthy. *)
Theorem token_response_handling (P : Platform) (config : Bundle.TokenConfig)
    (tu ci cs : string) (s : state) :
  truthy_str (Bundle.tokenUrl config) = Some tu ->
  truthy_str (Bundle.clientId config) = Some ci ->
  truthy_str (Bundle.clientSecret config) = Some cs ->
  let o := (Bundle.getClientCredentialsToken P config s).1 in
  exists req,
    st_log (Bundle.getClientCredentialsToken P config s).2 = st_log s ++ [req] /\
    (forall v, o = Return v -> truthy v = true) /\
    match fetch_oracle P (st_log s) req with
    | Throw e => o = Throw e
    | Return resp =>
        if ok resp then
          match json_body resp with
          | Throw e => o = Throw e
          | Return (JObj fields) =>
              match json_field "access_token" fields with
              | Some (JStr t) =>
                  o = if Str.nonempty t then Return (VStr t)
                      else Throw no_access_token
              | Some _ => True
              | None => o = Throw no_access_token
              end
          | Return JNull => exists f, o = Throw (TypeError P f)
          | Return _ => o = Throw no_access_token
          end
        else
          exists e, o = Throw e /\
            (has_prefix (message e) "OAuth2 token request failed: " \/
             text_after_json resp = Throw e) /\
            match json_body resp, text_after_json resp with
            | Throw _, Return t =>
                exists h,
                  e = Error ("OAuth2 token request failed: "
                             +:+ ToString P h (VNum (status resp)) +:+ " "
                             +:+ statusText resp +:+ " - " +:+ t)
            | Throw _, Throw e' => e = e'
            | Return _, _ => True
            end
    end.
Proof.
  intros Htu Hci Hcs o.
  destruct (getClientCredentialsToken_run P config tu ci cs s Htu Hci Hcs)
    as (hs & form & h1 & Hrun & _ & _).
  cbv zeta in Hrun. subst o.
  exists (mkRequest tu "POST" hs (Some (VStr (form_urlencode P form)))).
  rewrite Hrun. destruct (fetch_oracle P _ _) as [resp|e]; [|done].
  rewrite token_answer_log. split; [done|].
  destruct (ok resp) eqn:Hok.
  - destruct (token_answer_accepted P resp
                (mkState h1 (st_log s ++
                   [mkRequest tu "POST" hs (Some (VStr (form_urlencode P form)))])) Hok)
      as (o & s' & -> & Htruthy & Hcase).
    by split.
  - destruct (token_answer_rejected P resp
                (mkState h1 (st_log s ++
                   [mkRequest tu "POST" hs (Some (VStr (form_urlencode P form)))])) Hok)
      as (e & s' & -> & Hpre & Hcase).
    split; [done|]. exists e. split; [done|]. split; [done|].
    destruct (json_body resp); [done|].
    destruct (text_after_json resp); [by eexists | done].
Qed.

Lemma token_response_handling_witness :
  let P :=
    Sample.platform
      (Return (mkResponse 200 "OK" true (Return "")
                 (Return (JObj [("access_token", JStr "abc");
                                ("token_type", JStr "Bearer")]))
                 (Return ""))) in
  let config :=
    Bundle.mkTokenConfig (Some "https://auth.example.com/token") (Some "client")
      (Some "secret") None None None in
  (Bundle.getClientCredentialsToken P config (mkState [] [])).1 = Return (VStr "abc").
Proof.
  intros P config.
  destruct (token_response_handling P config "https://auth.example.com/token"
              "client" "secret" (mkState [] []) eq_refl eq_refl eq_refl)
    as (req & _ & _ & H).
  exact H.
Defined.

Lemma getAuthorizationHeader_scheme (P : Platform) (ctx : context)
    (s s' : state) (h : string) :
  Bundle.getAuthorizationHeader P ctx s = (Return h, s') ->
  has_prefix h "Bearer " \/ has_prefix h "Basic ".
Proof.
  unfold Bundle.getAuthorizationHeader.
  repeat match goal with
  | |- context [match field ?o ?k with _ => _ end] => destruct (field o k)
  end;
  unfold ret, throw; try (intros [= <- <-]); try discriminate;
    try (left; apply bearer_prefix); try (right; by eexists).
  all: unfold bind at 1;
    destruct (Bundle.getClientCredentialsToken P _ s) as [[tok|e] st1]; [|discriminate];
    unfold bind, get_heap, ret; intros [= <- <-]; left; by eexists.
Qed.

(** X6: the value [getAuthorizationHeader] returns always names its scheme:
    whichever of the four mechanisms answers, the header starts with
    "Bearer " or with "Basic ". *)
Theorem authorization_header_scheme (P : Platform) (ctx : context)
    (s s' : state) (h : string) :
  Bundle.getAuthorizationHeader P ctx s = (Return h, s') ->
  has_prefix h "Bearer " \/ has_prefix h "Basic ".
Proof. apply getAuthorizationHeader_scheme. Qed.

Lemma authorization_header_scheme_witness :
  has_prefix "Basic dXNlcjpwYXNz" "Bearer " \/ has_prefix "Basic dXNlcjpwYXNz" "Basic ".
Proof.
  exact (authorization_header_scheme (Sample.platform (Sample.replies 200 ""))
           (mkContext None
              (Some (<["BASIC_USERNAME" := "user"]> {["BASIC_PASSWORD" := "pass"]})))
           (mkState [] []) (mkState [] []) "Basic dXNlcjpwYXNz" eq_refl).
Defined.

(** X7: the token endpoint is contacted only with a complete configuration.
    When the token URL, the client id or the client secret is missing,
    [getAuthorizationHeader] leaves the state as it is (nothing is sent);
    and when the client secret is the only secret there is, it fails with
    the message that names TOKEN_URL and CLIENT_ID. *)
Theorem token_endpoint_needs_configuration (P : Platform) (ctx : context)
    (s : state) :
  field (environment ctx) "OAUTH2_CLIENT_CREDENTIALS_TOKEN_URL" = None \/
  field (environment ctx) "OAUTH2_CLIENT_CREDENTIALS_CLIENT_ID" = None \/
  field (secrets ctx) "OAUTH2_CLIENT_CREDENTIALS_CLIENT_SECRET" = None ->
  (Bundle.getAuthorizationHeader P ctx s).2 = s /\
  (field (secrets ctx) "BEARER_AUTH_TOKEN" = None ->
   field (secrets ctx) "BASIC_USERNAME" = None \/
     field (secrets ctx) "BASIC_PASSWORD" = None ->
   field (secrets ctx) "OAUTH2_AUTHORIZATION_CODE_ACCESS_TOKEN" = None ->
   is_Some (field (secrets ctx) "OAUTH2_CLIENT_CREDENTIALS_CLIENT_SECRET") ->
   (Bundle.getAuthorizationHeader P ctx s).1
   = Throw (Error "OAuth2 Client Credentials flow requires TOKEN_URL and CLIENT_ID in env")).
Proof.
  intros H. unfold Bundle.getAuthorizationHeader. split.
  - repeat match goal with
    | |- context [match field ?o ?k with _ => _ end] => destruct (field o k)
    end; try done.
    all: by destruct H as [H|[H|H]].
  - intros -> Hb -> [cs Hcs]. rewrite Hcs in *.
    assert (E : match field (environment ctx) "OAUTH2_CLIENT_CREDENTIALS_TOKEN_URL",
                      field (environment ctx) "OAUTH2_CLIENT_CREDENTIALS_CLIENT_ID"
                return M string with
                | Some tokenUrl, Some clientId =>
                    token <-
                      Bundle.getClientCredentialsToken P
                        (Bundle.mkTokenConfig (Some tokenUrl) (Some clientId) (Some cs)
                           (field (environment ctx) "OAUTH2_CLIENT_CREDENTIALS_SCOPE")
                           (field (environment ctx) "OAUTH2_CLIENT_CREDENTIALS_AUDIENCE")
                           (field (environment ctx) "OAUTH2_CLIENT_CREDENTIALS_AUTH_STYLE")) ;;
                    h <- get_heap ;;
                    ret ("Bearer " +:+ ToString P h token)
                | _, _ =>
                    throw (Error "OAuth2 Client Credentials flow requires TOKEN_URL and CLIENT_ID in env")
                end
              = throw (Error "OAuth2 Client Credentials flow requires TOKEN_URL and CLIENT_ID in env")).
    { destruct H as [-> | [-> | [=]]]; [done|].
      by destruct (field (environment ctx) "OAUTH2_CLIENT_CREDENTIALS_TOKEN_URL"). }
    rewrite E.
    destruct Hb as [-> | ->];
      [by destruct (field (secrets ctx) "BASIC_PASSWORD") | done].
Qed.

Lemma token_endpoint_needs_configuration_witness :
  let P := Sample.platform (Sample.replies 200 "") in
  let ctx :=
    mkContext
      (Some {["OAUTH2_CLIENT_CREDENTIALS_TOKEN_URL" := "https://auth.example.com/token"]})
      (Some {["OAUTH2_CLIENT_CREDENTIALS_CLIENT_SECRET" := "secret"]}) in
  Bundle.getAuthorizationHeader P ctx (mkState [] [])
  = (Throw (Error "OAuth2 Client Credentials flow requires TOKEN_URL and CLIENT_ID in env"),
     mkState [] []).
Proof.
  intros P ctx.
  destruct (token_endpoint_needs_configuration P ctx (mkState [] [])
              (or_intror (or_introl eq_refl))) as [H2 H1].
  specialize (H1 eq_refl (or_introl eq_refl) eq_refl (ex_intro _ "secret" eq_refl)).
  rewrite (surjective_pairing (Bundle.getAuthorizationHeader P ctx (mkState [] []))).
  by rewrite H1, H2.
Defined.

(** ** The executor, precisely *)

Section ExecutorRuns.
Context (P : Platform).

Lemma set_unless_given_eq l k k' x s :
  (a <- get_prop P (VRef l) k ;;
   if truthy a then ret tt else
     a' <- get_prop P (VRef l) k' ;;
     if truthy a' then ret tt else set_prop P (VRef l) k x) s
  = (Return tt,
     if given (st_heap s) (VRef l) k || given (st_heap s) (VRef l) k' then s
     else mkState (alter (set_own k x) l (st_heap s)) (st_log s)).
Proof.
  unfold bind at 1. rewrite get_prop_ref. unfold given at 1.
  destruct (truthy (default VUndefined (props_of (st_heap s) (VRef l) !! k))); [done|].
  unfold bind at 1. rewrite get_prop_ref. unfold given at 1.
  by destruct (truthy (default VUndefined (props_of (st_heap s) (VRef l) !! k'))).
Qed.

Lemma props_of_alter_eq (h : list object) k x l :
  is_Some (h !! l) ->
  props_of (alter (set_own k x) l h) (VRef l) = <[k := x]> (props_of h (VRef l)).
Proof.
  intros [o Ho]. unfold props_of. by rewrite list_lookup_alter_eq, Ho.
Qed.

(** The two defaults at the head of [makeWebhookRequest]. *)
Lemma defaults_eq codes headers s :
  exists t codes' hv,
    (codes' <- (match codes with VUndefined => new_array | _ => ret codes end) ;;
     hv <- (if truthy headers then ret headers else new_object) ;;
     ret (codes', hv)) s
    = (Return (codes', hv), mkState (st_heap s ++ t) (st_log s)) /\
    (codes <> VUndefined -> codes' = codes) /\
    (if truthy headers then hv = headers /\ Forall blank t
     else exists t1, t = t1 ++ [Obj Plain [] ∅] /\ hv = VRef (length (st_heap s ++ t1))).
Proof.
  destruct (decide (codes = VUndefined)) as [->|Hne].
  - destruct (truthy headers) eqn:Eh.
    + exists [Obj Array [] ∅], (VRef (length (st_heap s))), headers.
      unfold bind, new_array, ret. rewrite alloc_spec.
      split; [done|]. split; [done|]. split; [done|]. by repeat constructor.
    + exists ([Obj Array [] ∅] ++ [Obj Plain [] ∅]), (VRef (length (st_heap s))),
        (VRef (length (st_heap s ++ [Obj Array [] ∅]))).
      unfold bind, new_array, new_object, ret. rewrite !alloc_spec.
      cbn [st_heap st_log]. rewrite <- app_assoc.
      split; [done|]. split; [done|]. by eexists.
  - destruct (truthy headers) eqn:Eh.
    + exists [], codes, headers. rewrite app_nil_r.
      split; [|split; [done|by split]].
      unfold bind. destruct codes; try done; unfold ret; by destruct s.
    + exists ([] ++ [Obj Plain [] ∅]), codes, (VRef (length (st_heap s ++ []))).
      split; [|split; [done|by eexists]].
      rewrite app_nil_r. unfold bind.
      destruct codes; try done; unfold ret, new_object; rewrite alloc_spec; done.
Qed.

Lemma makeWebhookRequest_defaults method url headers body codes s :
  makeWebhookRequest P method url headers body codes s =
    match (codes' <- (match codes with VUndefined => new_array | _ => ret codes end) ;;
           hv <- (if truthy headers then ret headers else new_object) ;;
           ret (codes', hv)) s with
    | (Return (codes', hv), s1) => dispatch P method url hv body codes' s1
    | (Throw e, s1) => (Throw e, s1)
    end.
Proof.
  rewrite makeWebhookRequest_unfold. unfold bind.
  destruct (match codes with VUndefined => new_array | _ => ret codes end s)
    as [[codes'|e] s1]; [|done].
  by destruct ((if truthy headers then ret headers else new_object) s1) as [[hv|e] s2].
Qed.

(** [dispatch] on a headers object. *)
Lemma dispatch_ref method url l body codes s :
  dispatch P method url (VRef l) body codes s =
    let s1 :=
      if attaches method body &&
         negb (given (st_heap s) (VRef l) "Content-Type"
               || given (st_heap s) (VRef l) "content-type")
      then mkState
             (alter (set_own "Content-Type" (VStr "application/json")) l (st_heap s))
             (st_log s)
      else s in
    let req := sent method url (st_heap s1) (VRef l) body in
    (settle P (st_heap s1) codes (fetch_oracle P (st_log s) req),
     mkState (st_heap s1) (st_log s ++ [req])).
Proof.
  unfold dispatch. unfold bind at 1. destruct (attaches method body) eqn:Hatt.
  - unfold bind at 1. unfold content_type_block. rewrite set_unless_given_eq.
    unfold ret at 1. rewrite respond_eq. unfold sent. rewrite Hatt. cbn [andb].
    by destruct (given _ _ _ || given _ _ _).
  - unfold ret at 1. rewrite respond_eq. unfold sent. by rewrite Hatt.
Qed.

Lemma settle_2xx h codes resp :
  is_2xx (status resp) = true ->
  settle P h codes (Return resp)
  = Return (mkResult (status resp) (text_or_empty resp) (VBool true) None).
Proof. intros H. unfold settle, classify. by rewrite H. Qed.

Lemma given_blank (h : list object) l k :
  (forall o, h !! l = Some o -> o_props o = ∅) -> given h (VRef l) k = false.
Proof.
  intros H. unfold given, props_of. destruct (h !! l) as [o|] eqn:E; [|done].
  by rewrite (H o eq_refl).
Qed.

End ExecutorRuns.

(** X8: a response with a status from 200 to 299 always makes the executor
    return with success true, whatever the accepted status codes are (they
    are not looked at, so a value that is no sequence does no harm) and
    whether or not the body can be read (an unreadable body is reported as
    the empty text).  A rejected fetch is passed on unchanged.  The request
    goes to the URL given, with the method in upper case. *)
Theorem status_2xx_always_succeeds (P : Platform) (method url : string)
    (headers body codes : value) (s : state) :
  post (makeWebhookRequest P method url headers body codes) s (fun o s' =>
    (st_log s' = st_log s /\ exists f, o = Throw (TypeError P f)) \/
    exists req,
      st_log s' = st_log s ++ [req] /\
      req_url req = url /\ req_method req = Str.toUpperCase method /\
      match fetch_oracle P (st_log s) req with
      | Throw e => o = Throw e
      | Return resp =>
          is_2xx (status resp) = true ->
          o = Return (mkResult (status resp)
                        (match text resp with Return t => t | Throw _ => "" end)
                        (VBool true) None)
      end).
Proof.
  eapply post_mono; [apply makeWebhookRequest_spec|].
  intros o s' (t & hv & codes' & _ & _ & _ & _ & _ & Hout).
  destruct Hout as [(Hlog & _ & Hf) | [Hlog Ho]]; [by left|].
  right. eexists. split; [exact Hlog|]. split; [done|]. split; [done|].
  rewrite Ho. destruct (fetch_oracle P _ _) as [resp|e]; [|done].
  intros H2. by rewrite settle_2xx.
Qed.

(** X9: the Content-Type of a request with a body.  When the executor
    attaches the body and the headers are an object of the heap or are
    absent, exactly one request is sent, with the body; its headers are the
    ones given when they hold a truthy Content-Type or content-type, and
    otherwise the ones given with Content-Type set to application/json. *)
Theorem content_type_default (P : Platform) (method url : string)
    (headers body codes : value) (s : state) :
  attaches method body = true ->
  truthy headers = false \/
    (exists l, headers = VRef l /\ is_Some (st_heap s !! l)) ->
  exists req,
    st_log (makeWebhookRequest P method url headers body codes s).2
      = st_log s ++ [req] /\
    req_body req = Some body /\
    req_headers req =
      if given (st_heap s) headers "Content-Type"
         || given (st_heap s) headers "content-type"
      then props_of (st_heap s) headers
      else <["Content-Type" := VStr "application/json"]> (props_of (st_heap s) headers).
Proof.
  intros Hatt Hh. rewrite makeWebhookRequest_defaults.
  destruct (defaults_eq codes headers s) as (t & codes' & hv & -> & _ & Hhv).
  destruct Hh as [Hf | (l & -> & Hl)].
  - rewrite Hf in Hhv. destruct Hhv as (t1 & -> & ->).
    rewrite dispatch_ref. cbn [st_heap st_log]. rewrite Hatt. cbn [andb].
    assert (Hg : forall k,
      given ((st_heap s ++ t1 ++ [Obj Plain [] ∅])) (VRef (length (st_heap s ++ t1))) k
      = false).
    { intros k. apply given_blank. intros o. rewrite app_assoc.
      rewrite list_lookup_middle by done. by intros [= <-]. }
    rewrite !Hg. cbn [orb negb]. cbv zeta. cbn [snd st_heap st_log].
    eexists. split; [reflexivity|]. unfold sent. rewrite Hatt.
    cbn [req_body req_headers]. split; [done|].
    assert (Hp : props_of (st_heap s) headers = ∅) by (by destruct headers).
    assert (Hgh : forall k, given (st_heap s) headers k = false).
    { intros k. unfold given. by rewrite Hp. }
    rewrite !Hgh, Hp. cbn [orb].
    rewrite (app_assoc (st_heap s) t1). rewrite alter_fresh, props_of_fresh. done.
  - simpl in Hhv. destruct Hhv as [-> Ht].
    rewrite dispatch_ref. cbn [st_heap st_log]. rewrite Hatt. cbn [andb].
    rewrite !given_app_valid by done.
    destruct (given (st_heap s) (VRef l) "Content-Type"
              || given (st_heap s) (VRef l) "content-type");
      cbn [negb]; cbv zeta; cbn [snd st_heap st_log];
      (eexists; split; [reflexivity|]); unfold sent; rewrite Hatt;
      cbn [req_body req_headers]; (split; [done|]).
    + by apply props_of_app_valid.
    + rewrite props_of_alter_eq by (by apply is_Some_app).
      by rewrite props_of_app_valid.
Qed.

Lemma content_type_default_witness :
  let P := Sample.platform (Sample.replies 200 "") in
  exists req,
    st_log (makeWebhookRequest P "post" "https://api.example.com" VUndefined
              (VStr "{}") VUndefined (mkState [] [])).2 = [] ++ [req] /\
    req_body req = Some (VStr "{}") /\
    req_headers req = <["Content-Type" := VStr "application/json"]> ∅.
Proof.
  intros P.
  exact (content_type_default P "post" "https://api.example.com" VUndefined
           (VStr "{}") VUndefined (mkState [] []) eq_refl (or_introl eq_refl)).
Defined.

(** ** The anatomy of an invocation *)

Section Anatomy.
Context (P : Platform).

Lemma within_refl R n s : within R n s s.
Proof.
  split; [apply grows_refl|]. exists []. rewrite app_nil_r.
  split; [done|]. split; [simpl; lia | constructor].
Qed.

Lemma within_step {A} R (a n : nat) (m : M A) s s1 :
  steady m -> sends_upto a m -> sends R m -> within R n s s1 ->
  post m s1 (fun _ s2 => within R (n + a) s s2).
Proof.
  intros Hst Hup Hse [Hg (l & El & Hl & HR)]. unfold post.
  pose proof (Hst s1) as H1. pose proof (Hup s1) as H2. pose proof (Hse s1) as H3.
  unfold post in H1, H2, H3.
  destruct H2 as (l2 & E2 & Hl2). destruct H3 as (l3 & E3 & HR3).
  assert (l3 = l2) by (rewrite E2 in E3; by apply app_inv_head in E3). subst l3.
  split; [exact (grows_trans _ _ _ Hg H1)|].
  exists (l ++ l2). split; [by rewrite E2, El, app_assoc|].
  split; [rewrite length_app; lia | by apply Forall_app].
Qed.

Lemma within_quiet R s s' : within R 0 s s' -> st_log s' = st_log s.
Proof.
  intros [_ (l & E & Hl & _)].
  destruct l; [by rewrite app_nil_r in E | simpl in Hl; lia].
Qed.

Lemma within_mono R n n' s s' :
  (n <= n')%nat -> within R n s s' -> within R n' s s'.
Proof.
  intros Hn [Hg (l & E & Hl & HR)]. split; [done|]. exists l.
  split; [done|]. split; [lia | done].
Qed.

Lemma sends_parseRequestHeaders R rh : sends R (parseRequestHeaders P rh).
Proof. unfold parseRequestHeaders, new_object. sends. Qed.

Lemma sends_prepareBody R rb : sends R (prepareBody P rb).
Proof. unfold prepareBody. sends. Qed.

Lemma sends_parseAcceptedStatusCodes R codes :
  sends R (parseAcceptedStatusCodes P codes).
Proof. unfold parseAcceptedStatusCodes, new_array. sends. Qed.

Lemma sends_legacy_addAuthentication R ctx hv :
  sends R (Legacy.addAuthentication P ctx hv).
Proof. unfold Legacy.addAuthentication. sends. Qed.

Lemma sends_addUserAgent R hv : sends R (Bundle.addUserAgent P hv).
Proof. unfold Bundle.addUserAgent. sends. Qed.

Lemma sends_token_answer R resp : sends R (token_answer P resp).
Proof. unfold token_answer. sends. Qed.

Lemma sends_getClientCredentialsToken_to R config :
  (forall tu hs ob, truthy_str (Bundle.tokenUrl config) = Some tu ->
     R (mkRequest tu "POST" hs ob)) ->
  sends R (Bundle.getClientCredentialsToken P config).
Proof.
  intros HR.
  destruct (truthy_str (Bundle.tokenUrl config)) as [tu|] eqn:Htu;
    [destruct (truthy_str (Bundle.clientId config)) as [ci|] eqn:Hci;
      [destruct (truthy_str (Bundle.clientSecret config)) as [cs|] eqn:Hcs|]|].
  2-4: unfold Bundle.getClientCredentialsToken; rewrite ?Htu, ?Hci, ?Hcs; sends.
  rewrite (getClientCredentialsToken_unfold P _ _ _ _ Htu Hci Hcs).
  apply sends_bind; [sends|]; intros hv.
  apply sends_bind; [cbv zeta; sends|]; intros form.
  apply sends_bind; [|intros resp; apply sends_token_answer].
  apply sends_fetch. intros hs. by apply HR.
Qed.

Lemma sends_token_getAuthorizationHeader ctx :
  sends (token_request ctx) (Bundle.getAuthorizationHeader P ctx).
Proof.
  unfold Bundle.getAuthorizationHeader.
  repeat match goal with
  | |- sends _ (match field ?o ?k with _ => _ end) =>
      let E := fresh "E" in destruct (field o k) eqn:E
  end; try (sends; fail).
  all: apply sends_bind; [|intros tok; sends].
  all: apply sends_getClientCredentialsToken_to.
  all: intros tu hs ob [[= <-] _]%truthy_str_Some; by split.
Qed.

Lemma sends_token_addAuthentication ctx hv :
  sends (token_request ctx) (Bundle.addAuthentication P ctx hv).
Proof.
  unfold Bundle.addAuthentication. sends.
  all: apply sends_token_getAuthorizationHeader.
Qed.

Lemma steady_addUserAgent hv : steady (Bundle.addUserAgent P hv).
Proof. unfold Bundle.addUserAgent. steady. Qed.

Lemma steady_prepareBody rb : steady (prepareBody P rb).
Proof. unfold prepareBody. steady. Qed.

Lemma steady_parseAcceptedStatusCodes codes :
  steady (parseAcceptedStatusCodes P codes).
Proof. unfold parseAcceptedStatusCodes, new_array. steady. Qed.

Lemma steady_makeWebhookRequest method url headers body codes :
  steady (makeWebhookRequest P method url headers body codes).
Proof.
  intros s. eapply post_mono; [apply makeWebhookRequest_spec|].
  intros o s' (t & hv & codes' & _ & _ & _ & _ & Hheap & _).
  destruct Hheap as [-> | (l & _ & _ & ->)]; [apply grows_app|].
  eapply grows_trans; [apply grows_app | apply grows_alter].
Qed.

Lemma isArray_grows h h' v : grows h h' -> isArray h v = true -> isArray h' v = true.
Proof.
  intros Hg. destruct v as [| | | | |l]; try done. simpl.
  destruct (h !! l) as [[c es ps]|] eqn:E; [|done].
  destruct (Hg l _ E) as ([c' es' ps'] & -> & Hc & _). simpl in Hc. by subst c'.
Qed.

Lemma isArray_truthy h v : isArray h v = true -> truthy v = true.
Proof. by destruct v. Qed.

Lemma parseAcceptedStatusCodes_array codes s :
  isArray (st_heap s) codes = true ->
  (parseAcceptedStatusCodes P codes s).1 = Return codes.
Proof.
  intros Ha. unfold parseAcceptedStatusCodes, new_array, bind.
  rewrite alloc_spec, (isArray_truthy _ _ Ha). unfold get_heap. cbn [st_heap].
  by rewrite (isArray_grows _ _ _ (grows_app _ _) Ha).
Qed.

Lemma prepareBody_prepared rb s :
  post (prepareBody P rb) s (fun o s' =>
    s' = s /\ forall b, o = Return b -> prepared_as P rb b).
Proof.
  unfold prepareBody, prepared_as, post, bind, get_heap, lift, ret.
  destruct (truthy rb && String.eqb (typeof rb) "object").
  - destruct (JSON_stringify P (st_heap s) rb) as [t|e] eqn:E; simpl;
      (split; [done|]); intros b [= <-]. by eexists _, _.
  - simpl. split; [done|]. by intros b [= <-].
Qed.

(** The executor: either it fails before the request, or it sends the
    request and settles the response. *)
Lemma makeWebhookRequest_settles method url headers body codes s :
  post (makeWebhookRequest P method url headers body codes) s (fun o s' =>
    grows (st_heap s) (st_heap s') /\
    ((st_log s' = st_log s /\ exists e, o = Throw e) \/
     exists req codes',
       st_log s' = st_log s ++ [req] /\
       req_url req = url /\ req_method req = Str.toUpperCase method /\
       req_body req = (if attaches method body then Some body else None) /\
       (codes <> VUndefined -> codes' = codes) /\
       o = settle P (st_heap s') codes' (fetch_oracle P (st_log s) req))).
Proof.
  pose proof (steady_makeWebhookRequest method url headers body codes s) as Hst.
  pose proof (makeWebhookRequest_spec P method url headers body codes s) as Hsp.
  unfold post in *. split; [done|].
  destruct Hsp as (t & hv & codes' & _ & _ & _ & Hc & _ & Hout).
  destruct Hout as [(Hlog & _ & f & Hf) | [Hlog Ho]]; [left; eauto|].
  right. by eexists _, codes'.
Qed.

Lemma legacy_invoke_anatomy params ctx s :
  post (Legacy.invoke P params ctx) s (fun o s' =>
    grows (st_heap s) (st_heap s') /\
    ((st_log s' = st_log s /\ exists e, o = Throw e) \/
     exists m url req b codes,
       truthy_str (method params) = Some m /\
       Legacy.resolveURL params ctx = Return url /\
       st_log s' = st_log s ++ [req] /\
       req_url req = url /\ req_method req = Str.toUpperCase m /\
       prepared_as P (requestBody params) b /\
       req_body req = (if attaches m b then Some b else None) /\
       (exists s0 s1 c,
          parseAcceptedStatusCodes P (acceptedStatusCodes params) s0 = (Return c, s1) /\
          grows (st_heap s1) (st_heap s') /\ (c <> VUndefined -> codes = c)) /\
       (isArray (st_heap s) (acceptedStatusCodes params) = true ->
          codes = acceptedStatusCodes params) /\
       o = match settle P (st_heap s') codes (fetch_oracle P (st_log s) req) with
           | Return res => Return (stamped P (st_log s') res)
           | Throw e => Throw e
           end)).
Proof.
  set (R := fun _ : request => False).
  set (Q := fun (o : outcome ActionResult) (s' : state) => _).
  assert (Hfail : forall e s1, within R 0 s s1 -> Q (Throw e) s1).
  { intros e s1 Hw. split; [apply Hw|]. left. split; [by eapply within_quiet | eauto]. }
  unfold Legacy.invoke.
  destruct (truthy_str (method params)) as [m|] eqn:Hm;
    [|apply post_throw, Hfail, within_refl].
  apply post_bind, post_lift.
  destruct (Legacy.resolveURL params ctx) as [url|e] eqn:Hurl;
    [|apply Hfail, within_refl].
  eapply post_bind_with;
    [apply (within_step R 0 0 _ s s (steady_parseRequestHeaders P _)
              (quiet_parseRequestHeaders P _) (sends_parseRequestHeaders R _)
              (within_refl R 0 s))
    | | exact Hfail].
  intros hv s1 H1. cbn [Nat.add] in H1.
  eapply post_bind_with;
    [apply (within_step R 0 0 _ s s1 (steady_legacy_addAuthentication P _ _)
              (quiet_legacy_addAuthentication P _ _)
              (sends_legacy_addAuthentication R _ _) H1)
    | | exact Hfail].
  intros [] s2 H2. cbn [Nat.add] in H2.
  eapply post_bind_with; [apply prepareBody_prepared | |].
  2:{ intros e s3 [-> _]. by apply Hfail. }
  intros b s3 [-> Hb]. specialize (Hb b eq_refl).
  eapply post_bind_with with
    (R := fun o s4 => within R 0 s s4 /\
            parseAcceptedStatusCodes P (acceptedStatusCodes params) s2 = (o, s4) /\
            (isArray (st_heap s) (acceptedStatusCodes params) = true ->
               o = Return (acceptedStatusCodes params))).
  { pose proof (within_step R 0 0 _ s s2 (steady_parseAcceptedStatusCodes _)
                  (quiet_parseAcceptedStatusCodes P (acceptedStatusCodes params))
                  (sends_parseAcceptedStatusCodes R _) H2) as Hw.
    unfold post in *. split; [exact Hw|]. split; [apply surjective_pairing|].
    intros Ha. apply parseAcceptedStatusCodes_array.
    exact (isArray_grows _ _ _ (proj1 H2) Ha). }
  2:{ intros e s4 [Hw _]. by apply Hfail. }
  intros codes s4 (H4 & Hparsed & Hcodes).
  assert (Hcodes' : forall codes', (codes <> VUndefined -> codes' = codes) ->
            isArray (st_heap s) (acceptedStatusCodes params) = true ->
            codes' = acceptedStatusCodes params).
  { intros codes' Hc Ha. specialize (Hcodes Ha). injection Hcodes as ->.
    apply Hc. by destruct (acceptedStatusCodes params). }
  eapply post_bind_with; [apply makeWebhookRequest_settles | |].
  - intros res s5 [Hg [[_ [e [=]]] | (req & codes' & Hlog & Hu & Hmeth & Hbody & Hc & Ho)]].
    eapply post_eq; [apply stamp_spec|].
    split; [exact (grows_trans _ _ _ (proj1 H4) Hg)|]. right.
    exists m, url, req, b, codes'.
    rewrite (within_quiet _ _ _ H4) in Hlog, Ho.
    repeat (split; [done|]). split; [by eexists _, _, _|].
    split; [by apply Hcodes'|]. by rewrite <- Ho.
  - intros e s5 [Hg [[Hlog _] | (req & codes' & Hlog & Hu & Hmeth & Hbody & Hc & Ho)]].
    + split; [exact (grows_trans _ _ _ (proj1 H4) Hg)|]. left.
      split; [by rewrite Hlog, (within_quiet _ _ _ H4) | eauto].
    + split; [exact (grows_trans _ _ _ (proj1 H4) Hg)|]. right.
      exists m, url, req, b, codes'.
      rewrite (within_quiet _ _ _ H4) in Hlog, Ho.
      repeat (split; [done|]). split; [by eexists _, _, _|].
      split; [by apply Hcodes'|]. by rewrite <- Ho.
Qed.

(** The part the bundled and the templated action share: everything but
    the last step. *)
Lemma utilities_invoke_anatomy params ctx s (extra : value -> M unit)
    (last : WebhookResult -> M ActionResult)
    (verdict : heap -> list request -> WebhookResult -> outcome ActionResult) :
  (forall hv, steady (extra hv)) -> (forall hv, sends_upto 0 (extra hv)) ->
  (forall hv, sends (token_request ctx) (extra hv)) ->
  (forall res s1, last res s1 = (verdict (st_heap s1) (st_log s1) res, s1)) ->
  post
    (match truthy_str (method params) with
     | None => throw (Error "method is required")
     | Some method =>
         url <- lift (Bundle.resolveURL params ctx) ;;
         headers <- parseRequestHeaders P (requestHeaders params) ;;
         Bundle.addAuthentication P ctx headers ;;;
         extra headers ;;;
         body' <- prepareBody P (requestBody params) ;;
         acceptedStatusCodes <-
           parseAcceptedStatusCodes P (acceptedStatusCodes params) ;;
         result <- makeWebhookRequest P method url headers body' acceptedStatusCodes ;;
         last result
     end) s
    (fun o s' =>
    grows (st_heap s) (st_heap s') /\
    exists l, (length l <= 1)%nat /\ Forall (token_request ctx) l /\
    ((st_log s' = st_log s ++ l /\ exists e, o = Throw e) \/
     exists m url req b codes,
       truthy_str (method params) = Some m /\
       Bundle.resolveURL params ctx = Return url /\
       st_log s' = st_log s ++ l ++ [req] /\
       req_url req = url /\ req_method req = Str.toUpperCase m /\
       prepared_as P (requestBody params) b /\
       req_body req = (if attaches m b then Some b else None) /\
       (exists s0 s1 c,
          parseAcceptedStatusCodes P (acceptedStatusCodes params) s0 = (Return c, s1) /\
          grows (st_heap s1) (st_heap s') /\ (c <> VUndefined -> codes = c)) /\
       (isArray (st_heap s) (acceptedStatusCodes params) = true ->
          codes = acceptedStatusCodes params) /\
       o = match settle P (st_heap s') codes (fetch_oracle P (st_log s ++ l) req) with
           | Return res => verdict (st_heap s') (st_log s') res
           | Throw e => Throw e
           end)).
Proof.
  intros Hsteady Hquiet Hsends Hlast.
  set (R := token_request ctx).
  set (Q := fun (o : outcome ActionResult) (s' : state) => _).
  assert (Hfail : forall e s1, within R 1 s s1 -> Q (Throw e) s1).
  { intros e s1 [Hg (l & E & Hl & HR)]. split; [done|]. exists l.
    split; [done|]. split; [done|]. left. eauto. }
  assert (Hfail0 : forall e s1, within R 0 s s1 -> Q (Throw e) s1).
  { intros e s1 Hw. apply Hfail. revert Hw. apply within_mono. lia. }
  destruct (truthy_str (method params)) as [m|] eqn:Hm;
    [|apply post_throw, Hfail0, within_refl].
  apply post_bind, post_lift.
  destruct (Bundle.resolveURL params ctx) as [url|e] eqn:Hurl;
    [|apply Hfail0, within_refl].
  eapply post_bind_with;
    [apply (within_step R 0 0 _ s s (steady_parseRequestHeaders P _)
              (quiet_parseRequestHeaders P _) (sends_parseRequestHeaders R _)
              (within_refl R 0 s))
    | | exact Hfail0].
  intros hv s1 H1. cbn [Nat.add] in H1.
  eapply post_bind_with;
    [apply (within_step R 1 0 _ s s1 (steady_bundle_addAuthentication P _ _)
              (sends_upto_bundle_addAuthentication P _ _)
              (sends_token_addAuthentication _ _) H1)
    | | exact Hfail].
  intros [] s2 H2. cbn [Nat.add] in H2.
  eapply post_bind_with;
    [apply (within_step R 0 1 _ s s2 (Hsteady _) (Hquiet _) (Hsends _) H2)
    | | exact Hfail].
  intros [] s2' H2'. cbn [Nat.add] in H2'.
  eapply post_bind_with; [apply prepareBody_prepared | |].
  2:{ intros e s3 [-> _]. by apply Hfail. }
  intros b s3 [-> Hb]. specialize (Hb b eq_refl).
  eapply post_bind_with with
    (R := fun o s4 => within R 1 s s4 /\
            parseAcceptedStatusCodes P (acceptedStatusCodes params) s2' = (o, s4) /\
            (isArray (st_heap s) (acceptedStatusCodes params) = true ->
               o = Return (acceptedStatusCodes params))).
  { pose proof (within_step R 0 1 _ s s2' (steady_parseAcceptedStatusCodes _)
                  (quiet_parseAcceptedStatusCodes P (acceptedStatusCodes params))
                  (sends_parseAcceptedStatusCodes R _) H2') as Hw.
    unfold post in *. split; [exact Hw|]. split; [apply surjective_pairing|].
    intros Ha. apply parseAcceptedStatusCodes_array.
    exact (isArray_grows _ _ _ (proj1 H2') Ha). }
  2:{ intros e s4 [Hw _]. by apply Hfail. }
  intros codes s4 ([Hg4 (l & El & Hl & HR)] & Hparsed & Hcodes).
  assert (Hcodes' : forall codes', (codes <> VUndefined -> codes' = codes) ->
            isArray (st_heap s) (acceptedStatusCodes params) = true ->
            codes' = acceptedStatusCodes params).
  { intros codes' Hc Ha. specialize (Hcodes Ha). injection Hcodes as ->.
    apply Hc. by destruct (acceptedStatusCodes params). }
  eapply post_bind_with; [apply makeWebhookRequest_settles | |].
  - intros res s5 [Hg [[_ [e [=]]] | (req & codes' & Hlog & Hu & Hmeth & Hbody & Hc & Ho)]].
    rewrite El in Hlog, Ho. rewrite <- app_assoc in Hlog.
    pose proof (grows_trans _ _ _ Hg4 Hg) as Hg5.
    eapply post_eq; [apply Hlast|].
    split; [done|]. exists l. split; [done|]. split; [done|]. right.
    exists m, url, req, b, codes'.
    repeat (split; [done|]). split; [by eexists _, _, _|].
    split; [by apply Hcodes'|]. by rewrite <- Ho.
  - intros e s5 [Hg [[Hlog _] | (req & codes' & Hlog & Hu & Hmeth & Hbody & Hc & Ho)]].
    + apply Hfail. split; [exact (grows_trans _ _ _ Hg4 Hg)|].
      exists l. split; [by rewrite Hlog | done].
    + rewrite El in Hlog, Ho. rewrite <- app_assoc in Hlog.
      split; [exact (grows_trans _ _ _ Hg4 Hg)|]. exists l.
      split; [done|]. split; [done|]. right.
      exists m, url, req, b, codes'.
      repeat (split; [done|]). split; [by eexists _, _, _|].
      split; [by apply Hcodes'|]. by rewrite <- Ho.
Qed.

Lemma bundle_invoke_anatomy params ctx s :
  post (Bundle.invoke P params ctx) s (fun o s' =>
    grows (st_heap s) (st_heap s') /\
    exists l, (length l <= 1)%nat /\ Forall (token_request ctx) l /\
    ((st_log s' = st_log s ++ l /\ exists e, o = Throw e) \/
     exists m url req b codes,
       truthy_str (method params) = Some m /\
       Bundle.resolveURL params ctx = Return url /\
       st_log s' = st_log s ++ l ++ [req] /\
       req_url req = url /\ req_method req = Str.toUpperCase m /\
       prepared_as P (requestBody params) b /\
       req_body req = (if attaches m b then Some b else None) /\
       (exists s0 s1 c,
          parseAcceptedStatusCodes P (acceptedStatusCodes params) s0 = (Return c, s1) /\
          grows (st_heap s1) (st_heap s') /\ (c <> VUndefined -> codes = c)) /\
       (isArray (st_heap s) (acceptedStatusCodes params) = true ->
          codes = acceptedStatusCodes params) /\
       o = match settle P (st_heap s') codes (fetch_oracle P (st_log s ++ l) req) with
           | Return res =>
               if truthy (success res) then Return (stamped P (st_log s') res)
               else Throw (request_failed P (st_heap s') res)
           | Throw e => Throw e
           end)).
Proof.
  apply (utilities_invoke_anatomy params ctx s (Bundle.addUserAgent P)
           (fun result =>
              if negb (truthy (success result)) then
                h <- get_heap ;;
                throw (Error ("Request failed with status code: "
                              +:+ ToString P h (VNum (statusCode result))
                              +:+ ". Response body: " +:+ body result +:+ "."))
              else stamp P result)
           (fun h log res =>
              if truthy (success res) then Return (stamped P log res)
              else Throw (request_failed P h res))).
  - apply steady_addUserAgent.
  - apply quiet_addUserAgent.
  - intros hv. apply sends_addUserAgent.
  - intros res s1. by destruct (truthy (success res)).
Qed.

Lemma templated_invoke_anatomy resolve params ctx s :
  let rp := resolve params ctx in
  post (Templated.invoke P resolve params ctx) s (fun o s' =>
    grows (st_heap s) (st_heap s') /\
    exists l, (length l <= 1)%nat /\ Forall (token_request ctx) l /\
    ((st_log s' = st_log s ++ l /\ exists e, o = Throw e) \/
     exists m url req b codes,
       truthy_str (method rp) = Some m /\
       Bundle.resolveURL rp ctx = Return url /\
       st_log s' = st_log s ++ l ++ [req] /\
       req_url req = url /\ req_method req = Str.toUpperCase m /\
       prepared_as P (requestBody rp) b /\
       req_body req = (if attaches m b then Some b else None) /\
       (exists s0 s1 c,
          parseAcceptedStatusCodes P (acceptedStatusCodes rp) s0 = (Return c, s1) /\
          grows (st_heap s1) (st_heap s') /\ (c <> VUndefined -> codes = c)) /\
       (isArray (st_heap s) (acceptedStatusCodes rp) = true ->
          codes = acceptedStatusCodes rp) /\
       o = match settle P (st_heap s') codes (fetch_oracle P (st_log s ++ l) req) with
           | Return res => Return (stamped P (st_log s') res)
           | Throw e => Throw e
           end)).
Proof.
  intros rp.
  assert (E : Templated.invoke P resolve params ctx =
    match truthy_str (method rp) with
    | None => throw (Error "method is required")
    | Some method =>
        url <- lift (Bundle.resolveURL rp ctx) ;;
        headers <- parseRequestHeaders P (requestHeaders rp) ;;
        Bundle.addAuthentication P ctx headers ;;;
        ret tt ;;;
        body' <- prepareBody P (requestBody rp) ;;
        acceptedStatusCodes <- parseAcceptedStatusCodes P (acceptedStatusCodes rp) ;;
        result <- makeWebhookRequest P method url headers body' acceptedStatusCodes ;;
        stamp P result
    end).
  { reflexivity. }
  rewrite E.
  apply (utilities_invoke_anatomy rp ctx s (fun _ => ret tt) (stamp P)
           (fun h log res => Return (stamped P log res))).
  - intros hv. apply steady_ret.
  - intros hv. apply sends_nothing. sends.
  - intros hv. sends.
  - intros res s1. apply stamp_spec.
Qed.

End Anatomy.

Section AnatomyFacts.
Context (P : Platform).

Lemma settle_Return h codes r res :
  settle P h codes r = Return res ->
  exists resp v,
    r = Return resp /\
    res = mkResult (status resp) (text_or_empty resp) v None.
Proof.
  unfold settle. destruct r as [resp|e]; [|done].
  destruct (classify P h codes (status resp)) as [v|e]; [|done].
  intros [= <-]. by eexists _, _.
Qed.

Lemma settle_array h l elems ps r :
  h !! l = Some (Obj Array elems ps) ->
  settle P h (VRef l) r =
    match r with
    | Return resp =>
        Return (mkResult (status resp) (text_or_empty resp)
                  (VBool (accepted elems (status resp))) None)
    | Throw e => Throw e
    end.
Proof.
  intros Hl. unfold settle. destruct r as [resp|e]; [|done].
  by rewrite (classify_array _ _ _ _ _ _ Hl).
Qed.

Lemma grows_array h h' l elems ps :
  grows h h' -> h !! l = Some (Obj Array elems ps) ->
  exists ps', h' !! l = Some (Obj Array elems ps').
Proof.
  intros Hg Hl. destruct (Hg _ _ Hl) as ([c es ps'] & Hl' & Hc & He).
  simpl in Hc, He. subst. by eexists.
Qed.

Lemma isArray_array (h : list object) l elems ps :
  h !! l = Some (Obj Array elems ps) -> isArray h (VRef l) = true.
Proof. intros H. simpl. by rewrite H. Qed.

End AnatomyFacts.

(** X10: what a returning invocation has done.  When [invoke] returns, in any
    of the three versions, the last request it sent is the webhook call: to
    the composed URL, with the method in upper case and, when the method
    takes one, the body (the caller's text as it is, an object as its
    JSON.stringify text); the platform answered that call, and the result
    has status "success" and reports that answer's status and text with a
    timestamp.  The original action has sent nothing else; the other two at
    most one request before, to the token endpoint; the bundled action
    returns only a truthy success flag. *)
Theorem returning_invocation (P : Platform) (params : Params) (ctx : context)
    (s : state) :
  post (Legacy.invoke P params ctx) s (fun o s' => forall r, o = Return r ->
    exists m url req resp,
      truthy_str (method params) = Some m /\
      Legacy.resolveURL params ctx = Return url /\
      st_log s' = st_log s ++ [req] /\ webhook_call P params m url req /\
      fetch_oracle P (st_log s) req = Return resp /\
      reports P r resp (st_log s')) /\
  post (Bundle.invoke P params ctx) s (fun o s' => forall r, o = Return r ->
    exists l m url req resp,
      (length l <= 1)%nat /\ Forall (token_request ctx) l /\
      truthy_str (method params) = Some m /\
      Bundle.resolveURL params ctx = Return url /\
      st_log s' = st_log s ++ l ++ [req] /\ webhook_call P params m url req /\
      fetch_oracle P (st_log s ++ l) req = Return resp /\
      reports P r resp (st_log s') /\
      forall res, data r = Some res -> truthy (success res) = true) /\
  (forall resolve,
   let rp := resolve params ctx in
   post (Templated.invoke P resolve params ctx) s (fun o s' => forall r, o = Return r ->
    exists l m url req resp,
      (length l <= 1)%nat /\ Forall (token_request ctx) l /\
      truthy_str (method rp) = Some m /\
      Bundle.resolveURL rp ctx = Return url /\
      st_log s' = st_log s ++ l ++ [req] /\ webhook_call P rp m url req /\
      fetch_oracle P (st_log s ++ l) req = Return resp /\
      reports P r resp (st_log s'))).
Proof.
  split; [|split].
  - eapply post_mono; [apply legacy_invoke_anatomy|].
    intros o s' [_ [[_ [e ->]] | H]] r Hr; [done|].
    destruct H as (m & url & req & b & codes & Hm & Hu & Hlog & Hru & Hrm & Hb & Hrb & _ & _ & Ho).
    subst o.
    destruct (settle P _ _ _) as [res|e] eqn:Es; [|done].
    apply settle_Return in Es as (resp & v & Hresp & ->). injection Hr as <-.
    exists m, url, req, resp. repeat (split; [done|]).
    split; [split; [done|]; split; [done|]; by exists b|].
    split; [done|]. split; [done|]. by eexists.
  - eapply post_mono; [apply bundle_invoke_anatomy|].
    intros o s' [_ (l & Hl & HR & [[_ [e ->]] | H])] r Hr; [done|].
    destruct H as (m & url & req & b & codes & Hm & Hu & Hlog & Hru & Hrm & Hb & Hrb & _ & _ & Ho).
    subst o.
    destruct (settle P _ _ _) as [res|e] eqn:Es; [|done].
    apply settle_Return in Es as (resp & v & Hresp & ->).
    cbn [success] in Hr. destruct (truthy v) eqn:Hv; [|done]. injection Hr as <-.
    exists l, m, url, req, resp. repeat (split; [done|]).
    split; [split; [done|]; split; [done|]; by exists b|].
    split; [done|]. split; [split; [done|]; by eexists|].
    by intros res [= <-].
  - intros resolve rp. eapply post_mono; [apply templated_invoke_anatomy|].
    intros o s' [_ (l & Hl & HR & [[_ [e ->]] | H])] r Hr; [done|].
    destruct H as (m & url & req & b & codes & Hm & Hu & Hlog & Hru & Hrm & Hb & Hrb & _ & _ & Ho).
    subst o.
    destruct (settle P _ _ _) as [res|e] eqn:Es; [|done].
    apply settle_Return in Es as (resp & v & Hresp & ->). injection Hr as <-.
    exists l, m, url, req, resp. repeat (split; [done|]).
    split; [split; [done|]; split; [done|]; by exists b|].
    split; [done|]. split; [done|]. by eexists.
Qed.

(** X11: the original action is lenient.  With an array of accepted status
    codes, once the webhook call is answered the original action returns
    whatever the status is: the result carries success true when the status
    is 2xx or in the array, and success false otherwise; it does not throw
    on a status. *)
Theorem lenient_status_handling (P : Platform) (params : Params) (ctx : context)
    (s : state) (l0 : loc) (elems : list value) (ps : gmap string value) :
  acceptedStatusCodes params = VRef l0 ->
  st_heap s !! l0 = Some (Obj Array elems ps) ->
  post (Legacy.invoke P params ctx) s (fun o s' =>
    (st_log s' = st_log s /\ exists e, o = Throw e) \/
    exists req,
      st_log s' = st_log s ++ [req] /\
      match fetch_oracle P (st_log s) req with
      | Throw e => o = Throw e
      | Return resp =>
          o = Return (stamped P (st_log s')
                        (mkResult (status resp) (text_or_empty resp)
                           (VBool (accepted elems (status resp))) None))
      end).
Proof.
  intros Hc Hl. eapply post_mono; [apply legacy_invoke_anatomy|].
  intros o s' [Hg [H | H]]; [by left|]. right.
  destruct H as (m & url & req & b & codes & _ & _ & Hlog & _ & _ & _ & _ & _ & Hcodes & Ho).
  exists req. split; [done|].
  rewrite Hc in Hcodes. rewrite (Hcodes (isArray_array _ _ _ _ Hl)) in Ho.
  destruct (grows_array _ _ _ _ _ Hg Hl) as [ps' Hl'].
  rewrite (settle_array P _ _ _ _ _ Hl') in Ho.
  by destruct (fetch_oracle P _ _).
Qed.

Lemma lenient_status_handling_witness :
  let P := Sample.platform (Sample.replies 404 "Not Found") in
  let params :=
    mkParams (Some "GET") (Some "https://api.example.com") None
      VUndefined VUndefined (VRef 0) in
  let s := mkState [Obj Array [VNum 410] ∅] [] in
  post (Legacy.invoke P params Sample.no_context) s (fun o s' =>
    (st_log s' = st_log s /\ exists e, o = Throw e) \/
    exists req,
      st_log s' = st_log s ++ [req] /\
      match fetch_oracle P (st_log s) req with
      | Throw e => o = Throw e
      | Return resp =>
          o = Return (stamped P (st_log s')
                        (mkResult (status resp) (text_or_empty resp)
                           (VBool (accepted [VNum 410] (status resp))) None))
      end).
Proof.
  intros P params s.
  exact (lenient_status_handling P params Sample.no_context s 0 [VNum 410] ∅
           eq_refl eq_refl).
Defined.

(** X12: the bundled action is strict.  With an array of accepted status
    codes, once the webhook call is answered the bundled action returns
    (with success true) exactly when the status is 2xx or in the array; for
    every other status it throws "Request failed with status code: <status>.
    Response body: <text>.".  Before the webhook call it has sent at most
    the token request. *)
Theorem strict_status_handling (P : Platform) (params : Params) (ctx : context)
    (s : state) (l0 : loc) (elems : list value) (ps : gmap string value) :
  acceptedStatusCodes params = VRef l0 ->
  st_heap s !! l0 = Some (Obj Array elems ps) ->
  post (Bundle.invoke P params ctx) s (fun o s' =>
    exists l, (length l <= 1)%nat /\ Forall (token_request ctx) l /\
    ((st_log s' = st_log s ++ l /\ exists e, o = Throw e) \/
     exists req,
       st_log s' = st_log s ++ l ++ [req] /\
       match fetch_oracle P (st_log s ++ l) req with
       | Throw e => o = Throw e
       | Return resp =>
           let res := mkResult (status resp) (text_or_empty resp)
                        (VBool (accepted elems (status resp))) None in
           o = if accepted elems (status resp)
               then Return (stamped P (st_log s') res)
               else Throw (request_failed P (st_heap s') res)
       end)).
Proof.
  intros Hc Hl. eapply post_mono; [apply bundle_invoke_anatomy|].
  intros o s' [Hg (l & Hlen & HR & [H | H])]; exists l; (split; [done|]);
    (split; [done|]); [by left|]. right.
  destruct H as (m & url & req & b & codes & _ & _ & Hlog & _ & _ & _ & _ & _ & Hcodes & Ho).
  exists req. split; [done|].
  rewrite Hc in Hcodes. rewrite (Hcodes (isArray_array _ _ _ _ Hl)) in Ho.
  destruct (grows_array _ _ _ _ _ Hg Hl) as [ps' Hl'].
  rewrite (settle_array P _ _ _ _ _ Hl') in Ho.
  destruct (fetch_oracle P _ _) as [resp|e]; [|done].
  cbv zeta. cbn [success truthy] in Ho. done.
Qed.

Lemma strict_status_handling_witness :
  let P := Sample.platform (Sample.replies 404 "Not Found") in
  let params :=
    mkParams (Some "GET") (Some "https://api.example.com") None
      VUndefined VUndefined (VRef 0) in
  let s := mkState [Obj Array [VNum 410] ∅] [] in
  post (Bundle.invoke P params Sample.no_context) s (fun o s' =>
    exists l, (length l <= 1)%nat /\ Forall (token_request Sample.no_context) l /\
    ((st_log s' = st_log s ++ l /\ exists e, o = Throw e) \/
     exists req,
       st_log s' = st_log s ++ l ++ [req] /\
       match fetch_oracle P (st_log s ++ l) req with
       | Throw e => o = Throw e
       | Return resp =>
           let res := mkResult (status resp) (text_or_empty resp)
                        (VBool (accepted [VNum 410] (status resp))) None in
           o = if accepted [VNum 410] (status resp)
               then Return (stamped P (st_log s') res)
               else Throw (request_failed P (st_heap s') res)
       end)).
Proof.
  intros P params s.
  exact (strict_status_handling P params Sample.no_context s 0 [VNum 410] ∅
           eq_refl eq_refl).
Defined.

(** X13: the templated action is lenient as well.  With an array of accepted
    status codes among the resolved parameters, once the webhook call is
    answered the action returns whatever the status is, with success true
    when the status is 2xx or in the array and success false otherwise.
    Before the webhook call it has sent at most the token request. *)
Theorem templated_status_handling (P : Platform)
    (resolve : Params -> context -> Params) (params : Params) (ctx : context)
    (s : state) (l0 : loc) (elems : list value) (ps : gmap string value) :
  acceptedStatusCodes (resolve params ctx) = VRef l0 ->
  st_heap s !! l0 = Some (Obj Array elems ps) ->
  post (Templated.invoke P resolve params ctx) s (fun o s' =>
    exists l, (length l <= 1)%nat /\ Forall (token_request ctx) l /\
    ((st_log s' = st_log s ++ l /\ exists e, o = Throw e) \/
     exists req,
       st_log s' = st_log s ++ l ++ [req] /\
       match fetch_oracle P (st_log s ++ l) req with
       | Throw e => o = Throw e
       | Return resp =>
           o = Return (stamped P (st_log s')
                         (mkResult (status resp) (text_or_empty resp)
                            (VBool (accepted elems (status resp))) None))
       end)).
Proof.
  intros Hc Hl. eapply post_mono; [apply templated_invoke_anatomy|].
  intros o s' [Hg (l & Hlen & HR & [H | H])]; exists l; (split; [done|]);
    (split; [done|]); [by left|]. right.
  destruct H as (m & url & req & b & codes & _ & _ & Hlog & _ & _ & _ & _ & _ & Hcodes & Ho).
  exists req. split; [done|].
  rewrite Hc in Hcodes. rewrite (Hcodes (isArray_array _ _ _ _ Hl)) in Ho.
  destruct (grows_array _ _ _ _ _ Hg Hl) as [ps' Hl'].
  rewrite (settle_array P _ _ _ _ _ Hl') in Ho.
  by destruct (fetch_oracle P _ _).
Qed.

Lemma templated_status_handling_witness :
  let P := Sample.platform (Sample.replies 404 "Not Found") in
  let params :=
    mkParams (Some "GET") (Some "https://api.example.com") None
      VUndefined VUndefined (VRef 0) in
  let s := mkState [Obj Array [VNum 404] ∅] [] in
  post (Templated.invoke P (fun p _ => p) params Sample.no_context) s (fun o s' =>
    exists l, (length l <= 1)%nat /\ Forall (token_request Sample.no_context) l /\
    ((st_log s' = st_log s ++ l /\ exists e, o = Throw e) \/
     exists req,
       st_log s' = st_log s ++ l ++ [req] /\
       match fetch_oracle P (st_log s ++ l) req with
       | Throw e => o = Throw e
       | Return resp =>
           o = Return (stamped P (st_log s')
                         (mkResult (status resp) (text_or_empty resp)
                            (VBool (accepted [VNum 404] (status resp))) None))
       end)).
Proof.
  intros P params s.
  exact (templated_status_handling P (fun p _ => p) params Sample.no_context s 0
           [VNum 404] ∅ eq_refl eq_refl).
Defined.

Section Unparsable.
Context (P : Platform).

Lemma parseAcceptedStatusCodes_unparsable str e0 s :
  Str.nonempty str = true -> JSON_parse P str = Throw e0 ->
  (parseAcceptedStatusCodes P (VStr str) s).1
  = Throw (Error ("Failed to parse acceptedStatusCodes: " +:+ message e0)).
Proof.
  intros Hne Hp. unfold parseAcceptedStatusCodes, new_array, bind.
  rewrite alloc_spec. cbn [truthy]. rewrite Hne.
  unfold get_heap. cbn [isArray]. unfold try_catch, bind, lift. by rewrite Hp.
Qed.

Lemma failed_to_parse_is_fatal what m :
  let e := Error ("Failed to parse " +:+ what +:+ m) in
  mentions (message e) retry_words \/ error e = Throw e.
Proof.
  intros e. rewrite error_decision.
  destruct (existsb (Str.includes (message e)) retry_words) eqn:Er.
  - left. by apply mentions_existsb.
  - right.
    assert (Hf : existsb (Str.includes (message e)) fatal_words = true).
    { apply mentions_existsb. exists "Failed to parse".
      split; [right; by left|]. exists "", (" " +:+ what +:+ m).
      unfold e. cbn [message Error]. rewrite <- !str_app_assoc. reflexivity. }
    by rewrite Hf.
Qed.

End Unparsable.

(** X14: accepted status codes that cannot be parsed.  When the parameter is
    a non-empty string that JSON.parse refuses, the normaliser fails with
    "Failed to parse acceptedStatusCodes: " followed by the parser's message,
    and the invocation fails without making the webhook call: the original
    action has sent nothing, the bundled action at most the token request.
    The error handler rethrows that failure, unless the parser's message
    happens to hold one of the retry markers. *)
Theorem unparsable_status_codes (P : Platform) (params : Params) (ctx : context)
    (s : state) (str : string) (e0 : exn) :
  acceptedStatusCodes params = VStr str ->
  Str.nonempty str = true ->
  JSON_parse P str = Throw e0 ->
  let failure := Error ("Failed to parse acceptedStatusCodes: " +:+ message e0) in
  (forall s0, (parseAcceptedStatusCodes P (VStr str) s0).1 = Throw failure) /\
  (mentions (message failure) retry_words \/ error failure = Throw failure) /\
  post (Legacy.invoke P params ctx) s (fun o s' =>
    st_log s' = st_log s /\ exists e, o = Throw e) /\
  post (Bundle.invoke P params ctx) s (fun o s' =>
    exists l, (length l <= 1)%nat /\ Forall (token_request ctx) l /\
      st_log s' = st_log s ++ l /\ exists e, o = Throw e).
Proof.
  intros Hc Hne Hp failure.
  assert (Hparse : forall s0,
    (parseAcceptedStatusCodes P (VStr str) s0).1 = Throw failure)
    by (intros s0; by apply parseAcceptedStatusCodes_unparsable).
  split; [done|]. split.
  { apply (failed_to_parse_is_fatal "acceptedStatusCodes: " (message e0)). }
  split.
  - eapply post_mono; [apply legacy_invoke_anatomy|].
    intros o s' [_ [H | H]]; [done|]. exfalso.
    destruct H as (m & url & req & b & codes & _ & _ & _ & _ & _ & _ & _
                   & (s0 & s1 & c & Hs0 & _) & _).
    specialize (Hparse s0). rewrite <- Hc, Hs0 in Hparse. done.
  - eapply post_mono; [apply bundle_invoke_anatomy|].
    intros o s' [_ (l & Hlen & HR & [H | H])]; [by exists l|]. exfalso.
    destruct H as (m & url & req & b & codes & _ & _ & _ & _ & _ & _ & _
                   & (s0 & s1 & c & Hs0 & _) & _).
    specialize (Hparse s0). rewrite <- Hc, Hs0 in Hparse. done.
Qed.

Lemma unparsable_status_codes_witness :
  let P := Sample.platform (Sample.replies 200 "") in
  let params :=
    mkParams (Some "GET") (Some "https://api.example.com") None
      VUndefined VUndefined (VStr "not json") in
  let s := mkState [] [] in
  let failure :=
    Error ("Failed to parse acceptedStatusCodes: "
           +:+ message (mkExn "SyntaxError" "Unexpected token in JSON: not json")) in
  (forall s0, (parseAcceptedStatusCodes P (VStr "not json") s0).1 = Throw failure) /\
  (mentions (message failure) retry_words \/ error failure = Throw failure) /\
  post (Legacy.invoke P params Sample.no_context) s (fun o s' =>
    st_log s' = st_log s /\ exists e, o = Throw e) /\
  post (Bundle.invoke P params Sample.no_context) s (fun o s' =>
    exists l, (length l <= 1)%nat /\ Forall (token_request Sample.no_context) l /\
      st_log s' = st_log s ++ l /\ exists e, o = Throw e).
Proof.
  intros P params s.
  exact (unparsable_status_codes P params Sample.no_context s "not json"
           (mkExn "SyntaxError" "Unexpected token in JSON: not json")
           eq_refl eq_refl eq_refl).
Defined.

(** ** What an invocation writes *)

Lemma alloc_json_fresh : forall j (h : list object),
  exists t, (alloc_json j h).2 = h ++ t /\
    forall l, (alloc_json j h).1 = VRef l -> (length h <= l)%nat.
Proof.
  fix IH 1. intros [| b | n | s | items | fields] h; simpl;
    try (exists []; rewrite app_nil_r; split; [done | by intros l [=]]).
  - assert (H : forall h0, exists t,
      ((fix go (js : list json) (h : list object) : list value * list object :=
           match js with
           | [] => ([], h)
           | j :: js' =>
               let '(v, h1) := alloc_json j h in
               let '(vs, h2) := go js' h1 in
               (v :: vs, h2)
           end) items h0).2 = h0 ++ t).
    { induction items as [|j js IHjs]; intros h0; simpl.
      - exists []. by rewrite app_nil_r.
      - destruct (IH j h0) as (t1 & H1 & _).
        destruct (alloc_json j h0) as [v h1]. simpl in H1. subst h1.
        destruct (IHjs (h0 ++ t1)) as [t2 H2].
        destruct ((fix go (js : list json) (h : list object) := _) js (h0 ++ t1))
          as [vs h2]. simpl in *. subst h2.
        exists (t1 ++ t2). by rewrite app_assoc. }
    destruct (H h) as [t Ht].
    destruct ((fix go (js : list json) (h : list object) := _) items h) as [vs h'].
    simpl in *. subst h'. exists (t ++ [Obj Array vs ∅]).
    split; [by rewrite app_assoc|]. intros l [= <-]. rewrite length_app. lia.
  - assert (H : forall h0, exists t,
      ((fix go (fs : list (string * json)) (h : list object)
           : gmap string value * list object :=
           match fs with
           | [] => (∅, h)
           | (k, j) :: fs' =>
               let '(v, h1) := alloc_json j h in
               let '(ps, h2) := go fs' h1 in
               (match ps !! k with Some _ => ps | None => <[k := v]> ps end, h2)
           end) fields h0).2 = h0 ++ t).
    { induction fields as [|[k j] fs IHfs]; intros h0; simpl.
      - exists []. by rewrite app_nil_r.
      - destruct (IH j h0) as (t1 & H1 & _).
        destruct (alloc_json j h0) as [v h1]. simpl in H1. subst h1.
        destruct (IHfs (h0 ++ t1)) as [t2 H2].
        destruct ((fix go (fs : list (string * json)) (h : list object) := _) fs (h0 ++ t1))
          as [ps h2]. simpl in *. subst h2.
        exists (t1 ++ t2). by rewrite app_assoc. }
    destruct (H h) as [t Ht].
    destruct ((fix go (fs : list (string * json)) (h : list object) := _) fields h)
      as [ps h'].
    simpl in *. subst h'. exists (t ++ [Obj Plain [] ps]).
    split; [by rewrite app_assoc|]. intros l [= <-]. rewrite length_app. lia.
Qed.

Create HintDb framed.

Section Frame.
Context (P : Platform) (n : nat) (lh : option loc).

Lemma frame_refl h : frame n lh h h.
Proof. split; [done|]. intros l o _ H. by exists o. Qed.

Lemma frame_trans h1 h2 h3 :
  frame n lh h1 h2 -> frame n lh h2 h3 -> frame n lh h1 h3.
Proof.
  intros [L12 H12] [L23 H23]. split; [lia|].
  intros l o Hl H. destruct (H12 l o Hl H) as (o2 & H2 & E2 & C2 & El2 & P2).
  destruct (H23 l o2 Hl H2) as (o3 & H3 & E3 & C3 & El3 & P3).
  exists o3. split; [done|]. split; [intros Hne; by rewrite (E3 Hne), (E2 Hne)|].
  split; [congruence|]. split; [congruence|].
  intros k Hk. by rewrite (P3 k Hk), (P2 k Hk).
Qed.

Lemma frame_app (h t : list object) : frame n lh h (h ++ t).
Proof.
  split; [rewrite length_app; lia|].
  intros l o _ H. exists o. split; [by apply lookup_app_l_Some | done].
Qed.

Lemma frame_alter (h : list object) k x l' :
  Some l' = lh \/ (n <= l')%nat -> In k computed_headers ->
  frame n lh h (alter (set_own k x) l' h).
Proof.
  intros Hl' Hk. split; [by rewrite length_alter|].
  intros l o Hl H. destruct (decide (l' = l)) as [->|Hne].
  - exists (set_own k x o). rewrite list_lookup_alter_eq, H.
    split; [done|]. split; [intros Hlh; destruct Hl' as [?|?]; [done | lia]|].
    split; [done|]. split; [done|].
    intros k' Hk'. simpl. rewrite lookup_insert_ne; [done|]. by intros ->.
  - exists o. by rewrite list_lookup_alter_ne.
Qed.

Lemma framed_same {A} (m : M A) :
  (forall s, st_heap (m s).2 = st_heap s) -> framed n lh m.
Proof. intros H s _. unfold post. rewrite H. apply frame_refl. Qed.

Lemma framed_ret {A} (a : A) : framed n lh (ret a).
Proof. by apply framed_same. Qed.

Lemma framed_throw {A} e : framed n lh (@throw A e).
Proof. by apply framed_same. Qed.

Lemma framed_lift {A} (o : outcome A) : framed n lh (lift o).
Proof. by apply framed_same. Qed.

Lemma framed_get_heap : framed n lh get_heap.
Proof. by apply framed_same. Qed.

Lemma framed_get_log : framed n lh get_log.
Proof. by apply framed_same. Qed.

Lemma framed_get_prop v k : framed n lh (get_prop P v k).
Proof. apply framed_same. intros s. by destruct v. Qed.

Lemma framed_fetch url m hv ob : framed n lh (fetch P url m hv ob).
Proof. by apply framed_same. Qed.

Lemma framed_alloc ob : framed n lh (alloc ob).
Proof. intros s _. apply frame_app. Qed.

Lemma framed_materialise j : framed n lh (materialise j).
Proof.
  intros s _. unfold post, materialise.
  destruct (alloc_json_fresh j (st_heap s)) as (t & Ht & _).
  destruct (alloc_json j (st_heap s)) as [v h]. simpl in *. subst h. apply frame_app.
Qed.

Lemma framed_set_prop v k x :
  target n lh v -> In k computed_headers -> framed n lh (set_prop P v k x).
Proof.
  intros Hv Hk s _. destruct v as [| | | | |l]; try apply frame_refl.
  apply frame_alter; [by apply Hv | done].
Qed.

Lemma framed_bind {A B} (m : M A) (k : A -> M B) :
  framed n lh m -> (forall a, framed n lh (k a)) -> framed n lh (bind m k).
Proof.
  intros Hm Hk s Hs. eapply post_bind_with; [by apply Hm | | intros e s1 H; exact H].
  intros a s1 H1. eapply post_mono; [apply Hk; destruct H1; lia|].
  intros o s2 H2. exact (frame_trans _ _ _ H1 H2).
Qed.

(** As [framed_bind], with what is known of the value handed on. *)
Lemma framed_bind_val {A B} (Qa : A -> Prop) (m : M A) (k : A -> M B) :
  (forall s, (n <= length (st_heap s))%nat ->
     post m s (fun o s' =>
       frame n lh (st_heap s) (st_heap s') /\ forall a, o = Return a -> Qa a)) ->
  (forall a, Qa a -> framed n lh (k a)) -> framed n lh (bind m k).
Proof.
  intros Hm Hk s Hs. eapply post_bind_with; [by apply Hm | |].
  - intros a s1 [H1 Ha]. eapply post_mono; [apply Hk; [by apply Ha | destruct H1; lia]|].
    intros o s2 H2. exact (frame_trans _ _ _ H1 H2).
  - by intros e s1 [H1 _].
Qed.

Lemma framed_try_catch {A} (m : M A) h :
  framed n lh m -> (forall e, framed n lh (h e)) -> framed n lh (try_catch m h).
Proof.
  intros Hm Hh s Hs. apply post_try_catch. eapply post_mono; [by apply Hm|].
  intros [a|e] s1 H1; [done|]. eapply post_mono; [apply Hh; destruct H1; lia|].
  intros o s2 H2. exact (frame_trans _ _ _ H1 H2).
Qed.

(** A fresh object is a target. *)
Lemma alloc_target ob s :
  (n <= length (st_heap s))%nat ->
  post (alloc ob) s (fun o s' =>
    frame n lh (st_heap s) (st_heap s') /\ forall a, o = Return a -> target n lh a).
Proof.
  intros Hs. unfold post. rewrite alloc_spec. simpl. split; [apply frame_app|].
  intros a [= <-] l [= <-]. by right.
Qed.

Lemma materialise_target j s :
  (n <= length (st_heap s))%nat ->
  post (materialise j) s (fun o s' =>
    frame n lh (st_heap s) (st_heap s') /\ forall a, o = Return a -> target n lh a).
Proof.
  intros Hs. unfold post, materialise.
  destruct (alloc_json_fresh j (st_heap s)) as (t & Ht & Hv).
  destruct (alloc_json j (st_heap s)) as [v h]. simpl in *. subst h.
  split; [apply frame_app|]. intros a [= <-] l Hl. right. specialize (Hv l Hl). lia.
Qed.

End Frame.

#[global] Hint Resolve framed_ret framed_throw framed_lift framed_get_heap
  framed_get_log framed_get_prop framed_fetch framed_alloc framed_materialise
  : framed.

Ltac framed :=
  repeat first
    [ progress auto with framed
    | apply framed_set_prop; [assumption | unfold computed_headers; simpl; tauto]
    | apply framed_bind; [|intros ?]
    | apply framed_try_catch; [|intros ?]
    | match goal with
      | |- framed _ _ (if ?c then _ else _) => destruct c
      | |- framed _ _ (match ?x with _ => _ end) => destruct x
      end ].

Section FramedSteps.
Context (P : Platform) (n : nat) (lh : option loc).

Lemma framed_token_answer resp : framed n lh (token_answer P resp).
Proof. unfold token_answer. framed. Qed.

Lemma framed_getClientCredentialsToken config :
  framed n lh (Bundle.getClientCredentialsToken P config).
Proof.
  destruct (truthy_str (Bundle.tokenUrl config)) as [tu|] eqn:Htu;
    [destruct (truthy_str (Bundle.clientId config)) as [ci|] eqn:Hci;
      [destruct (truthy_str (Bundle.clientSecret config)) as [cs|] eqn:Hcs|]|].
  2-4: unfold Bundle.getClientCredentialsToken; rewrite ?Htu, ?Hci, ?Hcs; framed.
  rewrite (getClientCredentialsToken_unfold P _ _ _ _ Htu Hci Hcs).
  apply (framed_bind_val n lh (target n lh)); [apply alloc_target|].
  intros hv Hhv. cbv zeta.
  apply framed_bind; [framed|]. intros form.
  apply framed_bind; [framed|]. intros resp. apply framed_token_answer.
Qed.

Lemma framed_getAuthorizationHeader ctx :
  framed n lh (Bundle.getAuthorizationHeader P ctx).
Proof.
  unfold Bundle.getAuthorizationHeader.
  repeat match goal with
  | |- framed _ _ (match field ?o ?k with _ => _ end) => destruct (field o k)
  end; try (framed; fail).
  all: apply framed_bind; [apply framed_getClientCredentialsToken | intros tok; framed].
Qed.

Lemma framed_bundle_addAuthentication ctx hv :
  target n lh hv -> framed n lh (Bundle.addAuthentication P ctx hv).
Proof.
  intros Hhv. unfold Bundle.addAuthentication.
  pose proof (framed_getAuthorizationHeader ctx). framed.
Qed.

Lemma framed_legacy_addAuthentication ctx hv :
  target n lh hv -> framed n lh (Legacy.addAuthentication P ctx hv).
Proof. intros Hhv. unfold Legacy.addAuthentication. framed. Qed.

Lemma framed_addUserAgent hv :
  target n lh hv -> framed n lh (Bundle.addUserAgent P hv).
Proof. intros Hhv. unfold Bundle.addUserAgent. framed. Qed.

Lemma framed_prepareBody rb : framed n lh (prepareBody P rb).
Proof. unfold prepareBody. framed. Qed.

Lemma framed_parseAcceptedStatusCodes codes :
  framed n lh (parseAcceptedStatusCodes P codes).
Proof. unfold parseAcceptedStatusCodes, new_array. framed. Qed.

Lemma framed_includes_call a x : framed n lh (includes_call P a x).
Proof.
  apply framed_same. intros s. rewrite includes_call_state. done.
Qed.

Lemma framed_dispatch method url hv body codes :
  target n lh hv -> framed n lh (dispatch P method url hv body codes).
Proof.
  intros Hhv. unfold dispatch, content_type_block.
  pose proof framed_includes_call. framed.
Qed.

Lemma framed_makeWebhookRequest method url headers body codes :
  target n lh headers ->
  framed n lh (makeWebhookRequest P method url headers body codes).
Proof.
  intros Hh. rewrite makeWebhookRequest_unfold.
  apply framed_bind; [unfold new_array; framed|]. intros codes'.
  apply (framed_bind_val n lh (target n lh)).
  - intros s Hs. destruct (truthy headers).
    + unfold post, ret. simpl. split; [apply frame_refl | by intros a [= <-]].
    + by apply alloc_target.
  - intros hv Hhv. by apply framed_dispatch.
Qed.

Lemma framed_stamp r : framed n lh (stamp P r).
Proof. unfold stamp. framed. Qed.

End FramedSteps.

Section FramedInvoke.
Context (P : Platform).

Lemma parseRequestHeaders_target n rh s :
  (n <= length (st_heap s))%nat ->
  let lh := match rh with VRef l => Some l | _ => None end in
  post (parseRequestHeaders P rh) s (fun o s' =>
    frame n lh (st_heap s) (st_heap s') /\ forall a, o = Return a -> target n lh a).
Proof.
  intros Hs lh. unfold parseRequestHeaders.
  eapply post_bind_with; [by apply alloc_target | |].
  2:{ by intros e s1 [H _]. }
  intros hv s1 [H1 Hhv]. specialize (Hhv hv eq_refl).
  assert (Hs1 : (n <= length (st_heap s1))%nat) by (destruct H1; lia).
  assert (Hret : post (ret hv) s1 (fun o s' =>
            frame n lh (st_heap s) (st_heap s') /\
            forall a, o = Return a -> target n lh a)).
  { unfold post, ret. simpl. split; [done | by intros a [= <-]]. }
  destruct (truthy rh); [|exact Hret].
  apply post_try_catch. destruct rh as [| |b|z|str|l]; try exact Hret.
  - apply post_bind, post_lift. destruct (JSON_parse P str) as [j|e].
    + eapply post_mono; [by apply (materialise_target n lh)|].
      intros [v|e] s2 [H2 Hv]; (split; [exact (frame_trans _ _ _ _ _ H1 H2)|]);
        [exact Hv | done].
    + apply post_throw. by split.
  - unfold post, ret. simpl. split; [done|]. intros a [= <-] l' [= <-]. by left.
Qed.

Lemma framed_legacy_invoke params ctx s :
  post (Legacy.invoke P params ctx) s (fun _ s' =>
    frame (length (st_heap s)) (headers_object params) (st_heap s) (st_heap s')).
Proof.
  set (n := length (st_heap s)). set (lh := headers_object params).
  assert (H : framed n lh (Legacy.invoke P params ctx)); [|by apply H].
  unfold Legacy.invoke. destruct (truthy_str (method params)) as [m|]; [|framed].
  apply framed_bind; [framed|]. intros url.
  apply (framed_bind_val n lh (target n lh));
    [intros s0 Hs0; by apply parseRequestHeaders_target|].
  intros hv Hhv.
  apply framed_bind; [by apply framed_legacy_addAuthentication|]. intros _.
  apply framed_bind; [apply framed_prepareBody|]. intros b.
  apply framed_bind; [apply framed_parseAcceptedStatusCodes|]. intros codes.
  apply framed_bind; [by apply framed_makeWebhookRequest|]. intros res.
  apply framed_stamp.
Qed.

Lemma framed_bundle_invoke params ctx s :
  post (Bundle.invoke P params ctx) s (fun _ s' =>
    frame (length (st_heap s)) (headers_object params) (st_heap s) (st_heap s')).
Proof.
  set (n := length (st_heap s)). set (lh := headers_object params).
  assert (H : framed n lh (Bundle.invoke P params ctx)); [|by apply H].
  unfold Bundle.invoke. destruct (truthy_str (method params)) as [m|]; [|framed].
  apply framed_bind; [framed|]. intros url.
  apply (framed_bind_val n lh (target n lh));
    [intros s0 Hs0; by apply parseRequestHeaders_target|].
  intros hv Hhv.
  apply framed_bind; [by apply framed_bundle_addAuthentication|]. intros _.
  apply framed_bind; [by apply framed_addUserAgent|]. intros _.
  apply framed_bind; [apply framed_prepareBody|]. intros b.
  apply framed_bind; [apply framed_parseAcceptedStatusCodes|]. intros codes.
  apply framed_bind; [by apply framed_makeWebhookRequest|]. intros res.
  destruct (negb _); [framed | apply framed_stamp].
Qed.

Lemma framed_templated_invoke resolve params ctx s :
  post (Templated.invoke P resolve params ctx) s (fun _ s' =>
    frame (length (st_heap s)) (headers_object (resolve params ctx))
      (st_heap s) (st_heap s')).
Proof.
  set (n := length (st_heap s)). set (lh := headers_object (resolve params ctx)).
  assert (H : framed n lh (Templated.invoke P resolve params ctx)); [|by apply H].
  unfold Templated.invoke. cbv zeta.
  destruct (truthy_str (method (resolve params ctx))) as [m|]; [|framed].
  apply framed_bind; [framed|]. intros url.
  apply (framed_bind_val n lh (target n lh));
    [intros s0 Hs0; by apply parseRequestHeaders_target|].
  intros hv Hhv.
  apply framed_bind; [by apply framed_bundle_addAuthentication|]. intros _.
  apply framed_bind; [apply framed_prepareBody|]. intros b.
  apply framed_bind; [apply framed_parseAcceptedStatusCodes|]. intros codes.
  apply framed_bind; [by apply framed_makeWebhookRequest|]. intros res.
  apply framed_stamp.
Qed.

Lemma frame_objects n lh (h h' : list object) l o :
  frame n lh h h' -> n = length h -> h !! l = Some o ->
  exists o', h' !! l = Some o' /\
    (Some l <> lh -> o' = o) /\
    o_class o' = o_class o /\ o_elems o' = o_elems o /\
    forall k, ~ In k computed_headers -> o_props o' !! k = o_props o !! k.
Proof.
  intros [_ H] -> Hl. apply H; [|done]. by eapply lookup_lt_Some.
Qed.

End FramedInvoke.

(** X15: what an invocation may write.  Whatever an invocation does, every
    object the heap held before is still there with its class and its
    elements; every object other than the mapping handed in as
    [requestHeaders] is exactly as it was (so an object given as the request
    body and an array given as the accepted status codes are never
    modified), and in that mapping only the properties Authorization,
    User-Agent and Content-Type can differ.  This holds for the original,
    the bundled and the templated action, on return and on failure. *)
Theorem invocation_writes_only_computed_headers (P : Platform) (params : Params)
    (ctx : context) (s : state) :
  let unchanged lh (s' : state) :=
    forall l o, st_heap s !! l = Some o ->
      exists o', st_heap s' !! l = Some o' /\
        (Some l <> lh -> o' = o) /\
        o_class o' = o_class o /\ o_elems o' = o_elems o /\
        forall k, ~ In k ["Authorization"; "User-Agent"; "Content-Type"] ->
          o_props o' !! k = o_props o !! k in
  post (Legacy.invoke P params ctx) s (fun _ s' =>
    unchanged (headers_object params) s') /\
  post (Bundle.invoke P params ctx) s (fun _ s' =>
    unchanged (headers_object params) s') /\
  (forall resolve,
     post (Templated.invoke P resolve params ctx) s (fun _ s' =>
       unchanged (headers_object (resolve params ctx)) s')).
Proof.
  intros unchanged. split; [|split; [|intros resolve]].
  - eapply post_mono; [apply framed_legacy_invoke|].
    intros out s' H l o Hl. by apply (frame_objects _ _ _ _ _ _ H).
  - eapply post_mono; [apply framed_bundle_invoke|].
    intros out s' H l o Hl. by apply (frame_objects _ _ _ _ _ _ H).
  - eapply post_mono; [apply framed_templated_invoke|].
    intros out s' H l o Hl. by apply (frame_objects _ _ _ _ _ _ H).
Qed.

(** ** Headers that are given are kept *)

Section Keeps.
Context (P : Platform) (l : loc).

Lemma pairs_apart k k' a b :
  In (k, k') header_pairs -> In (a, b) header_pairs -> k' <> a.
Proof.
  unfold header_pairs. simpl.
  intros [[= <- <-]|[[= <- <-]|[[= <- <-]|[]]]] [[= <- <-]|[[= <- <-]|[[= <- <-]|[]]]];
    discriminate.
Qed.

Lemma pairs_functional k k' b :
  In (k, k') header_pairs -> In (k, b) header_pairs -> b = k'.
Proof.
  unfold header_pairs. simpl.
  intros [[= <- <-]|[[= <- <-]|[[= <- <-]|[]]]] [[=]|[[=]|[[=]|[]]]]; congruence.
Qed.

Lemma guarded_twin h k k' : In (k, k') header_pairs -> guarded h l k'.
Proof. intros Hin a b Hab ->. by destruct (pairs_apart _ _ _ _ Hin Hab). Qed.

Lemma keeps_refl h : is_Some (h !! l) -> keeps l h h.
Proof. by split. Qed.

Lemma keeps_guarded h h' q : keeps l h h' -> guarded h l q -> guarded h' l q.
Proof.
  intros [_ Hk] Hq k k' Hin ->. specialize (Hq k k' Hin eq_refl).
  unfold given in *.
  rewrite (Hk k) by (intros a b Hab <-; by rewrite (pairs_functional _ _ _ Hin Hab)).
  by rewrite (Hk k' (guarded_twin _ _ _ Hin)).
Qed.

Lemma keeps_trans h1 h2 h3 : keeps l h1 h2 -> keeps l h2 h3 -> keeps l h1 h3.
Proof.
  intros H12 [Hl3 H23]. split; [done|].
  intros q Hq. rewrite (H23 q (keeps_guarded _ _ _ H12 Hq)). by apply H12.
Qed.

Lemma keeps_app (h t : list object) : is_Some (h !! l) -> keeps l h (h ++ t).
Proof.
  intros Hl. split; [by apply is_Some_app|].
  intros q _. by rewrite props_of_app_valid.
Qed.

Lemma frame_props n (h h' : list object) :
  frame n None h h' -> (n <= length h)%nat -> (l < n)%nat ->
  is_Some (h' !! l) /\ props_of h' (VRef l) = props_of h (VRef l).
Proof.
  intros [_ H] Hn Hl.
  destruct (lookup_lt_is_Some_2 h l ltac:(lia)) as [o Ho].
  destruct (H l o Hl Ho) as (o' & Ho' & E & _). rewrite (E ltac:(done)) in Ho'.
  split; [by eexists|]. unfold props_of. by rewrite Ho, Ho'.
Qed.

Lemma keeps_frame n h h' :
  frame n None h h' -> (n <= length h)%nat -> (l < n)%nat -> keeps l h h'.
Proof.
  intros Hf Hn Hl. destruct (frame_props _ _ _ Hf Hn Hl) as [Hs Hp].
  split; [done|]. intros q _. by rewrite Hp.
Qed.

Lemma keeps_alter h k k' x :
  is_Some (h !! l) -> In (k, k') header_pairs ->
  given h (VRef l) k || given h (VRef l) k' = false ->
  keeps l h (alter (set_own k x) l h).
Proof.
  intros Hl Hin Hg. split; [by apply is_Some_alter|].
  intros q Hq. rewrite props_of_alter_eq by done.
  destruct (decide (q = k)) as [->|Hne].
  - specialize (Hq k k' Hin eq_refl). congruence.
  - by rewrite lookup_insert_ne.
Qed.

Lemma keeps_set_unless k k' x s :
  is_Some (st_heap s !! l) -> In (k, k') header_pairs ->
  post (a <- get_prop P (VRef l) k ;;
        if truthy a then ret tt else
          a' <- get_prop P (VRef l) k' ;;
          if truthy a' then ret tt else set_prop P (VRef l) k x) s
    (fun _ s' => keeps l (st_heap s) (st_heap s')).
Proof.
  intros Hl Hin. eapply post_eq; [apply set_unless_given_eq|].
  destruct (given (st_heap s) (VRef l) k || given (st_heap s) (VRef l) k') eqn:Hg.
  - by apply keeps_refl.
  - by apply (keeps_alter _ k k').
Qed.

Lemma keeps_legacy_addAuthentication ctx s :
  is_Some (st_heap s !! l) ->
  post (Legacy.addAuthentication P ctx (VRef l)) s
    (fun _ s' => keeps l (st_heap s) (st_heap s')).
Proof.
  intros Hl. unfold Legacy.addAuthentication.
  destruct (field (secrets ctx) "BEARER_AUTH_TOKEN");
    [|by apply post_ret, keeps_refl].
  apply keeps_set_unless; [done|]. by left.
Qed.

Lemma keeps_bundle_addAuthentication ctx s :
  is_Some (st_heap s !! l) ->
  post (Bundle.addAuthentication P ctx (VRef l)) s
    (fun _ s' => keeps l (st_heap s) (st_heap s')).
Proof.
  intros Hl. unfold post. rewrite addAuthentication_unfold.
  destruct (given (st_heap s) (VRef l) "Authorization"
            || given (st_heap s) (VRef l) "authorization") eqn:Hg;
    [by apply keeps_refl|].
  pose proof (framed_getAuthorizationHeader P (length (st_heap s)) None ctx s
                ltac:(done)) as Hf.
  unfold post in Hf.
  assert (Hlt : (l < length (st_heap s))%nat) by (by apply lookup_lt_is_Some_1).
  pose proof (keeps_frame _ _ _ Hf ltac:(done) Hlt) as Hk.
  pose proof (frame_props _ _ _ Hf ltac:(done) Hlt) as [Hs1 Hp].
  destruct (Bundle.getAuthorizationHeader P ctx s) as [[a|e] s1]; simpl in *.
  - eapply keeps_trans; [exact Hk|].
    apply (keeps_alter _ "Authorization" "authorization"); [done | by left |].
    unfold given in *. simpl. by rewrite Hp.
  - by destruct (Str.includes (message e) no_auth).
Qed.

Lemma keeps_addUserAgent s :
  is_Some (st_heap s !! l) ->
  post (Bundle.addUserAgent P (VRef l)) s
    (fun _ s' => keeps l (st_heap s) (st_heap s')).
Proof.
  intros Hl. apply keeps_set_unless; [done|]. right. by left.
Qed.

Lemma keeps_makeWebhookRequest method url body codes s :
  is_Some (st_heap s !! l) ->
  post (makeWebhookRequest P method url (VRef l) body codes) s
    (fun _ s' => keeps l (st_heap s) (st_heap s')).
Proof.
  intros Hl. unfold post. rewrite makeWebhookRequest_defaults.
  destruct (defaults_eq codes (VRef l) s) as (t & codes' & hv & -> & _ & Hhv).
  simpl in Hhv. destruct Hhv as [-> _].
  rewrite dispatch_ref. cbn [st_heap st_log]. cbv zeta. cbn [snd st_heap].
  pose proof (keeps_app _ t Hl) as Happ.
  destruct (attaches method body &&
            negb (given (st_heap s ++ t) (VRef l) "Content-Type"
                  || given (st_heap s ++ t) (VRef l) "content-type")) eqn:Hc;
    cbn [st_heap snd]; [|done].
  eapply keeps_trans; [exact Happ|].
  apply andb_true_iff in Hc as [_ Hc]. apply negb_true_iff in Hc.
  apply (keeps_alter _ "Content-Type" "content-type"); [apply Happ | | done].
  right; right; by left.
Qed.

End Keeps.

Lemma post_conj {A} (m : M A) s (Q1 Q2 : outcome A -> state -> Prop) :
  post m s Q1 -> post m s Q2 -> post m s (fun o s' => Q1 o s' /\ Q2 o s').
Proof. unfold post. auto. Qed.

Section KeepsInvoke.
Context (P : Platform).

(** The end of every [invoke], from the normalised accepted codes on. *)
Lemma keeps_to_the_request l method url body codes s0 s :
  keeps l (st_heap s0) (st_heap s) ->
  post (makeWebhookRequest P method url (VRef l) body codes) s (fun o s' =>
    keeps l (st_heap s0) (st_heap s') /\
    forall res, o = Return res ->
      exists req, st_log s' = st_log s ++ [req] /\
        req_headers req = props_of (st_heap s') (VRef l)).
Proof.
  intros Hk.
  eapply post_mono;
    [apply (post_conj _ _ _ _
              (keeps_makeWebhookRequest P l method url body codes s (proj1 Hk))
              (makeWebhookRequest_headers P method url l body codes s))|].
  intros o s' [H1 [H2 _]]. split; [exact (keeps_trans _ _ _ _ Hk H1) | done].
Qed.

Lemma keeps_allocates l s0 s s' :
  keeps l (st_heap s0) (st_heap s) -> allocates s s' ->
  keeps l (st_heap s0) (st_heap s').
Proof.
  intros Hk [_ [t ->]]. eapply keeps_trans; [exact Hk|]. apply keeps_app, Hk.
Qed.

(** The end of every [invoke], from the request body on; [last] is what
    the version does with the executor's result. *)
Lemma tail_keeps l m url rb asc (last : WebhookResult -> M ActionResult) s0 s :
  (forall res s1, (last res s1).2 = s1) ->
  keeps l (st_heap s0) (st_heap s) ->
  post (body' <- prepareBody P rb ;;
        acceptedStatusCodes <- parseAcceptedStatusCodes P asc ;;
        result <- makeWebhookRequest P m url (VRef l) body' acceptedStatusCodes ;;
        last result) s
    (fun o s' => forall r, o = Return r ->
       keeps l (st_heap s0) (st_heap s') /\
       exists req, st_log s' = st_log s ++ [req] /\
         req_headers req = props_of (st_heap s') (VRef l)).
Proof.
  intros Hlast K.
  eapply post_bind_with; [apply prepareBody_state | | done].
  intros body' s3 ->.
  eapply post_bind_with; [apply parseAcceptedStatusCodes_spec | | done].
  intros codes s4 H4. pose proof (keeps_allocates _ _ _ _ K H4) as K4.
  eapply post_bind_with; [by apply (keeps_to_the_request l _ _ _ _ s0) | | done].
  intros res s5 [K5 Hreq]. unfold post. rewrite Hlast.
  intros r _. split; [done|].
  destruct (Hreq res eq_refl) as (req & Hlog & Hh).
  exists req. destruct H4 as [<- _]. done.
Qed.

Lemma stamp_state r s : (stamp P r s).2 = s.
Proof. reflexivity. Qed.

Lemma strict_state (res : WebhookResult) s :
  ((if negb (truthy (success res)) then
      h <- get_heap ;;
      throw (Error ("Request failed with status code: "
                    +:+ ToString P h (VNum (statusCode res))
                    +:+ ". Response body: " +:+ body res +:+ "."))
    else stamp P res) s).2 = s.
Proof. by destruct (negb (truthy (success res))). Qed.

Lemma legacy_invoke_keeps params ctx s l s1 :
  parseRequestHeaders P (requestHeaders params) s = (Return (VRef l), s1) ->
  is_Some (st_heap s1 !! l) ->
  post (Legacy.invoke P params ctx) s (fun o s' => forall r, o = Return r ->
    keeps l (st_heap s1) (st_heap s') /\
    exists req, last (st_log s') = Some req /\
      req_headers req = props_of (st_heap s') (VRef l)).
Proof.
  intros Hparse Hl. unfold Legacy.invoke.
  destruct (truthy_str (method params)) as [m|]; [|done].
  apply post_bind, post_lift. destruct (Legacy.resolveURL params ctx) as [url|e]; [|done].
  apply post_bind. eapply post_eq; [exact Hparse|].
  eapply post_bind_with; [by apply keeps_legacy_addAuthentication | | done].
  intros [] s2 H2.
  eapply post_mono; [apply (tail_keeps l _ _ _ _ _ s1 s2 (stamp_state) H2)|].
  intros o s' H r Hr. destruct (H r Hr) as (K & req & Hlog & Hh).
  split; [done|]. exists req. by rewrite Hlog, last_snoc.
Qed.

Lemma bundle_invoke_keeps params ctx s l s1 :
  parseRequestHeaders P (requestHeaders params) s = (Return (VRef l), s1) ->
  is_Some (st_heap s1 !! l) ->
  post (Bundle.invoke P params ctx) s (fun o s' => forall r, o = Return r ->
    keeps l (st_heap s1) (st_heap s') /\
    exists req, last (st_log s') = Some req /\
      req_headers req = props_of (st_heap s') (VRef l)).
Proof.
  intros Hparse Hl. unfold Bundle.invoke.
  destruct (truthy_str (method params)) as [m|]; [|done].
  apply post_bind, post_lift. destruct (Bundle.resolveURL params ctx) as [url|e]; [|done].
  apply post_bind. eapply post_eq; [exact Hparse|].
  eapply post_bind_with; [by apply keeps_bundle_addAuthentication | | done].
  intros [] s2 H2.
  eapply post_bind_with; [apply keeps_addUserAgent, H2 | | done].
  intros [] s2' H2'. pose proof (keeps_trans _ _ _ _ H2 H2') as K2.
  eapply post_mono; [apply (tail_keeps l _ _ _ _ _ s1 s2' (strict_state) K2)|].
  intros o s' H r Hr. destruct (H r Hr) as (K & req & Hlog & Hh).
  split; [done|]. exists req. by rewrite Hlog, last_snoc.
Qed.

Lemma templated_invoke_keeps resolve params ctx s l s1 :
  parseRequestHeaders P (requestHeaders (resolve params ctx)) s
    = (Return (VRef l), s1) ->
  is_Some (st_heap s1 !! l) ->
  post (Templated.invoke P resolve params ctx) s (fun o s' => forall r, o = Return r ->
    keeps l (st_heap s1) (st_heap s') /\
    exists req, last (st_log s') = Some req /\
      req_headers req = props_of (st_heap s') (VRef l)).
Proof.
  intros Hparse Hl. unfold Templated.invoke. cbv zeta.
  destruct (truthy_str (method (resolve params ctx))) as [m|]; [|done].
  apply post_bind, post_lift.
  destruct (Bundle.resolveURL (resolve params ctx) ctx) as [url|e]; [|done].
  apply post_bind. eapply post_eq; [exact Hparse|].
  eapply post_bind_with; [by apply keeps_bundle_addAuthentication | | done].
  intros [] s2 K2.
  eapply post_mono; [apply (tail_keeps l _ _ _ _ _ s1 s2 (stamp_state) K2)|].
  intros o s' H r Hr. destruct (H r Hr) as (K & req & Hlog & Hh).
  split; [done|]. exists req. by rewrite Hlog, last_snoc.
Qed.

Lemma guarded_truthy h l q x :
  props_of h (VRef l) !! q = Some x -> truthy x = true -> guarded h l q.
Proof. intros Hq Hx k k' _ ->. unfold given. by rewrite Hq; simpl; rewrite Hx. Qed.

(** What the request carries of a mapping [l] the invocation started
    with. *)
Lemma carried_from l (h1 : list object) s' req q x :
  keeps l h1 (st_heap s') ->
  req_headers req = props_of (st_heap s') (VRef l) ->
  props_of h1 (VRef l) !! q = Some x -> truthy x = true ->
  req_headers req !! q = Some x.
Proof.
  intros [_ Hk] -> Hq Hx. rewrite Hk; [done|]. by eapply guarded_truthy.
Qed.

Lemma parseRequestHeaders_string str j s :
  Str.nonempty str = true -> JSON_parse P str = Return j ->
  parseRequestHeaders P (VStr str) s
  = (Return (alloc_json j (st_heap s ++ [Obj Plain [] ∅])).1,
     mkState (alloc_json j (st_heap s ++ [Obj Plain [] ∅])).2 (st_log s)).
Proof.
  intros Hne Hp.
  unfold parseRequestHeaders, new_object, bind, try_catch, lift, materialise, throw.
  rewrite alloc_spec. cbn [truthy]. rewrite Hne, Hp.
  cbn [st_heap st_log]. by destruct (alloc_json j _).
Qed.

End KeepsInvoke.

(** X16: headers the caller gave in a mapping are kept.  When [requestHeaders]
    is a mapping of the heap and the invocation returns, the last request
    sent carries every truthy header of that mapping with the value the
    caller gave: no computed header (Authorization, User-Agent,
    Content-Type) replaces a header that is given.  This holds for the
    original, the bundled and the templated action. *)
Theorem given_headers_are_kept (P : Platform) (params : Params) (ctx : context)
    (s : state) (l : loc) :
  is_Some (st_heap s !! l) ->
  let before := props_of (st_heap s) (VRef l) in
  let carried (o : outcome ActionResult) (s' : state) :=
    forall r, o = Return r ->
      exists req, last (st_log s') = Some req /\
        forall q x, before !! q = Some x -> truthy x = true ->
          req_headers req !! q = Some x in
  (requestHeaders params = VRef l ->
     post (Legacy.invoke P params ctx) s carried /\
     post (Bundle.invoke P params ctx) s carried) /\
  (forall resolve, requestHeaders (resolve params ctx) = VRef l ->
     post (Templated.invoke P resolve params ctx) s carried).
Proof.
  intros Hl before carried.
  set (s1 := mkState (st_heap s ++ [Obj Plain [] ∅]) (st_log s)).
  assert (Hl1 : is_Some (st_heap s1 !! l)) by (by apply is_Some_app).
  assert (Hb : props_of (st_heap s1) (VRef l) = before)
    by (by apply props_of_app_valid).
  assert (Hfin : forall (o : outcome ActionResult) s',
    (forall r, o = Return r ->
       keeps l (st_heap s1) (st_heap s') /\
       exists req, last (st_log s') = Some req /\
         req_headers req = props_of (st_heap s') (VRef l)) ->
    carried o s').
  { intros o s' H r Hr. destruct (H r Hr) as (Hk & req & Hlast & Hh).
    exists req. split; [done|]. intros q x Hq Hx.
    apply (carried_from l (st_heap s1) s'); try done. by rewrite Hb. }
  split.
  - intros Hrh. split.
    + eapply post_mono; [|exact Hfin].
      apply (legacy_invoke_keeps P params ctx s l s1); [by rewrite Hrh | done].
    + eapply post_mono; [|exact Hfin].
      apply (bundle_invoke_keeps P params ctx s l s1); [by rewrite Hrh | done].
  - intros resolve Hrh. eapply post_mono; [|exact Hfin].
    apply (templated_invoke_keeps P resolve params ctx s l s1); [by rewrite Hrh | done].
Qed.

Lemma given_headers_are_kept_witness :
  let P := Sample.platform (Sample.replies 200 "OK") in
  let params :=
    mkParams (Some "POST") (Some "https://api.example.com") None
      (VStr "{}") (VRef 0) VUndefined in
  let s :=
    mkState [Obj Plain [] (<["User-Agent" := VStr "custom/1.0"]>
                             {["authorization" := VStr "Custom auth"]})] [] in
  exists r s' req,
    Bundle.invoke P params Sample.bearer_context s = (Return r, s') /\
    last (st_log s') = Some req /\
    req_headers req !! "User-Agent" = Some (VStr "custom/1.0") /\
    req_headers req !! "authorization" = Some (VStr "Custom auth").
Proof.
  intros P params s.
  pose proof (proj2 (proj1 (given_headers_are_kept P params Sample.bearer_context s 0%nat
                              (ex_intro _ _ eq_refl)) eq_refl)) as Hc.
  assert (E : exists r s',
    Bundle.invoke P params Sample.bearer_context s = (Return r, s'))
    by (do 2 eexists; vm_compute; reflexivity).
  destruct E as (r & s' & E).
  destruct (post_elim _ _ _ _ _ Hc E r eq_refl) as (req & Hlast & Hq).
  exists r, s', req. split; [done|]. split; [done|]. split; by apply Hq.
Defined.

(** X17: headers the caller gave as JSON text reach the request.  When
    [requestHeaders] is a non-empty string that parses to a JSON object and
    the invocation returns, the last request sent carries every member of
    that object whose value is a non-empty string (the last one, for a
    repeated name), with that value; computed headers are only added beside
    them. *)
Theorem json_headers_are_carried (P : Platform) (params : Params) (ctx : context)
    (s : state) (str : string) (fields : list (string * json)) :
  Str.nonempty str = true ->
  JSON_parse P str = Return (JObj fields) ->
  let carried (o : outcome ActionResult) (s' : state) :=
    forall r, o = Return r ->
      exists req, last (st_log s') = Some req /\
        forall q v, json_field q fields = Some (JStr v) -> Str.nonempty v = true ->
          req_headers req !! q = Some (VStr v) in
  (requestHeaders params = VStr str ->
     post (Legacy.invoke P params ctx) s carried /\
     post (Bundle.invoke P params ctx) s carried) /\
  (forall resolve, requestHeaders (resolve params ctx) = VStr str ->
     post (Templated.invoke P resolve params ctx) s carried).
Proof.
  intros Hne Hp carried.
  pose proof (parseRequestHeaders_string P str _ s Hne Hp) as Hparse.
  destruct (alloc_json_JObj fields (st_heap s ++ [Obj Plain [] ∅]))
    as (ps & h' & Ea & Hps).
  rewrite Ea in Hparse. cbn [fst snd] in Hparse.
  set (l := length h') in *.
  set (s1 := mkState (h' ++ [Obj Plain [] ps]) (st_log s)) in *.
  assert (Hl1 : is_Some (st_heap s1 !! l))
    by (unfold s1, l; simpl; rewrite list_lookup_middle by done; by eexists).
  assert (Hb : props_of (st_heap s1) (VRef l) = ps) by apply props_of_fresh.
  assert (Hfin : forall (o : outcome ActionResult) s',
    (forall r, o = Return r ->
       keeps l (st_heap s1) (st_heap s') /\
       exists req, last (st_log s') = Some req /\
         req_headers req = props_of (st_heap s') (VRef l)) ->
    carried o s').
  { intros o s' H r Hr. destruct (H r Hr) as (Hk & req & Hlast & Hh).
    exists req. split; [done|]. intros q v Hq Hv.
    apply (carried_from l (st_heap s1) s'); try done.
    rewrite Hb. specialize (Hps q). by rewrite Hq in Hps. }
  split.
  - intros Hrh. split.
    + eapply post_mono; [|exact Hfin].
      apply (legacy_invoke_keeps P params ctx s l s1); [by rewrite Hrh | done].
    + eapply post_mono; [|exact Hfin].
      apply (bundle_invoke_keeps P params ctx s l s1); [by rewrite Hrh | done].
  - intros resolve Hrh. eapply post_mono; [|exact Hfin].
    apply (templated_invoke_keeps P resolve params ctx s l s1); [by rewrite Hrh | done].
Qed.

Lemma json_headers_are_carried_witness :
  let P :=
    mkPlatform (fun _ => Return (JObj [("X-API-Key", JStr "key123");
                                       ("User-Agent", JStr "custom/1.0")]))
      (fun _ _ => Return "{}") Sample.to_string
      (fun _ _ => Sample.replies 200 "OK") Sample.describe Sample.urlencode
      (fun _ => "2024-01-15T10:30:00.000Z") in
  let params :=
    mkParams (Some "GET") (Some "https://api.example.com") None
      VUndefined (VStr "headers as JSON text") VUndefined in
  exists r s' req,
    Bundle.invoke P params Sample.no_context (mkState [] []) = (Return r, s') /\
    last (st_log s') = Some req /\
    req_headers req !! "X-API-Key" = Some (VStr "key123") /\
    req_headers req !! "User-Agent" = Some (VStr "custom/1.0").
Proof.
  intros P params.
  pose proof (proj2 (proj1 (json_headers_are_carried P params Sample.no_context
                              (mkState [] []) "headers as JSON text"
                              [("X-API-Key", JStr "key123");
                               ("User-Agent", JStr "custom/1.0")]
                              eq_refl eq_refl) eq_refl)) as Hc.
  assert (E : exists r s',
    Bundle.invoke P params Sample.no_context (mkState [] []) = (Return r, s'))
    by (do 2 eexists; vm_compute; reflexivity).
  destruct E as (r & s' & E).
  destruct (post_elim _ _ _ _ _ Hc E r eq_refl) as (req & Hlast & Hq).
  exists r, s', req. split; [done|]. split; [done|]. split; by apply Hq.
Defined.

(** ** The Authorization header of the request *)

Section Authorization.
Context (P : Platform).

Lemma parseRequestHeaders_absent rh s :
  truthy rh = false ->
  parseRequestHeaders P rh s
  = (Return (VRef (length (st_heap s))),
     mkState (st_heap s ++ [Obj Plain [] ∅]) (st_log s)).
Proof.
  intros H. unfold parseRequestHeaders, new_object, bind.
  by rewrite alloc_spec, H.
Qed.

Lemma scheme_truthy a :
  has_prefix a "Bearer " \/ has_prefix a "Basic " -> truthy (VStr a) = true.
Proof. by intros [[t ->] | [t ->]]. Qed.

Lemma given_lookup h l k x :
  props_of h (VRef l) !! k = Some x -> given h (VRef l) k = truthy x.
Proof. intros H. unfold given. by rewrite H. Qed.

Lemma given_none h l k :
  props_of h (VRef l) !! k = None -> given h (VRef l) k = false.
Proof. intros H. unfold given. by rewrite H. Qed.

(** The authentication block of the bundled action on a fresh, empty
    headers object. *)
Lemma bundle_addAuthentication_fresh ctx s :
  let l := length (st_heap s) in
  let s1 := mkState (st_heap s ++ [Obj Plain [] ∅]) (st_log s) in
  post (Bundle.addAuthentication P ctx (VRef l)) s1 (fun o s2 =>
    o = Return tt ->
    is_Some (st_heap s2 !! l) /\
    st_log s2 = st_log (Bundle.getAuthorizationHeader P ctx s1).2 /\
    (forall k, k <> "Authorization" -> props_of (st_heap s2) (VRef l) !! k = None) /\
    match (Bundle.getAuthorizationHeader P ctx s1).1 with
    | Return a => props_of (st_heap s2) (VRef l) !! "Authorization" = Some (VStr a)
    | Throw _ => props_of (st_heap s2) (VRef l) !! "Authorization" = None
    end).
Proof.
  intros l s1. unfold post. rewrite addAuthentication_unfold.
  assert (Hp1 : props_of (st_heap s1) (VRef l) = ∅) by apply props_of_fresh.
  rewrite !given_none by (by rewrite Hp1). cbn [orb].
  assert (Hlt : (l < length (st_heap s1))%nat)
    by (unfold s1, l; simpl; rewrite length_app; simpl; lia).
  pose proof (framed_getAuthorizationHeader P (length (st_heap s1)) None ctx s1
                ltac:(done)) as Hf.
  unfold post in Hf.
  destruct (frame_props l _ _ _ Hf ltac:(done) Hlt) as [Hs Hp].
  rewrite Hp1 in Hp.
  destruct (Bundle.getAuthorizationHeader P ctx s1) as [[a|e] s1'];
    cbn [fst snd st_heap st_log] in *.
  - intros _. split; [by apply is_Some_alter|]. split; [done|].
    rewrite props_of_alter_eq, Hp by done. split.
    + intros k Hk. by rewrite lookup_insert_ne.
    + by rewrite lookup_insert_eq.
  - destruct (Str.includes (message e) no_auth); cbn [fst snd]; [|done].
    intros _. rewrite Hp. done.
Qed.

Lemma addUserAgent_fresh l s :
  is_Some (st_heap s !! l) ->
  props_of (st_heap s) (VRef l) !! "User-Agent" = None ->
  props_of (st_heap s) (VRef l) !! "user-agent" = None ->
  post (Bundle.addUserAgent P (VRef l)) s (fun o s' =>
    o = Return tt /\ st_log s' = st_log s /\ is_Some (st_heap s' !! l) /\
    props_of (st_heap s') (VRef l) !! "User-Agent" = Some (VStr Bundle.SGNL_USER_AGENT) /\
    props_of (st_heap s') (VRef l) !! "Authorization"
      = props_of (st_heap s) (VRef l) !! "Authorization").
Proof.
  intros Hl H1 H2. unfold Bundle.addUserAgent. eapply post_eq; [apply set_unless_given_eq|].
  rewrite !given_none by done. cbn [orb st_heap st_log].
  split; [done|]. split; [done|]. split; [by apply is_Some_alter|].
  rewrite props_of_alter_eq by done.
  split; [by rewrite lookup_insert_eq | by rewrite lookup_insert_ne].
Qed.

Lemma bundle_invoke_absent_headers params ctx s :
  truthy (requestHeaders params) = false ->
  let s1 := mkState (st_heap s ++ [Obj Plain [] ∅]) (st_log s) in
  post (Bundle.invoke P params ctx) s (fun o s' => forall r, o = Return r ->
    exists req,
      st_log s' = st_log (Bundle.getAuthorizationHeader P ctx s1).2 ++ [req] /\
      req_headers req !! "User-Agent" = Some (VStr Bundle.SGNL_USER_AGENT) /\
      forall a, (Bundle.getAuthorizationHeader P ctx s1).1 = Return a ->
        req_headers req !! "Authorization" = Some (VStr a)).
Proof.
  intros Hrh s1. subst s1. unfold Bundle.invoke.
  destruct (truthy_str (method params)) as [m|]; [|done].
  apply post_bind, post_lift. destruct (Bundle.resolveURL params ctx) as [url|e]; [|done].
  apply post_bind. eapply post_eq; [by apply parseRequestHeaders_absent|].
  set (l := length (st_heap s)).
  eapply post_bind_with; [apply bundle_addAuthentication_fresh | | done].
  intros [] s2 H2. destruct (H2 eq_refl) as (Hl2 & Hlog2 & Hother & Hauth). clear H2.
  eapply post_bind_with;
    [apply (addUserAgent_fresh l s2 Hl2); by apply Hother | | done].
  intros [] s3 (_ & Hlog3 & Hl3 & Hua & HA).
  eapply post_mono; [apply (tail_keeps P l _ _ _ _ _ s3 s3 (strict_state P)
                              (keeps_refl l _ Hl3))|].
  intros o s' H r Hr. destruct (H r Hr) as ([_ K] & req & Hlog & Hh).
  exists req. rewrite Hlog, Hlog3, Hlog2. split; [done|]. rewrite Hh. split.
  - rewrite K; [done|]. by eapply guarded_truthy.
  - intros a Ha. rewrite Ha in Hauth.
    rewrite K; [by rewrite HA|].
    eapply guarded_truthy; [by rewrite HA|].
    apply scheme_truthy.
    eapply (getAuthorizationHeader_scheme P ctx).
    rewrite <- Ha. apply surjective_pairing.
Qed.

Lemma templated_invoke_absent_headers resolve params ctx s :
  truthy (requestHeaders (resolve params ctx)) = false ->
  let s1 := mkState (st_heap s ++ [Obj Plain [] ∅]) (st_log s) in
  post (Templated.invoke P resolve params ctx) s (fun o s' => forall r, o = Return r ->
    exists req,
      st_log s' = st_log (Bundle.getAuthorizationHeader P ctx s1).2 ++ [req] /\
      forall a, (Bundle.getAuthorizationHeader P ctx s1).1 = Return a ->
        req_headers req !! "Authorization" = Some (VStr a)).
Proof.
  intros Hrh s1. subst s1. unfold Templated.invoke. cbv zeta.
  destruct (truthy_str (method (resolve params ctx))) as [m|]; [|done].
  apply post_bind, post_lift.
  destruct (Bundle.resolveURL (resolve params ctx) ctx) as [url|e]; [|done].
  apply post_bind. eapply post_eq; [by apply parseRequestHeaders_absent|].
  set (l := length (st_heap s)).
  eapply post_bind_with; [apply bundle_addAuthentication_fresh | | done].
  intros [] s2 H2. destruct (H2 eq_refl) as (Hl2 & Hlog2 & Hother & Hauth). clear H2.
  eapply post_mono; [apply (tail_keeps P l _ _ _ _ _ s2 s2 (stamp_state P)
                              (keeps_refl l _ Hl2))|].
  intros o s' H r Hr. destruct (H r Hr) as ([_ K] & req & Hlog & Hh).
  exists req. rewrite Hlog, Hlog2. split; [done|]. rewrite Hh.
  intros a Ha. rewrite Ha in Hauth.
  rewrite K; [done|].
  eapply guarded_truthy; [done|].
  apply scheme_truthy.
  eapply (getAuthorizationHeader_scheme P ctx).
  rewrite <- Ha. apply surjective_pairing.
Qed.

End Authorization.

Section ClientCredentials.
Context (P : Platform).

Lemma field_truthy o k v : field o k = Some v -> truthy_str (Some v) = Some v.
Proof.
  destruct o as [m|]; [|done]. simpl. intros H.
  apply truthy_str_Some in H as [_ H]. by rewrite H.
Qed.

Lemma getAuthorizationHeader_client_credentials ctx cs tu ci :
  field (secrets ctx) "BEARER_AUTH_TOKEN" = None ->
  field (secrets ctx) "BASIC_USERNAME" = None \/
    field (secrets ctx) "BASIC_PASSWORD" = None ->
  field (secrets ctx) "OAUTH2_AUTHORIZATION_CODE_ACCESS_TOKEN" = None ->
  field (secrets ctx) "OAUTH2_CLIENT_CREDENTIALS_CLIENT_SECRET" = Some cs ->
  field (environment ctx) "OAUTH2_CLIENT_CREDENTIALS_TOKEN_URL" = Some tu ->
  field (environment ctx) "OAUTH2_CLIENT_CREDENTIALS_CLIENT_ID" = Some ci ->
  Bundle.getAuthorizationHeader P ctx =
    (token <- Bundle.getClientCredentialsToken P (token_config ctx tu ci cs) ;;
     h <- get_heap ;;
     ret ("Bearer " +:+ ToString P h token)).
Proof.
  intros Hb Hbasic Ha Hcs Htu Hci. unfold Bundle.getAuthorizationHeader.
  rewrite Hb, Ha, Hcs, Htu, Hci. unfold token_config.
  destruct Hbasic as [-> | ->];
    [by destruct (field (secrets ctx) "BASIC_PASSWORD") | done].
Qed.

Lemma client_credentials_run ctx cs tu ci s :
  field (secrets ctx) "BEARER_AUTH_TOKEN" = None ->
  field (secrets ctx) "BASIC_USERNAME" = None \/
    field (secrets ctx) "BASIC_PASSWORD" = None ->
  field (secrets ctx) "OAUTH2_AUTHORIZATION_CODE_ACCESS_TOKEN" = None ->
  field (secrets ctx) "OAUTH2_CLIENT_CREDENTIALS_CLIENT_SECRET" = Some cs ->
  field (environment ctx) "OAUTH2_CLIENT_CREDENTIALS_TOKEN_URL" = Some tu ->
  field (environment ctx) "OAUTH2_CLIENT_CREDENTIALS_CLIENT_ID" = Some ci ->
  exists treq,
    req_url treq = tu /\ req_method treq = "POST" /\
    st_log (Bundle.getAuthorizationHeader P ctx s).2 = st_log s ++ [treq] /\
    forall resp fields t,
      fetch_oracle P (st_log s) treq = Return resp -> ok resp = true ->
      json_body resp = Return (JObj fields) ->
      json_field "access_token" fields = Some (JStr t) -> Str.nonempty t = true ->
      (Bundle.getAuthorizationHeader P ctx s).1 = Return ("Bearer " +:+ t).
Proof.
  intros Hb Hbasic Ha Hcs Htu Hci.
  rewrite (getAuthorizationHeader_client_credentials ctx cs tu ci) by done.
  destruct (getClientCredentialsToken_run P (token_config ctx tu ci cs) tu ci cs s
              (field_truthy _ _ _ Htu) (field_truthy _ _ _ Hci) (field_truthy _ _ _ Hcs))
    as (hs & form & h1 & Hrun & _).
  cbv zeta in Hrun.
  exists (mkRequest tu "POST" hs (Some (VStr (form_urlencode P form)))).
  split; [done|]. split; [done|]. unfold bind at 1 3. rewrite Hrun.
  destruct (fetch_oracle P _ _) as [resp|e]; [|by split].
  set (sr := mkState h1 _).
  pose proof (token_answer_log P resp sr) as Hlog.
  split.
  - destruct (token_answer P resp sr) as [[v|e] s2]; simpl in *; done.
  - intros resp' fields t [= <-] Hok Hj Hf Ht.
    destruct (token_answer_accepted P resp sr Hok) as (o & s2 & E & _ & Hcase).
    rewrite Hj, Hf, Ht in Hcase. subst o. by rewrite E.
Qed.

End ClientCredentials.

(** X18: the header the resolver returns is the Authorization of the request.
    In the bundled and in the templated action, on an invocation without
    request headers, when [getAuthorizationHeader] (run once the empty
    headers object is made) returns the header [a], a returning invocation
    has sent, right after what the resolver sent, a request whose
    Authorization is [a]; in the bundled action its User-Agent is
    SGNL-CAEP-Hub/2.0. *)
Theorem resolved_authorization_reaches_the_request (P : Platform)
    (params : Params) (ctx : context) (s : state) (a : string) (sa : state) :
  Bundle.getAuthorizationHeader P ctx
    (mkState (st_heap s ++ [Obj Plain [] ∅]) (st_log s)) = (Return a, sa) ->
  (truthy (requestHeaders params) = false ->
   post (Bundle.invoke P params ctx) s (fun o s' => forall r, o = Return r ->
     exists req,
       st_log s' = st_log sa ++ [req] /\
       req_headers req !! "Authorization" = Some (VStr a) /\
       req_headers req !! "User-Agent" = Some (VStr Bundle.SGNL_USER_AGENT))) /\
  (forall resolve, truthy (requestHeaders (resolve params ctx)) = false ->
   post (Templated.invoke P resolve params ctx) s (fun o s' => forall r, o = Return r ->
     exists req,
       st_log s' = st_log sa ++ [req] /\
       req_headers req !! "Authorization" = Some (VStr a))).
Proof.
  intros Hauth. split.
  - intros Hrh. eapply post_mono; [by apply bundle_invoke_absent_headers|].
    intros o s' H r Hr. destruct (H r Hr) as (req & Hlog & Hua & HA).
    rewrite Hauth in Hlog, HA. exists req. split; [done|]. split; [by apply HA | done].
  - intros resolve Hrh.
    eapply post_mono; [by apply templated_invoke_absent_headers|].
    intros o s' H r Hr. destruct (H r Hr) as (req & Hlog & HA).
    rewrite Hauth in Hlog, HA. exists req. split; [done | by apply HA].
Qed.

Lemma resolved_authorization_reaches_the_request_witness :
  let P := Sample.platform (Sample.replies 200 "OK") in
  let params :=
    mkParams (Some "GET") (Some "https://api.example.com") None
      VUndefined VUndefined VUndefined in
  let ctx :=
    mkContext None
      (Some (<["BASIC_USERNAME" := "user"]> {["BASIC_PASSWORD" := "pass"]})) in
  exists r s' req,
    Bundle.invoke P params ctx (mkState [] []) = (Return r, s') /\
    st_log s' = [req] /\
    req_headers req !! "Authorization" = Some (VStr "Basic dXNlcjpwYXNz") /\
    req_headers req !! "User-Agent" = Some (VStr "SGNL-CAEP-Hub/2.0").
Proof.
  intros P params ctx.
  pose proof (proj1 (resolved_authorization_reaches_the_request P params ctx
                       (mkState [] []) "Basic dXNlcjpwYXNz"
                       (mkState [Obj Plain [] ∅] []) eq_refl) eq_refl) as Hc.
  assert (E : exists r s', Bundle.invoke P params ctx (mkState [] []) = (Return r, s'))
    by (do 2 eexists; vm_compute; reflexivity).
  destruct E as (r & s' & E).
  destruct (post_elim _ _ _ _ _ Hc E r eq_refl) as (req & Hlog & HA & HU).
  by exists r, s', req.
Defined.

(** X19: the bearer token of the original action.  On an invocation without
    request headers and with a BEARER_AUTH_TOKEN secret, a returning
    invocation of the original action has sent exactly one request, whose
    Authorization is "Bearer " followed by the token as it is configured
    (the token is not inspected, so a token that already starts with
    "Bearer " is prefixed once more). *)
Theorem legacy_bearer_token_reaches_the_request (P : Platform) (params : Params)
    (ctx : context) (s : state) (token : string) :
  truthy (requestHeaders params) = false ->
  field (secrets ctx) "BEARER_AUTH_TOKEN" = Some token ->
  post (Legacy.invoke P params ctx) s (fun o s' => forall r, o = Return r ->
    exists req,
      st_log s' = st_log s ++ [req] /\
      req_headers req !! "Authorization" = Some (VStr ("Bearer " +:+ token))).
Proof.
  intros Hrh Htok. unfold Legacy.invoke.
  destruct (truthy_str (method params)) as [m|]; [|done].
  apply post_bind, post_lift. destruct (Legacy.resolveURL params ctx) as [url|e]; [|done].
  apply post_bind. eapply post_eq; [by apply parseRequestHeaders_absent|].
  set (l := length (st_heap s)).
  set (s1 := mkState (st_heap s ++ [Obj Plain [] ∅]) (st_log s)).
  assert (Hp1 : props_of (st_heap s1) (VRef l) = ∅) by apply props_of_fresh.
  assert (Hl1 : is_Some (st_heap s1 !! l))
    by (unfold s1, l; simpl; rewrite list_lookup_middle by done; by eexists).
  apply post_bind. unfold Legacy.addAuthentication. rewrite Htok.
  eapply post_eq; [apply set_unless_given_eq|].
  rewrite !given_none by (by rewrite Hp1). cbn [orb].
  set (s2 := mkState _ _).
  assert (Hl2 : is_Some (st_heap s2 !! l)) by (by apply is_Some_alter).
  assert (HA : props_of (st_heap s2) (VRef l) !! "Authorization"
               = Some (VStr ("Bearer " +:+ token))).
  { unfold s2. cbn [st_heap]. rewrite props_of_alter_eq by done.
    by rewrite lookup_insert_eq. }
  eapply post_mono; [apply (tail_keeps P l _ _ _ _ _ s2 s2 (stamp_state P)
                              (keeps_refl l _ Hl2))|].
  intros o s' H r Hr. destruct (H r Hr) as ([_ K] & req & Hlog & Hh).
  exists req. split; [done|]. rewrite Hh, K; [done|].
  by eapply guarded_truthy.
Qed.

Lemma legacy_bearer_token_reaches_the_request_witness :
  let P := Sample.platform (Sample.replies 200 "OK") in
  let params :=
    mkParams (Some "GET") (Some "https://api.example.com") None
      VUndefined VUndefined VUndefined in
  let ctx := mkContext None (Some {["BEARER_AUTH_TOKEN" := "Bearer abc"]}) in
  exists r s' req,
    Legacy.invoke P params ctx (mkState [] []) = (Return r, s') /\
    st_log s' = [req] /\
    req_headers req !! "Authorization" = Some (VStr "Bearer Bearer abc").
Proof.
  intros P params ctx.
  pose proof (legacy_bearer_token_reaches_the_request P params ctx (mkState [] [])
                "Bearer abc" eq_refl eq_refl) as Hc.
  assert (E : exists r s', Legacy.invoke P params ctx (mkState [] []) = (Return r, s'))
    by (do 2 eexists; vm_compute; reflexivity).
  destruct E as (r & s' & E).
  destruct (post_elim _ _ _ _ _ Hc E r eq_refl) as (req & Hlog & HA).
  by exists r, s', req.
Defined.

(** X20: the client-credentials flow, end to end.  In the bundled action, on
    an invocation without request headers, with the client secret as the
    only secret and the token URL and the client id in the environment, a
    returning invocation has sent exactly two requests: first a POST to the
    token URL, then the webhook call.  When the token endpoint answered ok
    with a JSON object whose access_token is a non-empty string, the
    Authorization of the webhook call is "Bearer " followed by that
    token. *)
Theorem client_credentials_flow (P : Platform) (params : Params) (ctx : context)
    (s : state) (cs tu ci : string) :
  truthy (requestHeaders params) = false ->
  field (secrets ctx) "BEARER_AUTH_TOKEN" = None ->
  field (secrets ctx) "BASIC_USERNAME" = None \/
    field (secrets ctx) "BASIC_PASSWORD" = None ->
  field (secrets ctx) "OAUTH2_AUTHORIZATION_CODE_ACCESS_TOKEN" = None ->
  field (secrets ctx) "OAUTH2_CLIENT_CREDENTIALS_CLIENT_SECRET" = Some cs ->
  field (environment ctx) "OAUTH2_CLIENT_CREDENTIALS_TOKEN_URL" = Some tu ->
  field (environment ctx) "OAUTH2_CLIENT_CREDENTIALS_CLIENT_ID" = Some ci ->
  post (Bundle.invoke P params ctx) s (fun o s' => forall r, o = Return r ->
    exists treq wreq,
      st_log s' = st_log s ++ [treq; wreq] /\
      req_url treq = tu /\ req_method treq = "POST" /\
      forall resp fields t,
        fetch_oracle P (st_log s) treq = Return resp -> ok resp = true ->
        json_body resp = Return (JObj fields) ->
        json_field "access_token" fields = Some (JStr t) -> Str.nonempty t = true ->
        req_headers wreq !! "Authorization" = Some (VStr ("Bearer " +:+ t))).
Proof.
  intros Hrh Hb Hbasic Ha Hcs Htu Hci.
  eapply post_mono; [by apply bundle_invoke_absent_headers|].
  intros o s' H r Hr. destruct (H r Hr) as (req & Hlog & _ & HA).
  destruct (client_credentials_run P ctx cs tu ci
              (mkState (st_heap s ++ [Obj Plain [] ∅]) (st_log s))
              Hb Hbasic Ha Hcs Htu Hci) as (treq & Hu & Hm & Hl & Hok).
  cbn [st_log] in Hl, Hok.
  exists treq, req. rewrite Hlog, Hl, <- app_assoc. split; [done|].
  split; [done|]. split; [done|].
  intros resp fields t H1 H2 H3 H4 H5. apply HA. by eapply Hok.
Qed.

Lemma client_credentials_flow_witness :
  let P :=
    Sample.platform
      (Return (mkResponse 200 "OK" true (Return "done")
                 (Return (JObj [("access_token", JStr "abc")])) (Return "done"))) in
  let params :=
    mkParams (Some "GET") (Some "https://api.example.com") None
      VUndefined VUndefined VUndefined in
  let ctx :=
    mkContext
      (Some (<["OAUTH2_CLIENT_CREDENTIALS_TOKEN_URL" := "https://auth.example.com/token"]>
               {["OAUTH2_CLIENT_CREDENTIALS_CLIENT_ID" := "client"]}))
      (Some {["OAUTH2_CLIENT_CREDENTIALS_CLIENT_SECRET" := "secret"]}) in
  exists r s' treq wreq,
    Bundle.invoke P params ctx (mkState [] []) = (Return r, s') /\
    st_log s' = [treq; wreq] /\
    req_url treq = "https://auth.example.com/token" /\
    req_headers wreq !! "Authorization" = Some (VStr "Bearer abc").
Proof.
  intros P params ctx.
  pose proof (client_credentials_flow P params ctx (mkState [] []) "secret"
                "https://auth.example.com/token" "client"
                eq_refl eq_refl (or_introl eq_refl) eq_refl eq_refl eq_refl eq_refl) as Hc.
  assert (E : exists r s', Bundle.invoke P params ctx (mkState [] []) = (Return r, s'))
    by (do 2 eexists; vm_compute; reflexivity).
  destruct E as (r & s' & E).
  destruct (post_elim _ _ _ _ _ Hc E r eq_refl) as (treq & wreq & Hlog & Hu & _ & HA).
  exists r, s', treq, wreq. split; [done|]. split; [done|]. split; [done|].
  exact (HA (mkResponse 200 "OK" true (Return "done")
               (Return (JObj [("access_token", JStr "abc")])) (Return "done"))
            [("access_token", JStr "abc")] "abc"
            eq_refl eq_refl eq_refl eq_refl eq_refl).
Defined.

(** X21: the success flag when the accepted codes are not an array.  For a
    response whose status is not 2xx, the executor's answer depends on what
    the accepted codes are: a falsy value (null, false, 0, the empty string)
    is returned as the success flag itself; a non-empty string is searched
    for the status written as text; any other value that is not an array (a
    number, true, a plain object) makes the executor throw a TypeError,
    since it has no [includes] method. *)
Theorem success_flag_without_an_array (P : Platform) (method url : string)
    (headers body codes : value) (s : state) :
  codes <> VUndefined ->
  (forall l, codes = VRef l ->
     exists ob, st_heap s !! l = Some ob /\ o_class ob = Plain) ->
  post (makeWebhookRequest P method url headers body codes) s (fun o s' =>
    (st_log s' = st_log s /\ exists f, o = Throw (TypeError P f)) \/
    exists req,
      st_log s' = st_log s ++ [req] /\
      forall resp,
        fetch_oracle P (st_log s) req = Return resp ->
        is_2xx (status resp) = false ->
        let result v :=
          Return (mkResult (status resp) (text_or_empty resp) v None) in
        if truthy codes then
          match codes with
          | VStr t =>
              o = result
                    (VBool (Str.includes t
                              (ToString P (st_heap s') (VNum (status resp)))))
          | _ => o = Throw (TypeError P (NotAFunction codes "includes"))
          end
        else o = result codes).
Proof.
  intros Hne Hplain.
  eapply post_mono;
    [apply (post_conj _ _ _ _
              (steady_makeWebhookRequest P method url headers body codes s)
              (makeWebhookRequest_spec P method url headers body codes s))|].
  intros o s' [Hg (t & hv & codes' & _ & _ & _ & Hc & _ & Hout)].
  rewrite (Hc Hne) in Hout. clear Hc codes'.
  destruct Hout as [(Hlog & _ & Hf) | [Hlog Ho]]; [by left|].
  right. eexists. split; [exact Hlog|].
  intros resp Hresp H2. rewrite Hresp in Ho. cbv zeta.
  unfold settle, classify in Ho. rewrite H2 in Ho.
  destruct (truthy codes) eqn:Ht; [|done].
  unfold includes_call, bind, get_heap, ret, throw in Ho. cbn [fst st_heap] in Ho.
  destruct codes as [| |b|n|t'|l]; try done.
  destruct (Hplain l eq_refl) as (ob & Hob & Hcl).
  destruct (Hg l ob Hob) as ([c es ps] & Hl' & Hc' & _).
  rewrite Hl' in Ho. simpl in Hc'. rewrite Hcl in Hc'. by subst c.
Qed.

Lemma success_flag_without_an_array_witness :
  let P := Sample.platform (Sample.replies 404 "Not Found") in
  post (makeWebhookRequest P "GET" "https://api.example.com" VUndefined VUndefined
          (VNum 404)) (mkState [] []) (fun o s' =>
    (st_log s' = [] /\ exists f, o = Throw (TypeError P f)) \/
    exists req,
      st_log s' = [] ++ [req] /\
      forall resp,
        fetch_oracle P [] req = Return resp ->
        is_2xx (status resp) = false ->
        o = Throw (TypeError P (NotAFunction (VNum 404) "includes"))).
Proof.
  intros P.
  exact (success_flag_without_an_array P "GET" "https://api.example.com" VUndefined
           VUndefined (VNum 404) (mkState [] []) ltac:(discriminate)
           ltac:(intros l; discriminate)).
Defined.

(** X22: what the original action reads of the context.  The original action
    looks at nothing of the context but the ADDRESS of the environment and
    the BEARER_AUTH_TOKEN secret: two contexts that agree on these two give
    the same invocation, whatever else they hold (Basic and OAuth2 secrets
    are of no effect there). *)
Theorem original_action_reads_two_settings (P : Platform) (params : Params)
    (ctx ctx' : context) :
  field (environment ctx) "ADDRESS" = field (environment ctx') "ADDRESS" ->
  field (secrets ctx) "BEARER_AUTH_TOKEN" = field (secrets ctx') "BEARER_AUTH_TOKEN" ->
  Legacy.invoke P params ctx = Legacy.invoke P params ctx'.
Proof.
  intros Ha Hb.
  unfold Legacy.invoke, Legacy.resolveURL, Legacy.addAuthentication.
  by rewrite Ha, Hb.
Qed.

Lemma original_action_reads_two_settings_witness :
  let P := Sample.platform (Sample.replies 200 "OK") in
  let params :=
    mkParams (Some "GET") (Some "https://api.example.com") None
      VUndefined VUndefined VUndefined in
  Legacy.invoke P params
    (mkContext None
       (Some (<["BASIC_USERNAME" := "user"]> {["BASIC_PASSWORD" := "pass"]})))
  = Legacy.invoke P params Sample.no_context.
Proof.
  intros P params.
  exact (original_action_reads_two_settings P params _ Sample.no_context
           eq_refl eq_refl).
Defined.

(** ** The case of the method *)

Lemma upper_ascii_idem c : Str.upper_ascii (Str.upper_ascii c) = Str.upper_ascii c.
Proof. destruct c as [[] [] [] [] [] [] [] []]; vm_compute; reflexivity. Qed.

Lemma toUpperCase_idem s : Str.toUpperCase (Str.toUpperCase s) = Str.toUpperCase s.
Proof.
  induction s as [|c s IH]; [reflexivity|]. simpl. by rewrite upper_ascii_idem, IH.
Qed.

Lemma truthy_str_upper o :
  truthy_str (option_map Str.toUpperCase o) = option_map Str.toUpperCase (truthy_str o).
Proof. destruct o as [[|c s]|]; reflexivity. Qed.

Lemma makeWebhookRequest_upper (P : Platform) method :
  makeWebhookRequest P (Str.toUpperCase method) = makeWebhookRequest P method.
Proof. unfold makeWebhookRequest. by rewrite toUpperCase_idem. Qed.

(** X23: the case of the method does not matter.  The executor uses the
    method in upper case only, so a method and its upper-case form give the
    same run; the original and the bundled action behave on "post" exactly
    as on "POST". *)
Theorem method_case_is_irrelevant (P : Platform) (params : Params) (ctx : context) :
  (forall method url headers body codes,
     makeWebhookRequest P method url headers body codes
     = makeWebhookRequest P (Str.toUpperCase method) url headers body codes) /\
  Legacy.invoke P (upper_method params) ctx = Legacy.invoke P params ctx /\
  Bundle.invoke P (upper_method params) ctx = Bundle.invoke P params ctx.
Proof.
  split; [intros; by rewrite makeWebhookRequest_upper|]. split.
  - unfold Legacy.invoke, Legacy.resolveURL, Legacy.withSuffix, upper_method.
    cbn [method address addressSuffix requestBody requestHeaders acceptedStatusCodes].
    rewrite truthy_str_upper. destruct (truthy_str (method params)) as [m|]; [|done].
    cbn [option_map]. by rewrite makeWebhookRequest_upper.
  - unfold Bundle.invoke, Bundle.resolveURL, Bundle.getBaseURL, upper_method.
    cbn [method address addressSuffix requestBody requestHeaders acceptedStatusCodes].
    rewrite truthy_str_upper. destruct (truthy_str (method params)) as [m|]; [|done].
    cbn [option_map]. by rewrite makeWebhookRequest_upper.
Qed.

(** ** Accepted status codes given as JSON text *)

Lemma alloc_json_numbers ns (h : list object) :
  alloc_json (JArr (map JNum ns)) h
  = (VRef (length h), h ++ [Obj Array (map VNum ns) ∅]).
Proof.
  simpl.
  assert (H : forall h0 : list object,
    (fix go (js : list json) (h : list object) : list value * list object :=
       match js with
       | [] => ([], h)
       | j :: js' =>
           let '(v, h1) := alloc_json j h in
           let '(vs, h2) := go js' h1 in
           (v :: vs, h2)
       end) (map JNum ns) h0 = (map VNum ns, h0)).
  { induction ns as [|n ns IH]; intros h0; simpl; [done|]. by rewrite IH. }
  by rewrite H.
Qed.

Section CodesAsText.
Context (P : Platform).

Lemma parseAcceptedStatusCodes_numbers str ns s :
  Str.nonempty str = true ->
  JSON_parse P str = Return (JArr (map JNum ns)) ->
  parseAcceptedStatusCodes P (VStr str) s
  = (Return (VRef (S (length (st_heap s)))),
     mkState (st_heap s ++ [Obj Array [] ∅] ++ [Obj Array (map VNum ns) ∅])
       (st_log s)).
Proof.
  intros Hne Hp. unfold parseAcceptedStatusCodes, new_array, bind.
  rewrite alloc_spec. cbn [truthy]. rewrite Hne.
  unfold get_heap. cbn [isArray]. unfold try_catch, bind, lift, materialise.
  rewrite Hp. cbn [st_heap st_log]. rewrite alloc_json_numbers.
  rewrite length_app, Nat.add_1_r, <- app_assoc. done.
Qed.

(** Where the anatomy lemmas leave the accepted codes, when they were given
    as the text of an array of numbers. *)
Lemma codes_from_text str ns s0 s1 c (h' : list object) codes :
  Str.nonempty str = true ->
  JSON_parse P str = Return (JArr (map JNum ns)) ->
  parseAcceptedStatusCodes P (VStr str) s0 = (Return c, s1) ->
  grows (st_heap s1) h' -> (c <> VUndefined -> codes = c) ->
  exists l ps, codes = VRef l /\ h' !! l = Some (Obj Array (map VNum ns) ps).
Proof.
  intros Hne Hp Hparse Hg Hc.
  rewrite (parseAcceptedStatusCodes_numbers str ns s0 Hne Hp) in Hparse.
  injection Hparse as <- <-. rewrite (Hc ltac:(done)).
  assert (Hl : (st_heap s0 ++ [Obj Array [] ∅] ++ [Obj Array (map VNum ns) ∅])
               !! S (length (st_heap s0)) = Some (Obj Array (map VNum ns) ∅)).
  { rewrite app_assoc.
    replace (S (length (st_heap s0))) with (length (st_heap s0 ++ [Obj Array [] ∅]))
      by (rewrite length_app; simpl; lia).
    by rewrite list_lookup_middle. }
  destruct (grows_array _ _ _ _ _ Hg Hl) as [ps' Hl'].
  by eexists _, _.
Qed.

End CodesAsText.

(** X24: accepted status codes given as JSON text.  When the parameter is a
    non-empty string that parses to an array of numbers, the numbers are the
    accepted codes: once the webhook call is answered, the original action
    returns with success true exactly when the status is 2xx or one of the
    numbers (success false otherwise), and the bundled action returns in
    that case and throws "Request failed with status code: ..." in every
    other. *)
Theorem accepted_codes_as_json_text (P : Platform) (params : Params) (ctx : context)
    (s : state) (str : string) (ns : list Z) :
  acceptedStatusCodes params = VStr str ->
  Str.nonempty str = true ->
  JSON_parse P str = Return (JArr (map JNum ns)) ->
  let elems := map VNum ns in
  post (Legacy.invoke P params ctx) s (fun o s' =>
    (st_log s' = st_log s /\ exists e, o = Throw e) \/
    exists req,
      st_log s' = st_log s ++ [req] /\
      match fetch_oracle P (st_log s) req with
      | Throw e => o = Throw e
      | Return resp =>
          o = Return (stamped P (st_log s')
                        (mkResult (status resp) (text_or_empty resp)
                           (VBool (accepted elems (status resp))) None))
      end) /\
  post (Bundle.invoke P params ctx) s (fun o s' =>
    exists l, (length l <= 1)%nat /\ Forall (token_request ctx) l /\
    ((st_log s' = st_log s ++ l /\ exists e, o = Throw e) \/
     exists req,
       st_log s' = st_log s ++ l ++ [req] /\
       match fetch_oracle P (st_log s ++ l) req with
       | Throw e => o = Throw e
       | Return resp =>
           let res := mkResult (status resp) (text_or_empty resp)
                        (VBool (accepted elems (status resp))) None in
           o = if accepted elems (status resp)
               then Return (stamped P (st_log s') res)
               else Throw (request_failed P (st_heap s') res)
       end)).
Proof.
  intros Hc Hne Hp elems. split.
  - eapply post_mono; [apply legacy_invoke_anatomy|].
    intros o s' [Hg [H | H]]; [by left|]. right.
    destruct H as (m & url & req & b & codes & _ & _ & Hlog & _ & _ & _ & _
                   & (s0 & s1 & c & Hparse & Hg1 & Hcc) & _ & Ho).
    exists req. split; [done|]. rewrite Hc in Hparse.
    destruct (codes_from_text P str ns s0 s1 c _ codes Hne Hp Hparse Hg1 Hcc)
      as (l & ps & -> & Hl).
    rewrite (settle_array P _ _ _ _ _ Hl) in Ho.
    by destruct (fetch_oracle P _ _).
  - eapply post_mono; [apply bundle_invoke_anatomy|].
    intros o s' [Hg (l & Hlen & HR & [H | H])]; exists l; (split; [done|]);
      (split; [done|]); [by left|]. right.
    destruct H as (m & url & req & b & codes & _ & _ & Hlog & _ & _ & _ & _
                   & (s0 & s1 & c & Hparse & Hg1 & Hcc) & _ & Ho).
    exists req. split; [done|]. rewrite Hc in Hparse.
    destruct (codes_from_text P str ns s0 s1 c _ codes Hne Hp Hparse Hg1 Hcc)
      as (l' & ps & -> & Hl).
    rewrite (settle_array P _ _ _ _ _ Hl) in Ho.
    destruct (fetch_oracle P _ _) as [resp|e]; [|done].
    cbv zeta. cbn [success truthy] in Ho. done.
Qed.

Lemma accepted_codes_as_json_text_witness :
  let P := Sample.platform (Sample.replies 404 "Not Found") in
  let params :=
    mkParams (Some "GET") (Some "https://api.example.com") None
      VUndefined VUndefined (VStr "[404, 410]") in
  exists s' req,
    Legacy.invoke P params Sample.no_context (mkState [] [])
    = (Return (stamped P [req] (mkResult 404 "Not Found" (VBool true) None)), s') /\
    st_log s' = [req].
Proof.
  intros P params.
  pose proof (proj1 (accepted_codes_as_json_text P params Sample.no_context
                       (mkState [] []) "[404, 410]" [404; 410]
                       eq_refl eq_refl eq_refl)) as Hc.
  unfold post in Hc.
  destruct (Legacy.invoke P params Sample.no_context (mkState [] []))
    as [o s'] eqn:E.
  cbn [fst snd st_log] in Hc.
  assert (Hlog : st_log s' <> []).
  { assert (E' : st_log (Legacy.invoke P params Sample.no_context (mkState [] [])).2
                 <> []) by (vm_compute; discriminate).
    by rewrite E in E'. }
  destruct Hc as [[Hl _] | (req & Hl & Ho)]; [done|].
  exists s', req. rewrite Hl in Ho |- *. by rewrite Ho.
Defined.

(** ** Headers that are no object *)

Section PrimitiveHeaders.
Context (P : Platform).

Lemma addUserAgent_primitive hv s :
  (forall l, hv <> VRef l) ->
  exists e, Bundle.addUserAgent P hv s = (Throw e, s).
Proof.
  intros Hv. destruct hv as [| |b|n|t|l]; try (by eexists); by destruct (Hv l).
Qed.

Lemma alloc_json_primitive j (h : list object) :
  match j with JArr _ | JObj _ => False | _ => True end ->
  alloc_json j h = ((alloc_json j h).1, h) /\ forall l, (alloc_json j h).1 <> VRef l.
Proof. by destruct j. Qed.

End PrimitiveHeaders.

(** X25: request headers that are JSON but no object.  When [requestHeaders]
    is a non-empty string that parses to null, a boolean, a number or a
    string, the bundled action always fails before the webhook call (it has
    sent at most the token request): reading a header of null is a
    TypeError, and so is writing the User-Agent on a primitive. *)
Theorem primitive_headers_fail_the_bundled_action (P : Platform) (params : Params)
    (ctx : context) (s : state) (str : string) (j : json) :
  requestHeaders params = VStr str ->
  Str.nonempty str = true ->
  JSON_parse P str = Return j ->
  match j with JArr _ | JObj _ => False | _ => True end ->
  post (Bundle.invoke P params ctx) s (fun o s' =>
    (exists e, o = Throw e) /\
    exists l, st_log s' = st_log s ++ l /\ (length l <= 1)%nat /\
      Forall (token_request ctx) l).
Proof.
  intros Hrh Hne Hp Hj.
  set (R := token_request ctx).
  assert (Hfail : forall (e : exn) s1, within R 1 s s1 ->
            (exists e0, @Throw ActionResult e = Throw e0) /\
            exists l, st_log s1 = st_log s ++ l /\ (length l <= 1)%nat /\ Forall R l).
  { intros e s1 [_ Hl]. split; [by eexists | done]. }
  assert (H0 : within R 1 s s) by (apply (within_mono R 0); [lia | apply within_refl]).
  unfold Bundle.invoke.
  destruct (truthy_str (method params)) as [m|]; [|by apply post_throw, Hfail].
  apply post_bind, post_lift.
  destruct (Bundle.resolveURL params ctx) as [url|e]; [|by apply Hfail].
  apply post_bind. rewrite Hrh.
  eapply post_eq; [by apply parseRequestHeaders_string|].
  destruct (alloc_json_primitive j (st_heap s ++ [Obj Plain [] ∅]) Hj) as [Ea Hv].
  rewrite Ea. cbn [fst snd]. set (hv := (alloc_json j _).1) in *.
  set (s1 := mkState _ _).
  assert (H1 : within R 0 s s1).
  { split; [apply grows_app|]. exists []. rewrite app_nil_r.
    split; [done|]. split; [simpl; lia | constructor]. }
  eapply post_bind_with;
    [apply (within_step R 1 0 _ s s1 (steady_bundle_addAuthentication P _ _)
              (sends_upto_bundle_addAuthentication P _ _)
              (sends_token_addAuthentication P _ _) H1)
    | | exact Hfail].
  intros [] s2 H2. cbn [Nat.add] in H2.
  apply post_bind. destruct (addUserAgent_primitive P hv s2 Hv) as [e Ee].
  eapply post_eq; [exact Ee|]. by apply Hfail.
Qed.

Lemma primitive_headers_fail_the_bundled_action_witness :
  let P := Sample.platform (Sample.replies 200 "OK") in
  let params :=
    mkParams (Some "GET") (Some "https://api.example.com") None
      VUndefined (VStr "404") VUndefined in
  post (Bundle.invoke P params Sample.no_context) (mkState [] []) (fun o s' =>
    (exists e, o = Throw e) /\
    exists l, st_log s' = [] ++ l /\ (length l <= 1)%nat /\
      Forall (token_request Sample.no_context) l).
Proof.
  intros P params.
  exact (primitive_headers_fail_the_bundled_action P params Sample.no_context
           (mkState [] []) "404" (JNum 404) eq_refl eq_refl eq_refl I).
Defined.

(** * Scenarios of the test suite *)

Example get_with_full_address :
  (run (Bundle.invoke (Sample.platform (Sample.replies 200 "OK"))
          (mkParams (Some "GET") (Some "https://api.example.com/endpoint") None
             VUndefined VUndefined VUndefined)
          Sample.no_context) []).1
  = Return (mkAction "success"
      (Some (mkResult 200 "OK" (VBool true) (Some "2024-01-15T10:30:00.000Z")))).
Proof. vm_compute. reflexivity. Qed.

Example response_without_body :
  let reply :=
    Return (mkResponse 204 "" true (Throw (Error "No content"))
              (Throw (Error "No content")) (Throw (Error "No content"))) in
  (run (Bundle.invoke (Sample.platform reply)
          (mkParams (Some "DELETE") (Some "https://api.example.com/resource") None
             VUndefined VUndefined VUndefined)
          Sample.no_context) []).1
  = Return (mkAction "success"
      (Some (mkResult 204 "" (VBool true) (Some "2024-01-15T10:30:00.000Z")))).
Proof. vm_compute. reflexivity. Qed.

Example accepted_status_codes_as_array :
  (run (Bundle.invoke (Sample.platform (Sample.replies 404 "Not Found"))
          (mkParams (Some "GET") (Some "https://api.example.com/user/999") None
             VUndefined VUndefined (VRef 0))
          Sample.no_context) [Obj Array [VNum 404; VNum 410] ∅]).1
  = Return (mkAction "success"
      (Some (mkResult 404 "Not Found" (VBool true)
               (Some "2024-01-15T10:30:00.000Z")))).
Proof. vm_compute. reflexivity. Qed.

Example status_400_fails_the_bundled_action :
  (run (Bundle.invoke (Sample.platform (Sample.replies 400 "Bad Request"))
          (mkParams (Some "POST") (Some "https://api.example.com/fail") None
             VUndefined VUndefined VUndefined)
          Sample.no_context) []).1
  = Throw (Error "Request failed with status code: 400. Response body: Bad Request.").
Proof. vm_compute. reflexivity. Qed.

Example status_400_is_reported_by_the_original_action :
  (run (Legacy.invoke (Sample.platform (Sample.replies 400 "Bad Request"))
          (mkParams (Some "POST") (Some "https://api.example.com/fail") None
             VUndefined VUndefined VUndefined)
          Sample.no_context) []).1
  = Return (mkAction "success"
      (Some (mkResult 400 "Bad Request" (VBool false)
               (Some "2024-01-15T10:30:00.000Z")))).
Proof. vm_compute. reflexivity. Qed.

Example method_is_required :
  (run (Bundle.invoke (Sample.platform (Sample.replies 200 "OK"))
          (mkParams None (Some "https://api.example.com") None
             VUndefined VUndefined VUndefined)
          Sample.no_context) []).1
  = Throw (Error "method is required").
Proof. vm_compute. reflexivity. Qed.

Example http_failure_is_retried :
  error (Error "Request failed with status code: 500. Response body: Internal Server Error.")
  = Return retry_requested.
Proof. vm_compute. reflexivity. Qed.

Example halted : halt = Return (mkAction "halted" None).
Proof. reflexivity. Qed.
